(** * Bug reporter widget: capture session and submission layer

    A shallow embedding of [src/core/capture.ts] (class [BugReportCapture]),
    [src/integrations/base.ts] (class [BaseIntegration]),
    [src/integrations/webhook.ts] (class [WebhookIntegration]) and of the
    submit handler of [src/components/BugReporter.tsx], together with the
    properties the specification states about them.

    Conventions.  JavaScript numbers that the code only uses as integers
    (capacities, status codes, timestamps) are [Z]; arrays are lists, oldest
    element first; optional fields are [option]; objects used as string-keyed
    dictionaries are [gmap string _]; promises are modelled by their settled
    outcome, and the world (network, rasteriser, clock) is an explicit
    argument of the function that consults it.

    A string is a sequence of UTF-16 code units, one [ascii] per unit, so the
    texts of this development are those whose code units lie below 256
    (U+0000 to U+00FF); [String.length] is [text.length].  The functions
    that look at single characters (white space, lower case, percent
    encoding) follow the platform on all of these code units. *)

From Stdlib Require Import ZArith String Ascii List Bool Lia.
From stdpp Require Import base option list strings gmap pretty.

Local Open Scope string_scope.
Local Open Scope list_scope.
Local Open Scope Z_scope.

(** ** JavaScript primitives used by the code *)

Module Js.

(** [a || b] on optional strings: [undefined] and [''] are falsy. *)
Definition truthy (s : option string) : bool :=
  match s with
  | Some s => negb (String.eqb s "")
  | None => false
  end.

Definition or_default (a : option string) (d : string) : string :=
  match a with
  | Some s => if String.eqb s "" then d else s
  | None => d
  end.

(** [String.prototype.toLowerCase]: the capital letters below U+0100 are
    [A] to [Z] and U+00C0 to U+00DE without the sign U+00D7; each has its
    small letter 32 places further. *)
Definition lower_ascii (c : ascii) : ascii :=
  let n := nat_of_ascii c in
  if (((65 <=? n) && (n <=? 90)) ||
      ((192 <=? n) && (n <=? 222) && negb (n =? 215)))%nat
  then ascii_of_nat (n + 32) else c.

Fixpoint toLowerCase (s : string) : string :=
  match s with
  | EmptyString => EmptyString
  | String c s' => String (lower_ascii c) (toLowerCase s')
  end.

(** [s.includes(sub)]. *)
Fixpoint includes (s sub : string) : bool :=
  String.prefix sub s ||
  match s with
  | EmptyString => false
  | String _ s' => includes s' sub
  end.

(** [arr.slice(start)] for an integer [start]: a negative [start] counts
    from the end, and [-0] is [0]. *)
Definition slice {A} (start : Z) (l : list A) : list A :=
  let len := Z.of_nat (length l) in
  let k := if start <? 0 then Z.max (len + start) 0 else Z.min start len in
  drop (Z.to_nat k) l.

(** [arr.join(sep)] on strings. *)
Fixpoint join (sep : string) (l : list string) : string :=
  match l with
  | [] => ""
  | [x] => x
  | x :: rest => x +:+ sep +:+ join sep rest
  end.

(** A thrown value: an [Error] carrying a message, or anything else. *)
Inductive Thrown :=
| ThrownError (message : string)
| ThrownValue (shown : string).

End Js.

(** ** Data model ([src/types]) *)

(** A number that may be [NaN] (the result of [parseInt]). *)
Inductive JsNum := Num (z : Z) | NaN.

Inductive LogLevel := LvLog | LvWarn | LvError | LvInfo | LvDebug.

Record ConsoleLogEntry := {
  log_timestamp : Z;
  log_level : LogLevel;
  log_message : string;
  log_args : list string;
  log_source : option string
}.

Record NetworkRequestEntry := {
  net_timestamp : Z;
  net_method : string;
  net_url : string;
  net_status : option Z;
  net_duration : option Z;
  net_size : option JsNum;
  net_requestHeaders : option (gmap string string);
  net_responseHeaders : option (gmap string string);
  net_error : option string
}.

(** An entry of [excludeUrls], a [RegExp] object.  [pat_exec i s] is what
    the expression finds in [s] when the search starts at index [i]: the
    index just after the match, or nothing.  An expression with the flag [g]
    or [y] is stateful: [test] starts at its [lastIndex] and moves it. *)
Record Pattern := {
  pat_exec : nat -> string -> option nat;
  pat_stateful : bool;
  pat_lastIndex : nat
}.

Record CaptureOptions := {
  maxConsoleLogs : Z;
  maxNetworkRequests : Z;
  sensitiveParams : list string;
  excludeUrls : list Pattern;
  includeRequestHeaders : bool;
  includeResponseHeaders : bool
}.

Definition defaultOptions : CaptureOptions := {|
  maxConsoleLogs := 50;
  maxNetworkRequests := 25;
  sensitiveParams :=
    ["token"; "key"; "secret"; "password"; "auth"; "authorization";
     "api-key"; "apikey"];
  excludeUrls := [];
  includeRequestHeaders := false;
  includeResponseHeaders := false
|}.

(** The defaults with the two capacities replaced. *)
Definition withCapacities (maxLogs maxReqs : Z) : CaptureOptions :=
  {| maxConsoleLogs := maxLogs;
     maxNetworkRequests := maxReqs;
     sensitiveParams := sensitiveParams defaultOptions;
     excludeUrls := [];
     includeRequestHeaders := false;
     includeResponseHeaders := false |}.

(** The defaults with the sensitive-parameter list replaced and header
    capture switched on. *)
Definition withSensitive (params : list string) : CaptureOptions :=
  {| maxConsoleLogs := 50;
     maxNetworkRequests := 25;
     sensitiveParams := params;
     excludeUrls := [];
     includeRequestHeaders := true;
     includeResponseHeaders := true |}.

(** The fields of [BugReportCapture] that the operations below read or
    write. *)
Record Capture := {
  consoleLogs : list ConsoleLogEntry;
  networkRequests : list NetworkRequestEntry;
  isCapturing : bool;
  options : CaptureOptions
}.

Definition newCapture (o : CaptureOptions) : Capture :=
  {| consoleLogs := []; networkRequests := []; isCapturing := false;
     options := o |}.

Definition set_consoleLogs (c : Capture) (l : list ConsoleLogEntry) : Capture :=
  {| consoleLogs := l; networkRequests := networkRequests c;
     isCapturing := isCapturing c; options := options c |}.

Definition set_networkRequests (c : Capture) (l : list NetworkRequestEntry)
  : Capture :=
  {| consoleLogs := consoleLogs c; networkRequests := l;
     isCapturing := isCapturing c; options := options c |}.

Definition updateOptions (c : Capture) (o : CaptureOptions) : Capture :=
  {| consoleLogs := consoleLogs c; networkRequests := networkRequests c;
     isCapturing := isCapturing c; options := o |}.

(** ** Ring buffers ([addConsoleLog], [addNetworkRequest]) *)

(** The body shared by both methods: push, then, when the length exceeds the
    maximum, keep [slice(-max)]. *)
Definition pushBounded {A} (max : Z) (buf : list A) (entry : A) : list A :=
  let pushed := buf ++ [entry] in
  if max <? Z.of_nat (length pushed) then Js.slice (- max) pushed else pushed.

Definition addConsoleLog (c : Capture) (entry : ConsoleLogEntry) : Capture :=
  set_consoleLogs c (pushBounded (maxConsoleLogs (options c)) (consoleLogs c) entry).

Definition addNetworkRequest (c : Capture) (request : NetworkRequestEntry)
  : Capture :=
  set_networkRequests c
    (pushBounded (maxNetworkRequests (options c)) (networkRequests c) request).

Definition getConsoleLogs (c : Capture) : list ConsoleLogEntry := consoleLogs c.
Definition getNetworkRequests (c : Capture) : list NetworkRequestEntry :=
  networkRequests c.

Definition clearLogs (c : Capture) : Capture :=
  set_networkRequests (set_consoleLogs c []) [].

(** The last [k] elements of a list. *)
Definition lastN {A} (k : nat) (l : list A) : list A := drop (length l - k) l.

(** Pushing a whole sequence, one item at a time. *)
Definition pushAll {A} (max : Z) (buf items : list A) : list A :=
  fold_left (pushBounded max) items buf.

(** ** Redaction: query parameters ([sanitizeUrl]) *)

Module Url.

(** What the code uses of a platform [URL] object: everything before the
    query, the raw query ([None] when the URL has none), the list behind
    [searchParams], and the fragment with its [#]. *)
Record URL := {
  base : string;
  query : option string;
  params : list (string * string);
  hash : string
}.

(** [URLSearchParams.prototype.has(name)]: an exact, case-sensitive
    comparison of names. *)
Definition has (l : list (string * string)) (name : string) : bool :=
  existsb (fun p => String.eqb (fst p) name) l.

Definition removeAll (name : string) (l : list (string * string))
  : list (string * string) :=
  List.filter (fun p => negb (String.eqb (fst p) name)) l.

(** [URLSearchParams.prototype.set(name, value)]: the first pair named
    [name] gets [value], the later ones are removed; without such a pair
    one is appended. *)
Fixpoint set (l : list (string * string)) (name value : string)
  : list (string * string) :=
  match l with
  | [] => [(name, value)]
  | (k, v) :: rest =>
      if String.eqb k name then (k, value) :: removeAll name rest
      else (k, v) :: set rest name value
  end.

(** The application/x-www-form-urlencoded serializer that writes the list
    back into the URL's query after an update. *)
Definition formSafe (c : ascii) : bool :=
  let n := nat_of_ascii c in
  (((48 <=? n) && (n <=? 57)) || ((65 <=? n) && (n <=? 90)) ||
   ((97 <=? n) && (n <=? 122)) ||
   (n =? 42) || (n =? 45) || (n =? 46) || (n =? 95))%nat.

Definition hexDigit (n : nat) : ascii :=
  if (n <? 10)%nat then ascii_of_nat (48 + n) else ascii_of_nat (55 + n).

Definition percentByte (n : nat) : string :=
  String "%" (String (hexDigit (n / 16)) (String (hexDigit (n mod 16)) EmptyString)).

(** A code unit from U+0080 on is written as the two bytes of its UTF-8
    form. *)
Definition formEncodeChar (c : ascii) : string :=
  let n := nat_of_ascii c in
  if formSafe c then String c EmptyString
  else if (n =? 32)%nat then "+"
  else if (n <? 128)%nat then percentByte n
  else percentByte (192 + n / 64) +:+ percentByte (128 + n mod 64).

Fixpoint formEncode (s : string) : string :=
  match s with
  | EmptyString => EmptyString
  | String c s' => formEncodeChar c +:+ formEncode s'
  end.

Definition serialize (l : list (string * string)) : string :=
  Js.join "&" (map (fun p => formEncode (fst p) +:+ "=" +:+ formEncode (snd p)) l).

(** The update steps of [searchParams]: the URL's query becomes the
    serialization of the list, or null when that is empty. *)
Definition withParams (u : URL) (l : list (string * string)) : URL :=
  {| base := base u;
     query := (let q := serialize l in
               if String.eqb q "" then None else Some q);
     params := l;
     hash := hash u |}.

(** [URL.prototype.toString()]. *)
Definition href (u : URL) : string :=
  base u +:+
  match query u with
  | Some q => "?" +:+ q
  | None => ""
  end +:+ hash u.

End Url.

Definition REDACTED : string := "[REDACTED]".

(** One turn of the [forEach] over [sensitiveParams]. *)
Definition redactParam (urlObj : Url.URL) (param : string) : Url.URL :=
  if Url.has (Url.params urlObj) param
  then Url.withParams urlObj (Url.set (Url.params urlObj) param REDACTED)
  else urlObj.

(** [sanitizeUrl].  [parseURL] is the platform's
    [new URL(url, window.location.origin)]; [None] is the [TypeError] it
    throws, which the [catch] turns into the input. *)
Definition sanitizeUrl (parseURL : string -> option Url.URL)
    (opts : CaptureOptions) (url : string) : string :=
  match parseURL url with
  | Some urlObj => Url.href (fold_left redactParam (sensitiveParams opts) urlObj)
  | None => url
  end.

(** The [forEach] of [sanitizeUrl] seen on the parameter list alone. *)
Definition redactList (sensitive : list string) (l : list (string * string))
  : list (string * string) :=
  fold_left (fun acc param =>
               if Url.has acc param then Url.set acc param REDACTED else acc)
            sensitive l.

(** The matching rule the specification words: a query key is sensitive
    when, ignoring case, it contains a configured parameter. *)
Definition substringMatch (opts : CaptureOptions) (key : string) : bool :=
  existsb (fun param => Js.includes (Js.toLowerCase key) (Js.toLowerCase param))
          (sensitiveParams opts).

(** *** A URL parser for http(s) URLs

    The platform parser itself is not part of the repository.  This one
    covers absolute [http://] and [https://] URLs with a non-empty host, which
    is enough to run [sanitizeUrl] on the inputs used below; it rejects
    everything else. *)

Module SimpleUrl.

(** Split at the first occurrence of [c]. *)
Fixpoint splitAt (c : ascii) (s : string) : string * option string :=
  match s with
  | EmptyString => (EmptyString, None)
  | String a s' =>
      if Ascii.eqb a c then (EmptyString, Some s')
      else let (l, r) := splitAt c s' in (String a l, r)
  end.

Fixpoint splitAll (fuel : nat) (c : ascii) (s : string) : list string :=
  match fuel with
  | O => [s]
  | S fuel' =>
      match splitAt c s with
      | (l, Some r) => l :: splitAll fuel' c r
      | (l, None) => [l]
      end
  end.

Definition hexValue (c : ascii) : option nat :=
  let n := nat_of_ascii c in
  if ((48 <=? n) && (n <=? 57))%nat then Some (n - 48)%nat
  else if ((65 <=? n) && (n <=? 70))%nat then Some (n - 55)%nat
  else if ((97 <=? n) && (n <=? 102))%nat then Some (n - 87)%nat
  else None.

(** Form decoding: [+] is a space, [%XX] a byte. *)
Fixpoint formDecode (s : string) : string :=
  match s with
  | EmptyString => EmptyString
  | String c s' =>
      if Ascii.eqb c "+" then String " " (formDecode s')
      else if Ascii.eqb c "%" then
        match s' with
        | String h (String l s'') =>
            match hexValue h, hexValue l with
            | Some hv, Some lv =>
                String (ascii_of_nat (16 * hv + lv)) (formDecode s'')
            | _, _ => String c (formDecode s')
            end
        | _ => String c (formDecode s')
        end
      else String c (formDecode s')
  end.

Definition parsePair (s : string) : string * string :=
  match splitAt "=" s with
  | (k, Some v) => (formDecode k, formDecode v)
  | (k, None) => (formDecode k, "")
  end.

Definition parseQuery (q : string) : list (string * string) :=
  map parsePair
    (List.filter (fun s => negb (String.eqb s ""))
       (splitAll (String.length q) "&" q)).

Definition afterScheme (s : string) : option (string * string) :=
  if String.prefix "https://" s
  then Some ("https://", String.substring 8 (String.length s - 8) s)
  else if String.prefix "http://" s
  then Some ("http://", String.substring 7 (String.length s - 7) s)
  else None.

Definition parse (url : string) : option Url.URL :=
  let (beforeHash, fragment) := splitAt "#" url in
  let (beforeQuery, q) := splitAt "?" beforeHash in
  match afterScheme beforeQuery with
  | None => None
  | Some (scheme, rest) =>
      let (host, path) := splitAt "/" rest in
      if String.eqb host "" then None
      else
        Some {| Url.base := scheme +:+ host +:+ "/" +:+ default "" path;
                Url.query := q;
                Url.params := parseQuery (default "" q);
                Url.hash := match fragment with
                            | Some f => if String.eqb f "" then "" else "#" +:+ f
                            | None => ""
                            end |}
  end.

End SimpleUrl.

(** ** Redaction: headers *)

(** [isSensitiveHeader]: the two fixed names are compared inside the
    callback given to [some], once per configured parameter. *)
Definition isSensitiveHeader (opts : CaptureOptions) (name : string) : bool :=
  let lowerName := Js.toLowerCase name in
  existsb (fun param =>
             Js.includes lowerName (Js.toLowerCase param) ||
             String.eqb lowerName "authorization" ||
             String.eqb lowerName "cookie")
          (sensitiveParams opts).

(** What [extractHeaders] can be given: a [Headers] object, seen through the
    (key, value) pairs its [forEach] visits, or a plain object, seen through
    [Object.entries], where a value that is not a string is [None]. *)
Inductive HeadersInit :=
| HeadersObject (entries : list (string * string))
| PlainObject (entries : list (string * option string)).

(** [headersToObject]. *)
Definition headersToObject (opts : CaptureOptions)
    (headers : list (string * string)) : gmap string string :=
  fold_left (fun result kv =>
               if isSensitiveHeader opts (fst kv) then result
               else <[fst kv := snd kv]> result)
            headers ∅.

Definition plainToObject (opts : CaptureOptions)
    (entries : list (string * option string)) : gmap string string :=
  fold_left (fun result kv =>
               match snd kv with
               | Some value =>
                   if isSensitiveHeader opts (fst kv) then result
                   else <[fst kv := value]> result
               | None => result
               end)
            entries ∅.

Definition nonEmptyOrUndefined (result : gmap string string)
  : option (gmap string string) :=
  if decide (result = ∅) then None else Some result.

(** [extractHeaders]. *)
Definition extractHeaders (opts : CaptureOptions) (headers : option HeadersInit)
  : option (gmap string string) :=
  match headers with
  | None => None
  | Some (HeadersObject entries) =>
      nonEmptyOrUndefined (headersToObject opts entries)
  | Some (PlainObject entries) =>
      nonEmptyOrUndefined (plainToObject opts entries)
  end.

(** [getXHRResponseHeaders], given each line of [getAllResponseHeaders()]
    already split at [': ']: the key and the remaining parts. *)
Definition getXHRResponseHeaders (opts : CaptureOptions)
    (lines : option (list (string * list string))) : option (gmap string string) :=
  match lines with
  | None => None
  | Some lines =>
      nonEmptyOrUndefined
        (fold_left (fun result line =>
                      if negb (String.eqb (fst line) "") &&
                         negb (Nat.eqb (length (snd line)) 0) &&
                         negb (isSensitiveHeader opts (fst line))
                      then <[fst line := Js.join ": " (snd line)]> result
                      else result)
                   lines ∅)
  end.

(** ** Network interceptor: the wrapper installed over [window.fetch] *)

(** The body of a response as [response.json()] sees it; the fields are the
    ones the destination adapters read. *)
Record JsonBody := {
  j_success : bool;
  j_error : option string;
  j_message : option string;
  j_issueId : option string;
  j_issueUrl : option string;
  j_id : option string;
  j_ticket_id : option string;
  j_url : option string;
  j_link : option string
}.

Definition emptyJson : JsonBody := {|
  j_success := false; j_error := None; j_message := None; j_issueId := None;
  j_issueUrl := None; j_id := None; j_ticket_id := None; j_url := None;
  j_link := None
|}.

(** How [response.json()] settles: an object, the value [null], or a
    rejection because the body is not JSON. *)
Inductive JsonResult :=
| JsonObject (body : JsonBody)
| JsonNull
| JsonRejects (error : Js.Thrown).

(** A platform [Response]. *)
Record Response := {
  resp_status : Z;
  resp_statusText : string;
  resp_headers : list (string * string);
  resp_json : JsonResult
}.

Definition resp_ok (r : Response) : bool :=
  (200 <=? resp_status r) && (resp_status r <=? 299).

(** How a call of the underlying [fetch] settles. *)
Inductive FetchOutcome :=
| Resolves (response : Response)
| Rejects (error : Js.Thrown).

Record Request := {
  req_url : string;
  req_method : string;
  req_headers : list (string * string)
}.

Inductive RequestInfo :=
| InfoString (url : string)
| InfoRequest (request : Request)
| InfoOther (shown : string).

Record RequestInit := {
  init_method : option string;
  init_headers : option HeadersInit
}.

Definition setLastIndex (p : Pattern) (i : nat) : Pattern :=
  {| pat_exec := pat_exec p; pat_stateful := pat_stateful p; pat_lastIndex := i |}.

(** [pattern.test(url)]: the answer and the pattern afterwards.  A stateful
    pattern whose [lastIndex] lies beyond the text fails and starts over; a
    match leaves [lastIndex] just after it, a failure puts it back to 0. *)
Definition test (p : Pattern) (url : string) : bool * Pattern :=
  if pat_stateful p then
    if (String.length url <? pat_lastIndex p)%nat then (false, setLastIndex p 0)
    else
      match pat_exec p (pat_lastIndex p) url with
      | Some after => (true, setLastIndex p after)
      | None => (false, setLastIndex p 0)
      end
  else
    (match pat_exec p 0 url with Some _ => true | None => false end, p).

(** [patterns.some(pattern => pattern.test(url))]: the patterns after the
    first one that matches are not tested. *)
Fixpoint someTest (patterns : list Pattern) (url : string)
  : bool * list Pattern :=
  match patterns with
  | [] => (false, [])
  | p :: rest =>
      if fst (test p url) then (true, snd (test p url) :: rest)
      else (fst (someTest rest url), snd (test p url) :: snd (someTest rest url))
  end.

Definition withPatterns (opts : CaptureOptions) (patterns : list Pattern)
  : CaptureOptions :=
  {| maxConsoleLogs := maxConsoleLogs opts;
     maxNetworkRequests := maxNetworkRequests opts;
     sensitiveParams := sensitiveParams opts;
     excludeUrls := patterns;
     includeRequestHeaders := includeRequestHeaders opts;
     includeResponseHeaders := includeResponseHeaders opts |}.

(** [shouldExcludeUrl]: the answer, and the options with the patterns as the
    call leaves them. *)
Definition shouldExcludeUrl (opts : CaptureOptions) (url : string)
  : bool * CaptureOptions :=
  (fst (someTest (excludeUrls opts) url),
   withPatterns opts (snd (someTest (excludeUrls opts) url))).

(** [headers.get(name)] on the pairs of a [Headers] object. *)
Definition headersGet (headers : list (string * string)) (name : string)
  : option string :=
  snd <$> List.find (fun kv => String.eqb (Js.toLowerCase (fst kv)) name) headers.

Definition isDigit (c : ascii) : bool :=
  let n := nat_of_ascii c in ((48 <=? n) && (n <=? 57))%nat.

Fixpoint digitsValue (acc : option Z) (s : string) : option Z :=
  match s with
  | EmptyString => acc
  | String c s' =>
      if isDigit c
      then digitsValue (Some (10 * default 0 acc + Z.of_nat (nat_of_ascii c - 48))) s'
      else acc
  end.

(** [parseInt(s, 10)] on a string without leading white space. *)
Definition parseInt (s : string) : JsNum :=
  match s with
  | String "-" s' =>
      match digitsValue None s' with Some z => Num (- z) | None => NaN end
  | String "+" s' =>
      match digitsValue None s' with Some z => Num z | None => NaN end
  | _ => match digitsValue None s with Some z => Num z | None => NaN end
  end.

Definition getResponseSize (response : Response) : option JsNum :=
  match headersGet (resp_headers response) "content-length" with
  | Some contentLength =>
      if String.eqb contentLength "" then None else Some (parseInt contentLength)
  | None => None
  end.

Definition inputUrl (input : RequestInfo) : string :=
  match input with
  | InfoString url => url
  | InfoRequest request => req_url request
  | InfoOther shown => shown
  end.

Definition inputMethod (input : RequestInfo) (init : option RequestInit) : string :=
  Js.or_default (init ≫= init_method)
    (match input with
     | InfoRequest request => req_method request
     | _ => "GET"
     end).

Definition inputHeaders (input : RequestInfo) (init : option RequestInit)
  : option HeadersInit :=
  match init ≫= init_headers with
  | Some h => Some h
  | None =>
      match input with
      | InfoRequest request => Some (HeadersObject (req_headers request))
      | _ => None
      end
  end.

Definition thrownMessage (fallback : string) (error : Js.Thrown) : string :=
  match error with
  | Js.ThrownError message => message
  | Js.ThrownValue _ => fallback
  end.

(** The session once [shouldExcludeUrl] has looked at [url]. *)
Definition afterTest (self : Capture) (url : string) : Capture :=
  updateOptions self (snd (shouldExcludeUrl (options self) url)).

(** The wrapper: [startTime] and [endTime] are the two readings of
    [Date.now()], [outcome] is how [originalFetch] settles for these
    arguments.  The result is the session afterwards and how the wrapper's
    own promise settles. *)
Definition fetchWrapper (parseURL : string -> option Url.URL)
    (self : Capture) (startTime endTime : Z)
    (input : RequestInfo) (init : option RequestInit)
    (outcome : FetchOutcome) : Capture * FetchOutcome :=
  let url := inputUrl input in
  let method := inputMethod input init in
  let tested := afterTest self url in
  if fst (shouldExcludeUrl (options self) url) then (tested, outcome)
  else
    let requestHeaders :=
      if includeRequestHeaders (options tested)
      then extractHeaders (options tested) (inputHeaders input init)
      else None in
    match outcome with
    | Resolves response =>
        let responseHeaders :=
          if includeResponseHeaders (options tested)
          then Some (headersToObject (options tested) (resp_headers response))
          else None in
        (addNetworkRequest tested
           {| net_timestamp := startTime;
              net_method := method;
              net_url := sanitizeUrl parseURL (options tested) url;
              net_status := Some (resp_status response);
              net_duration := Some (endTime - startTime);
              net_size := getResponseSize response;
              net_requestHeaders := requestHeaders;
              net_responseHeaders := responseHeaders;
              net_error := None |},
         Resolves response)
    | Rejects error =>
        (addNetworkRequest tested
           {| net_timestamp := startTime;
              net_method := method;
              net_url := sanitizeUrl parseURL (options tested) url;
              net_status := Some 0;
              net_duration := Some (endTime - startTime);
              net_size := None;
              net_requestHeaders := requestHeaders;
              net_responseHeaders := None;
              net_error := Some (thrownMessage "Network error" error) |},
         Rejects error)
    end.

(** ** Screenshot acquisition ([captureScreenshot]) *)

Module Screenshot.

(** An element of the document: the selectors it matches and its inline
    [style.display].  An element is identified by its position in the
    document. *)
Record Element := {
  el_selectors : list string;
  el_display : string
}.

Definition defaultExcludeSelectors : list string :=
  ["[data-private]"; "[data-bug-reporter-hide]"; "[data-bug-reporter-widget]";
   ".br-bug-reporter"; ".bug-reporter-popup"].

Definition matchesAny (sels : list string) (e : Element) : bool :=
  existsb (fun s => existsb (String.eqb s) (el_selectors e)) sels.

(** [document.querySelectorAll(excludeSelectors.join(', '))], as the
    positions of the matching elements in document order. *)
Definition querySelectorAll (sels : list string) (doc : list Element)
  : list nat :=
  List.filter (fun i => match doc !! i with
                        | Some e => matchesAny sels e
                        | None => false
                        end)
              (seq 0 (length doc)).

Definition withDisplay (v : string) (e : Element) : Element :=
  {| el_selectors := el_selectors e; el_display := v |}.

(** [el.style.display = v] on the element at position [i]. *)
Definition setDisplay (doc : list Element) (i : nat) (v : string)
  : list Element :=
  alter (withDisplay v) i doc.

Definition getDisplay (doc : list Element) (i : nat) : string :=
  match doc !! i with
  | Some e => el_display e
  | None => ""
  end.

(** The first [forEach]: remember, then hide. *)
Definition hideStep (st : list Element * gmap nat string) (i : nat)
  : list Element * gmap nat string :=
  (setDisplay (fst st) i "none", <[i := getDisplay (fst st) i]> (snd st)).

Definition hideAll (els : list nat) (doc : list Element)
  : list Element * gmap nat string :=
  fold_left hideStep els (doc, ∅).

(** The second [forEach]: [originalStyles.get(el) || '']. *)
Definition restoreAll (els : list nat) (originalStyles : gmap nat string)
    (doc : list Element) : list Element :=
  fold_left (fun d i => setDisplay d i (Js.or_default (originalStyles !! i) ""))
            els doc.

(** The canvas [html2canvas] resolves to: what [toDataURL] gives for a
    MIME type, or what it throws. *)
Record Canvas := { toDataURL : string -> string + Js.Thrown }.

Inductive RasterOutcome :=
| RasterResolves (canvas : Canvas)
| RasterRejects (error : Js.Thrown).

Record Options := {
  excludeSelectors : option (list string);
  format : option string
}.

(** What one call did: the value returned, the document as the call
    leaves it, and the error its [catch] was given, if it ran. *)
Record Run := {
  returned : option string;
  document : list Element;
  caught : option Js.Thrown
}.

(** The body of [captureScreenshot].  [hasDocument] is the guard on
    [window] and [document]; [selectorError] is the platform's verdict on
    the text given to [querySelectorAll], the error it throws for a text
    that is not a selector list and nothing for one that is, in which case
    an element is found when it matches one of the parts; [raster] is how
    [html2canvas] settles on the document with the elements hidden. *)
Definition run (selectorError : string -> option Js.Thrown)
    (hasDocument : bool) (doc : list Element)
    (options : option Options) (raster : list Element -> RasterOutcome)
  : Run :=
  if negb hasDocument
  then {| returned := None; document := doc; caught := None |}
  else
    let sels := defaultExcludeSelectors ++
                default [] (options ≫= excludeSelectors) in
    match selectorError (Js.join ", " sels) with
    | Some error =>
        {| returned := None; document := doc; caught := Some error |}
    | None =>
        let elementsToHide := querySelectorAll sels doc in
        let '(hidden, originalStyles) := hideAll elementsToHide doc in
        match raster hidden with
        | RasterResolves canvas =>
            let restored := restoreAll elementsToHide originalStyles hidden in
            let format := Js.or_default (options ≫= format) "png" in
            match toDataURL canvas ("image/" +:+ format) with
            | inl dataUrl =>
                {| returned := Some dataUrl; document := restored;
                   caught := None |}
            | inr error =>
                {| returned := None; document := restored;
                   caught := Some error |}
            end
        | RasterRejects error =>
            {| returned := None; document := hidden; caught := Some error |}
        end
    end.

(** [captureScreenshot], as far as the returned value and the document
    go. *)
Definition captureScreenshot (selectorError : string -> option Js.Thrown)
    (hasDocument : bool) (doc : list Element)
    (options : option Options) (raster : list Element -> RasterOutcome)
  : option string * list Element :=
  let r := run selectorError hasDocument doc options raster in
  (returned r, document r).

End Screenshot.

(** What the console wrapper needs from the world when the [catch] of
    [captureScreenshot] calls
    [console.error('Failed to capture screenshot:', error)]: the reading of
    [Date.now()], how the serialised error reads inside [join(' ')]
    (['[object Object]'] for an [Error], which [serializeArg] turns into an
    object), and what [getCallerInfo()] finds on the stack. *)
Record ConsoleCall := {
  call_now : Z;
  call_shown : string;
  call_source : string
}.

(** The entry the wrapper over [console.error] records for that call. *)
Definition screenshotFailureLog (call : ConsoleCall) : ConsoleLogEntry :=
  {| log_timestamp := call_now call;
     log_level := LvError;
     log_message := Js.join " " ["Failed to capture screenshot:"; call_shown call];
     log_args := ["Failed to capture screenshot:"; call_shown call];
     log_source := Some (call_source call) |}.

(** [captureScreenshot] on the session: when its [catch] runs while the
    session is capturing, [console.error] is the session's own wrapper,
    which records an entry before it calls the host's method. *)
Definition logScreenshotFailure (self : Capture) (call : ConsoleCall)
    (r : Screenshot.Run) : Capture :=
  match Screenshot.caught r with
  | Some _ => if isCapturing self
              then addConsoleLog self (screenshotFailureLog call)
              else self
  | None => self
  end.

Definition captureScreenshot (selectorError : string -> option Js.Thrown)
    (self : Capture) (call : ConsoleCall)
    (hasDocument : bool) (doc : list Screenshot.Element)
    (options : option Screenshot.Options)
    (raster : list Screenshot.Element -> Screenshot.RasterOutcome)
  : option string * list Screenshot.Element * Capture :=
  let r := Screenshot.run selectorError hasDocument doc options raster in
  (Screenshot.returned r, Screenshot.document r, logScreenshotFailure self call r).

(** ** Arrays and entries as shared objects

    The buffers are JavaScript arrays of entry objects: [push] changes an
    array in place, [slice] and the spread [[...a]] build a new array that
    holds the same objects, and a caller that was handed an array can change
    it.  Here the arrays and the entries live in a store; an array holds
    references to entries and the session holds references to its two
    arrays. *)

Module Aliasing.

Definition loc := nat.

Inductive Cell :=
| LogArray (items : list loc)
| NetArray (items : list loc)
| LogObject (entry : ConsoleLogEntry)
| NetObject (request : NetworkRequestEntry).

Record CaptureRef := {
  consoleLogsRef : loc;
  networkRequestsRef : loc;
  optionsOf : CaptureOptions
}.

Definition alloc (h : gmap loc Cell) (a : Cell) : loc * gmap loc Cell :=
  let l := fresh (dom h) in (l, <[l := a]> h).

(** The references an array holds. *)
Definition readLogs (h : gmap loc Cell) (l : loc) : list loc :=
  match h !! l with
  | Some (LogArray items) => items
  | _ => []
  end.

Definition readNet (h : gmap loc Cell) (l : loc) : list loc :=
  match h !! l with
  | Some (NetArray items) => items
  | _ => []
  end.

Definition logAt (h : gmap loc Cell) (r : loc) : option ConsoleLogEntry :=
  match h !! r with
  | Some (LogObject entry) => Some entry
  | _ => None
  end.

Definition netAt (h : gmap loc Cell) (r : loc) : option NetworkRequestEntry :=
  match h !! r with
  | Some (NetObject request) => Some request
  | _ => None
  end.

(** The entries an array shows to who reads it. *)
Definition logValues (h : gmap loc Cell) (l : loc) : list ConsoleLogEntry :=
  omap (logAt h) (readLogs h l).

Definition netValues (h : gmap loc Cell) (l : loc) : list NetworkRequestEntry :=
  omap (netAt h) (readNet h l).

(** The constructor's two field initialisers. *)
Definition newCapture (o : CaptureOptions) (h : gmap loc Cell)
  : CaptureRef * gmap loc Cell :=
  let '(l1, h1) := alloc h (LogArray []) in
  let '(l2, h2) := alloc h1 (NetArray []) in
  ({| consoleLogsRef := l1; networkRequestsRef := l2; optionsOf := o |}, h2).

(** [addConsoleLog] and [addNetworkRequest], given the entry object. *)
Definition addConsoleLog (c : CaptureRef) (entry : loc)
    (h : gmap loc Cell) : CaptureRef * gmap loc Cell :=
  let pushed := readLogs h (consoleLogsRef c) ++ [entry] in
  let h1 := <[consoleLogsRef c := LogArray pushed]> h in
  let max := maxConsoleLogs (optionsOf c) in
  if max <? Z.of_nat (length pushed) then
    let '(l, h2) := alloc h1 (LogArray (Js.slice (- max) pushed)) in
    ({| consoleLogsRef := l; networkRequestsRef := networkRequestsRef c;
        optionsOf := optionsOf c |}, h2)
  else (c, h1).

Definition addNetworkRequest (c : CaptureRef) (request : loc)
    (h : gmap loc Cell) : CaptureRef * gmap loc Cell :=
  let pushed := readNet h (networkRequestsRef c) ++ [request] in
  let h1 := <[networkRequestsRef c := NetArray pushed]> h in
  let max := maxNetworkRequests (optionsOf c) in
  if max <? Z.of_nat (length pushed) then
    let '(l, h2) := alloc h1 (NetArray (Js.slice (- max) pushed)) in
    ({| consoleLogsRef := consoleLogsRef c; networkRequestsRef := l;
        optionsOf := optionsOf c |}, h2)
  else (c, h1).

(** What the interceptors do: build the entry, a new object, and hand it
    to the method. *)
Definition logEntry (c : CaptureRef) (entry : ConsoleLogEntry)
    (h : gmap loc Cell) : CaptureRef * gmap loc Cell :=
  let '(r, h1) := alloc h (LogObject entry) in addConsoleLog c r h1.

Definition recordRequest (c : CaptureRef) (request : NetworkRequestEntry)
    (h : gmap loc Cell) : CaptureRef * gmap loc Cell :=
  let '(r, h1) := alloc h (NetObject request) in addNetworkRequest c r h1.

Definition clearLogs (c : CaptureRef) (h : gmap loc Cell)
  : CaptureRef * gmap loc Cell :=
  let '(l1, h1) := alloc h (LogArray []) in
  let '(l2, h2) := alloc h1 (NetArray []) in
  ({| consoleLogsRef := l1; networkRequestsRef := l2;
      optionsOf := optionsOf c |}, h2).

Definition updateOptions (c : CaptureRef) (o : CaptureOptions) : CaptureRef :=
  {| consoleLogsRef := consoleLogsRef c;
     networkRequestsRef := networkRequestsRef c; optionsOf := o |}.

(** [getConsoleLogs] and [getNetworkRequests]: [[...this.buffer]]. *)
Definition getConsoleLogs (c : CaptureRef) (h : gmap loc Cell)
  : loc * gmap loc Cell :=
  alloc h (LogArray (readLogs h (consoleLogsRef c))).

Definition getNetworkRequests (c : CaptureRef) (h : gmap loc Cell)
  : loc * gmap loc Cell :=
  alloc h (NetArray (readNet h (networkRequestsRef c))).

(** The two array-valued fields of the report, and what the caller's
    [additionalData] may put in their place. *)
Record ReportRef := {
  rep_consoleLogs : loc;
  rep_networkRequests : loc
}.

Record AdditionalData := {
  ad_consoleLogs : option loc;
  ad_networkRequests : option loc
}.

(** [captureReport], as far as the buffers go.  The screenshot comes
    first: [failureLog] is the entry the session's wrapper over
    [console.error] records when [captureScreenshot] fails while the
    session is capturing, and nothing otherwise.  Then both spreads are
    evaluated and [...additionalData] overrides the fields it has.  The
    result is the report, the session and the store afterwards. *)
Definition captureReport (c : CaptureRef)
    (failureLog : option ConsoleLogEntry)
    (additionalData : option AdditionalData)
    (h : gmap loc Cell) : ReportRef * CaptureRef * gmap loc Cell :=
  let '(c0, h0) := match failureLog with
                   | Some entry => logEntry c entry h
                   | None => (c, h)
                   end in
  let '(l1, h1) := alloc h0 (LogArray (readLogs h0 (consoleLogsRef c0))) in
  let '(l2, h2) := alloc h1 (NetArray (readNet h1 (networkRequestsRef c0))) in
  ({| rep_consoleLogs := default l1 (additionalData ≫= ad_consoleLogs);
      rep_networkRequests := default l2 (additionalData ≫= ad_networkRequests) |},
   c0, h2).

(** What the session does between two observations. *)
Inductive Op :=
| OpLog (entry : ConsoleLogEntry)
| OpNet (request : NetworkRequestEntry)
| OpClear
| OpUpdateOptions (o : CaptureOptions).

Definition step (st : CaptureRef * gmap loc Cell) (op : Op)
  : CaptureRef * gmap loc Cell :=
  match op with
  | OpLog entry => logEntry (fst st) entry (snd st)
  | OpNet request => recordRequest (fst st) request (snd st)
  | OpClear => clearLogs (fst st) (snd st)
  | OpUpdateOptions o => (updateOptions (fst st) o, snd st)
  end.

Definition run (ops : list Op) (st : CaptureRef * gmap loc Cell)
  : CaptureRef * gmap loc Cell :=
  fold_left step ops st.

(** An in-place change of the object at [l], an array or an entry, by
    whoever holds [l]. *)
Definition mutate (h : gmap loc Cell) (l : loc) (a : Cell) : gmap loc Cell :=
  <[l := a]> h.

End Aliasing.

(** The same operations on the value-level session. *)
Definition stepPure (c : Capture) (op : Aliasing.Op) : Capture :=
  match op with
  | Aliasing.OpLog entry => addConsoleLog c entry
  | Aliasing.OpNet request => addNetworkRequest c request
  | Aliasing.OpClear => clearLogs c
  | Aliasing.OpUpdateOptions o => updateOptions c o
  end.


(** ** The report ([BugReportData]) *)

Record AttachedFile := {
  file_id : string;
  file_name : string;
  file_url : string;
  file_type : string;
  file_size : Z;
  file_thumbnailUrl : option string
}.

Inductive Priority := Low | Medium | High | Urgent.

Record BugReportData := {
  timestamp : Z;
  url : string;
  userAgent : string;
  viewportWidth : Z;
  viewportHeight : Z;
  reportConsoleLogs : list ConsoleLogEntry;
  reportNetworkRequests : list NetworkRequestEntry;
  screenshot : option string;
  userId : option string;
  userEmail : option string;
  title : option string;
  description : option string;
  additionalFiles : option (list AttachedFile);
  tags : option (list string);
  priority : option Priority;
  category : option string;
  reproductionSteps : option (list string);
  expectedBehavior : option string;
  actualBehavior : option string
}.

(** [Partial<BugReportData>]: a field that is [None] is absent from the
    object.  For [screenshot], which may be present and [undefined], the
    outer option says whether the key is there. *)
Record PartialReport := {
  p_timestamp : option Z;
  p_url : option string;
  p_userAgent : option string;
  p_viewport : option (Z * Z);
  p_consoleLogs : option (list ConsoleLogEntry);
  p_networkRequests : option (list NetworkRequestEntry);
  p_screenshot : option (option string);
  p_userId : option string;
  p_userEmail : option string;
  p_title : option string;
  p_description : option string;
  p_additionalFiles : option (list AttachedFile);
  p_tags : option (list string);
  p_priority : option Priority;
  p_category : option string;
  p_reproductionSteps : option (list string);
  p_expectedBehavior : option string;
  p_actualBehavior : option string
}.

Definition emptyPartial : PartialReport := {|
  p_timestamp := None; p_url := None; p_userAgent := None; p_viewport := None;
  p_consoleLogs := None; p_networkRequests := None; p_screenshot := None;
  p_userId := None; p_userEmail := None; p_title := None;
  p_description := None; p_additionalFiles := None; p_tags := None;
  p_priority := None; p_category := None; p_reproductionSteps := None;
  p_expectedBehavior := None; p_actualBehavior := None
|}.

(** ** Destination adapters ([BaseIntegration], [WebhookIntegration]) *)

Record SubmissionResponse := {
  success : bool;
  issueId : option string;
  issueUrl : option string;
  message : option string;
  error : option string
}.

Definition failure (msg : string) : SubmissionResponse :=
  {| success := false; issueId := None; issueUrl := None; message := None;
     error := Some msg |}.

(** What an adapter does to the outside world, in order. *)
Inductive Event :=
| EvFetch (url : string)
| EvSleep (ms : Z).

Definition httpError (response : Response) : string :=
  "HTTP " +:+ pretty (resp_status response) +:+ ": " +:+ resp_statusText response.

(** The message of [error instanceof Error ? error : new Error(String(error))]. *)
Definition asErrorMessage (error : Js.Thrown) : string :=
  match error with
  | Js.ThrownError m => m
  | Js.ThrownValue shown => shown
  end.

(** The [for] loop of [makeRequest]: [n] iterations remain, [i] is the loop
    counter, [net i] is how the [i]-th call of [fetch] settles.  Both a
    response that is not [ok] and a rejected [fetch] end in the [catch]. *)
Fixpoint makeRequestLoop (net : nat -> FetchOutcome) (url : string)
    (retries n i : nat) (lastError : option string) (trace : list Event)
  : (Response + string) * list Event :=
  match n with
  | O => (inr (default "Request failed after retries" lastError), trace)
  | S n' =>
      let trace1 := trace ++ [EvFetch url] in
      let caught (msg : string) :=
        let trace2 :=
          if (i <? retries - 1)%nat
          then trace1 ++ [EvSleep (2 ^ Z.of_nat i * 1000)]
          else trace1 in
        makeRequestLoop net url retries n' (S i) (Some msg) trace2 in
      match net i with
      | Resolves response =>
          if resp_ok response then (inl response, trace1)
          else caught (httpError response)
      | Rejects error => caught (asErrorMessage error)
      end
  end.

Definition makeRequest (net : nat -> FetchOutcome) (url : string) (retries : nat)
  : (Response + string) * list Event :=
  makeRequestLoop net url retries retries 0 None [].

(** The message of the [TypeError] raised by reading a property of [null]. *)
Definition nullAccessMessage (field : string) : string :=
  "Cannot read properties of null (reading '" +:+ field +:+ "')".

Fixpoint firstTruthy (l : list (option string)) : option string :=
  match l with
  | [] => None
  | x :: rest => if Js.truthy x then x else firstTruthy rest
  end.

(** The webhook adapter's default payload. *)
Record WebhookPayload := {
  wp_event : string;
  wp_timestamp : Z;
  wp_title : option string;
  wp_description : option string;
  wp_url : string;
  wp_userAgent : string;
  wp_viewport : Z * Z;
  wp_userId : option string;
  wp_userEmail : option string;
  wp_priority : option Priority;
  wp_category : option string;
  wp_tags : option (list string);
  wp_reproductionSteps : option (list string);
  wp_expectedBehavior : option string;
  wp_actualBehavior : option string;
  wp_screenshot : option string;
  wp_additionalFiles : option (list AttachedFile);
  wp_consoleLogs : list ConsoleLogEntry;
  wp_networkRequests : list NetworkRequestEntry
}.

(** What the adapters hand to [JSON.stringify]: the report itself (the
    relay) or the webhook's default payload. *)
Inductive JsonInput :=
| ReportBody (data : BugReportData)
| PayloadBody (payload : WebhookPayload).

(** The platform functions the adapters call before any request is made.
    [stringify] is [JSON.stringify], which throws on a value that holds a
    [BigInt] or a cycle (the raw console arguments of a report may);
    [btoa] throws on a character above U+00FF; [toISOString] is
    [new Date(t).toISOString()], which throws a [RangeError] when [t] is
    not a time value. *)
Record Platform := {
  stringify : JsonInput -> string + Js.Thrown;
  btoa : string -> string + Js.Thrown;
  toISOString : Z -> string + Js.Thrown
}.

(** What [submitViaProxy] makes of the outcome of [makeRequest]. *)
Definition proxyAnswer (r : (Response + string) * list Event)
  : SubmissionResponse * list Event :=
  match r with
  | (inl response, trace) =>
      match resp_json response with
      | JsonObject result =>
          if negb (j_success result)
          then (failure (Js.or_default (j_error result)
                           "Proxy endpoint returned error"), trace)
          else ({| success := true;
                   issueId := j_issueId result;
                   issueUrl := j_issueUrl result;
                   message := Some (Js.or_default (j_message result)
                                      "Report submitted successfully");
                   error := None |}, trace)
      | JsonNull => (failure (nullAccessMessage "success"), trace)
      | JsonRejects e =>
          (failure (thrownMessage "Failed to submit via proxy" e), trace)
      end
  | (inr msg, trace) => (failure msg, trace)
  end.

(** [submitViaProxy]: the body is built first, inside the [try]. *)
Definition submitViaProxy (platform : Platform) (net : nat -> FetchOutcome)
    (data : BugReportData) (endpoint : string)
  : SubmissionResponse * list Event :=
  match stringify platform (ReportBody data) with
  | inr error => (failure (thrownMessage "Failed to submit via proxy" error), [])
  | inl _ => proxyAnswer (makeRequest net endpoint 3)
  end.

Module Webhook.

Inductive AuthType := Bearer | Basic | ApiKey | OtherAuth.

Record Auth := {
  auth_type : AuthType;
  auth_token : string;
  auth_header : option string
}.

(** What [config.transformPayload] does with a report: it throws, or it
    returns a value, seen here through what [JSON.stringify] makes of
    it. *)
Inductive Transformed :=
| TransformThrows (error : Js.Thrown)
| TransformReturns (json : string + Js.Thrown).

(** The fields of a configuration that is not in proxy mode: [url] when
    it is a string, [method], [retries] (a whole number when it is given),
    the entries of [headers], [auth] and [transformPayload]. *)
Record Direct := {
  d_url : option string;
  d_method : option string;
  d_retries : option Z;
  d_headers : list (string * string);
  d_auth : option Auth;
  d_transformPayload : option (BugReportData -> Transformed)
}.

(** A webhook configuration: [mode === 'proxy'] with whatever [endpoint]
    holds when it is a string, or anything else. *)
Inductive Config :=
| ProxyMode (endpoint : option string)
| DirectMode (d : Direct).

(** The white space of [trim()] and of the class [\s] among the code
    units below 256: tab, line feed, vertical tab, form feed, carriage
    return, space and the no-break space U+00A0. *)
Definition isSpace (c : ascii) : bool :=
  let n := nat_of_ascii c in
  ((n =? 32) || ((9 <=? n) && (n <=? 13)) || (n =? 160))%nat.

Fixpoint isBlank (s : string) : bool :=
  match s with
  | EmptyString => true
  | String c s' => isSpace c && isBlank s'
  end.

Definition validateProxyConfig (config : Config) : bool :=
  match config with
  | ProxyMode (Some endpoint) => negb (isBlank endpoint)
  | _ => false
  end.

(** [validateConfig]; [isValidUrl] is the platform's [new URL(url)]. *)
Definition validateConfig (isValidUrl : string -> bool) (config : Config)
  : bool :=
  match config with
  | ProxyMode _ => validateProxyConfig config
  | DirectMode d =>
      match d_url d with
      | Some url => isValidUrl url
      | None => false
      end
  end.

(** [config.retries || 3], as the number of turns it gives the loop of
    [makeRequest]: a count below zero gives none. *)
Definition retriesOf (retries : option Z) : nat :=
  match retries with
  | Some z => if z =? 0 then 3%nat else Z.to_nat z
  | None => 3%nat
  end.

(** [buildPayload]: the value handed to [JSON.stringify] later, as
    the text or the error that call gives. *)
Definition defaultPayload (data : BugReportData) : WebhookPayload :=
  {| wp_event := "bug_report";
     wp_timestamp := timestamp data;
     wp_title := title data;
     wp_description := description data;
     wp_url := url data;
     wp_userAgent := userAgent data;
     wp_viewport := (viewportWidth data, viewportHeight data);
     wp_userId := userId data;
     wp_userEmail := userEmail data;
     wp_priority := priority data;
     wp_category := category data;
     wp_tags := tags data;
     wp_reproductionSteps := reproductionSteps data;
     wp_expectedBehavior := expectedBehavior data;
     wp_actualBehavior := actualBehavior data;
     wp_screenshot := screenshot data;
     wp_additionalFiles := additionalFiles data;
     wp_consoleLogs := Js.slice (-10) (reportConsoleLogs data);
     wp_networkRequests := Js.slice (-10) (reportNetworkRequests data) |}.

Inductive Payload :=
| DefaultPayload (payload : WebhookPayload)
| CustomPayload (json : string + Js.Thrown).

Definition buildPayload (data : BugReportData) (d : Direct)
  : Payload + Js.Thrown :=
  match d_transformPayload d with
  | Some transform =>
      match transform data with
      | TransformThrows error => inr error
      | TransformReturns json => inl (CustomPayload json)
      end
  | None => inl (DefaultPayload (defaultPayload data))
  end.

(** [buildHeaders]. *)
Definition buildHeaders (platform : Platform) (d : Direct)
  : gmap string string + Js.Thrown :=
  let headers :=
    fold_left (fun acc kv => <[fst kv := snd kv]> acc) (d_headers d)
              {[ "Content-Type" := "application/json" ]} in
  match d_auth d with
  | None => inl headers
  | Some auth =>
      match auth_type auth with
      | Bearer =>
          inl (<["Authorization" := "Bearer " +:+ auth_token auth]> headers)
      | Basic =>
          match btoa platform (auth_token auth) with
          | inl encoded =>
              inl (<["Authorization" := "Basic " +:+ encoded]> headers)
          | inr error => inr error
          end
      | ApiKey =>
          inl (<[Js.or_default (auth_header auth) "X-API-Key" :=
                   auth_token auth]> headers)
      | OtherAuth => inl headers
      end
  end.

(** [JSON.stringify(payload)]. *)
Definition stringifyPayload (platform : Platform) (payload : Payload)
  : string + Js.Thrown :=
  match payload with
  | DefaultPayload p => stringify platform (PayloadBody p)
  | CustomPayload json => json
  end.

(** What [submit] makes of the outcome of [makeRequest] in direct mode:
    a body that is not JSON reads as the empty object. *)
Definition answer (r : (Response + string) * list Event)
  : SubmissionResponse * list Event :=
  match r with
  | (inl response, trace) =>
      match resp_json response with
      | JsonNull => (failure (nullAccessMessage "id"), trace)
      | other =>
          let result := match other with
                        | JsonObject body => body
                        | _ => emptyJson
                        end in
          ({| success := true;
              issueId := firstTruthy [j_id result; j_issueId result;
                                      j_ticket_id result];
              issueUrl := firstTruthy [j_url result; j_link result;
                                       j_issueUrl result];
              message :=
                Some (Js.or_default (j_message result)
                        "Bug report submitted successfully via webhook");
              error := None |}, trace)
      end
  | (inr msg, trace) => (failure msg, trace)
  end.

(** [submit].  In direct mode the payload, the headers and the body are
    built inside the [try], in this order, before the request is made. *)
Definition submit (platform : Platform) (isValidUrl : string -> bool)
    (net : nat -> FetchOutcome) (data : BugReportData) (config : Config)
  : SubmissionResponse * list Event :=
  if negb (validateConfig isValidUrl config)
  then (failure "Invalid webhook configuration", [])
  else
    match config with
    | ProxyMode endpoint =>
        submitViaProxy platform net data (default "" endpoint)
    | DirectMode d =>
        let caught (error : Js.Thrown) :=
          (failure (thrownMessage "Failed to submit bug report via webhook"
                      error), @nil Event) in
        match buildPayload data d with
        | inr error => caught error
        | inl payload =>
            match buildHeaders platform d with
            | inr error => caught error
            | inl _ =>
                match stringifyPayload platform payload with
                | inr error => caught error
                | inl _ =>
                    answer (makeRequest net (default "" (d_url d))
                              (retriesOf (d_retries d)))
                end
            end
        end
    end.

End Webhook.

(** ** Submission dispatch (the submit handler of the [BugReporter] component) *)

Module Dispatcher.

(** How the promise returned by an adapter's [submit] settles. *)
Inductive Settled :=
| Fulfilled (value : SubmissionResponse)
| Rejected (reasonMessage : option string).

Record ValidationResult := {
  isValid : bool;
  errors : list string
}.

Inductive Outcome :=
| NotRun
| Success (result : SubmissionResponse)
| Failure (errorMessage : string).

(** What one call of the handler did: its outcome, the adapters whose
    [submit] it started, and how each of them settled. *)
Record Run := {
  outcome : Outcome;
  started : list string;
  settled : list Settled
}.

(** The filter's type guard: fulfilled, with [value.success]. *)
Definition successfulValue (r : Settled) : option SubmissionResponse :=
  match r with
  | Fulfilled value => if success value then Some value else None
  | Rejected _ => None
  end.

Definition failureMessage (r : Settled) : string :=
  match r with
  | Rejected reasonMessage => Js.or_default reasonMessage "Unknown error"
  | Fulfilled value => Js.or_default (error value) "Submission failed"
  end.

Section Handler.
Context {Report Config : Type}.

(** The registry [integrations]: for each name, how that adapter's
    [submit] settles on a report and a configuration. *)
Variable integrations : gmap string (Report -> Config -> Settled).

(** The [forEach] over [Object.entries(config.integrations)]: a falsy
    configuration is [None]. *)
Definition collect (finalData : Report)
    (entries : list (string * option Config)) : list (string * Settled) :=
  omap (fun e =>
          match snd e with
          | Some integrationConfig =>
              match integrations !! fst e with
              | Some integration =>
                  Some (fst e, integration finalData integrationConfig)
              | None => None
              end
          | None => None
          end) entries.

Definition handleSubmit (mounted isSubmitting : bool)
    (validation : ValidationResult) (fullReportData : Report)
    (transformData : option (Report -> Report))
    (entries : option (list (string * option Config))) : Run :=
  if negb mounted || isSubmitting
  then {| outcome := NotRun; started := []; settled := [] |}
  else if negb (isValid validation)
  then {| outcome := Failure (Js.join ", " (errors validation));
          started := []; settled := [] |}
  else
    let finalData := match transformData with
                     | Some f => f fullReportData
                     | None => fullReportData
                     end in
    let integrationPromises := collect finalData (default [] entries) in
    if Nat.eqb (length integrationPromises) 0
    then {| outcome := Failure "No integrations configured";
            started := []; settled := [] |}
    else
      let results := map snd integrationPromises in
      let successfulResults := omap successfulValue results in
      match successfulResults with
      | [] =>
          {| outcome :=
               Failure ("All integrations failed: " +:+
                        Js.join ", " (map failureMessage results));
             started := map fst integrationPromises;
             settled := results |}
      | successResult :: _ =>
          {| outcome := Success successResult;
             started := map fst integrationPromises;
             settled := results |}
      end.

End Handler.

End Dispatcher.


(** ** Statements and sample data used by the properties *)

(** The matching rule of [sanitizeUrl]: a query key is redacted when it is
    one of the configured names. *)
Definition exactMatch (opts : CaptureOptions) (key : string) : bool :=
  existsb (String.eqb key) (sensitiveParams opts).

Definition okResponse (headers : list (string * string)) : Response :=
  {| resp_status := 200; resp_statusText := "OK"; resp_headers := headers;
     resp_json := JsonObject emptyJson |}.

(** The specification's reading of [sanitizeUrl]: every parameter of the
    sanitized list whose key matches by case-insensitive substring carries
    the redaction marker. *)
Definition redacts_by_substring : Prop :=
  forall (opts : CaptureOptions) (l : list (string * string)) (k v : string),
    In (k, v) (redactList (sensitiveParams opts) l) ->
    substringMatch opts k = true ->
    v = REDACTED.

(** The entry the [catch] branch of the fetch wrapper builds. *)
Definition failedEntry (parseURL : string -> option Url.URL) (self : Capture)
    (startTime endTime : Z) (input : RequestInfo) (init : option RequestInit)
    (error : Js.Thrown) : NetworkRequestEntry :=
  {| net_timestamp := startTime;
     net_method := inputMethod input init;
     net_url := sanitizeUrl parseURL (options self) (inputUrl input);
     net_status := Some 0;
     net_duration := Some (endTime - startTime);
     net_size := None;
     net_requestHeaders :=
       if includeRequestHeaders (options self)
       then extractHeaders (options self) (inputHeaders input init)
       else None;
     net_responseHeaders := None;
     net_error := Some (thrownMessage "Network error" error) |}.

(** The specification's reading of a failed fetch: the entry recorded last
    has no status code. *)
Definition failed_fetch_has_no_status : Prop :=
  forall parseURL self startTime endTime input init error,
    fst (shouldExcludeUrl (options self) (inputUrl input)) = false ->
    exists entry,
      last (networkRequests
              (fst (fetchWrapper parseURL self startTime endTime input init
                      (Rejects error)))) = Some entry /\
      net_status entry = None.

(** A page with a private block, a paragraph, and the reporter's own popup. *)
Definition samplePage : list Screenshot.Element :=
  [ {| Screenshot.el_selectors := ["[data-private]"; "div"];
       Screenshot.el_display := "block" |};
    {| Screenshot.el_selectors := ["p"]; Screenshot.el_display := "" |};
    {| Screenshot.el_selectors := [".bug-reporter-popup"];
       Screenshot.el_display := "flex" |} ].

Definition pngCanvas : Screenshot.Canvas :=
  {| Screenshot.toDataURL := fun _ => inl "data:image/png;base64,AAAA" |}.

(** A selector engine, as far as the samples need one: it rejects a list
    with an empty part (the empty selector, a trailing comma) and accepts
    the other texts, all of which are selector lists in the samples. *)
Definition sampleCss (text : string) : option Js.Thrown :=
  if existsb Webhook.isBlank (SimpleUrl.splitAll (String.length text) "," text)
  then Some (Js.ThrownError
               ("Failed to execute 'querySelectorAll' on 'Document': '" +:+
                text +:+ "' is not a valid selector."))
  else None.

(** An attempt fails when [fetch] rejects or resolves to a response that is
    not [ok]; [failureText] is the message of the error the [catch] sees. *)
Definition fails (o : FetchOutcome) : bool :=
  match o with
  | Resolves response => negb (resp_ok response)
  | Rejects _ => true
  end.

Definition failureText (o : FetchOutcome) : string :=
  match o with
  | Resolves response => httpError response
  | Rejects error => asErrorMessage error
  end.

Definition isFetch (e : Event) : bool :=
  match e with
  | EvFetch _ => true
  | EvSleep _ => false
  end.

Definition countFetch (trace : list Event) : nat :=
  length (List.filter isFetch trace).

(** The events of [n] failing attempts starting with loop counter [i]. *)
Fixpoint failedTrace (url : string) (retries n i : nat) : list Event :=
  match n with
  | O => []
  | S n' =>
      EvFetch url ::
      (if (i <? retries - 1)%nat then [EvSleep (2 ^ Z.of_nat i * 1000)] else [])
      ++ failedTrace url retries n' (S i)
  end.

Definition notFound : Response :=
  {| resp_status := 404; resp_statusText := "Not Found"; resp_headers := [];
     resp_json := JsonObject emptyJson |}.

Definition htmlBody : Response :=
  {| resp_status := 200; resp_statusText := "OK"; resp_headers := [];
     resp_json := JsonRejects (Js.ThrownError "Unexpected token < in JSON") |}.

(** A report with no content, a platform on which nothing throws, and a
    configuration of the webhook adapter that names only a URL, a method
    and a number of attempts. *)
Definition sampleReport : BugReportData :=
  {| timestamp := 1700000000000; url := "https://app.example.com/checkout";
     userAgent := "Mozilla/5.0"; viewportWidth := 1280; viewportHeight := 720;
     reportConsoleLogs := []; reportNetworkRequests := []; screenshot := None;
     userId := None; userEmail := None; title := Some "Checkout fails";
     description := Some "The button does nothing"; additionalFiles := None;
     tags := None; priority := None; category := None;
     reproductionSteps := None; expectedBehavior := None;
     actualBehavior := None |}.

Definition plainPlatform : Platform :=
  {| stringify := fun _ => inl "{}"; btoa := fun token => inl token;
     toISOString := fun _ => inl "2023-11-14T22:13:20.000Z" |}.

Definition directTo (url : option string) (method : option string)
    (retries : option Z) : Webhook.Config :=
  Webhook.DirectMode
    {| Webhook.d_url := url; Webhook.d_method := method;
       Webhook.d_retries := retries; Webhook.d_headers := [];
       Webhook.d_auth := None; Webhook.d_transformPayload := None |}.

(** The body of a direct configuration can be built: neither
    [transformPayload], nor [btoa], nor [JSON.stringify] throws. *)
Definition bodyBuilt (platform : Platform) (data : BugReportData)
    (d : Webhook.Direct) : Prop :=
  exists payload headers body,
    Webhook.buildPayload data d = inl payload /\
    Webhook.buildHeaders platform d = inl headers /\
    Webhook.stringifyPayload platform payload = inl body.

(** What the webhook adapter throws, if anything, while it prepares the
    request of a valid configuration: the first of [buildPayload],
    [buildHeaders] and [JSON.stringify] that throws in direct mode, and
    [JSON.stringify] through the relay. *)
Definition thrownBeforeRequest (platform : Platform) (data : BugReportData)
    (config : Webhook.Config) : option Js.Thrown :=
  match config with
  | Webhook.ProxyMode _ =>
      match stringify platform (ReportBody data) with
      | inl _ => None
      | inr error => Some error
      end
  | Webhook.DirectMode d =>
      match Webhook.buildPayload data d with
      | inr error => Some error
      | inl payload =>
          match Webhook.buildHeaders platform d with
          | inr error => Some error
          | inl _ =>
              match Webhook.stringifyPayload platform payload with
              | inr error => Some error
              | inl _ => None
              end
          end
      end
  end.

(** The specification's reading of a permanent failure: a response that is
    not 2xx ends the submission after the one call that received it. *)
Definition non_2xx_not_retried : Prop :=
  forall isValidUrl net url method retries response,
    isValidUrl url = true ->
    net 0%nat = Resolves response ->
    resp_ok response = false ->
    countFetch (snd (Webhook.submit plainPlatform isValidUrl net sampleReport
                       (directTo (Some url) method retries))) = 1%nat.

(** The report can be serialised for the relay. *)
Definition reportSerialises (platform : Platform) (data : BugReportData) : Prop :=
  exists body, stringify platform (ReportBody data) = inl body.



(** The message of the error [makeRequest] throws after [n] failed
    attempts. *)
Definition lastFailure (net : nat -> FetchOutcome) (n : nat) : string :=
  match n with
  | O => "Request failed after retries"
  | S n' => failureText (net n')
  end.

Definition flakyNet (i : nat) : FetchOutcome :=
  match i with
  | 0%nat => Rejects (Js.ThrownError "Failed to fetch")
  | 1%nat => Resolves {| resp_status := 503;
                         resp_statusText := "Service Unavailable";
                         resp_headers := []; resp_json := JsonNull |}
  | _ => Resolves (okResponse [])
  end.


(** Three destinations for the dispatcher: the report and the configurations
    carry nothing, each adapter settles in a fixed way. *)
Definition created (id link : string) : SubmissionResponse :=
  {| success := true; issueId := Some id; issueUrl := Some link;
     message := Some "created"; error := None |}.

Definition oneOfThree : gmap string (unit -> unit -> Dispatcher.Settled) :=
  <["github" := fun _ _ => Dispatcher.Fulfilled (failure "Bad credentials")]>
  (<["linear" := fun _ _ =>
       Dispatcher.Fulfilled (created "LIN-7" "https://linear.app/issue/LIN-7")]>
  (<["slack" := fun _ _ => Dispatcher.Rejected (Some "socket hang up")]> ∅)).

Definition noneOfThree : gmap string (unit -> unit -> Dispatcher.Settled) :=
  <["github" := fun _ _ => Dispatcher.Fulfilled (failure "Bad credentials")]>
  (<["linear" := fun _ _ => Dispatcher.Fulfilled (failure "")]>
  (<["slack" := fun _ _ => Dispatcher.Rejected None]> ∅)).

Definition threeConfigured : option (list (string * option unit)) :=
  Some [("github", Some tt); ("linear", Some tt); ("slack", Some tt)].

Definition valid : Dispatcher.ValidationResult :=
  {| Dispatcher.isValid := true; Dispatcher.errors := [] |}.

(** A session with empty buffers that is, or is not, capturing. *)
Definition sessionWith (o : CaptureOptions) (capturing : bool) : Capture :=
  {| consoleLogs := []; networkRequests := []; isCapturing := capturing;
     options := o |}.

(** A call of the wrapped [console.error] at time 40, made for an [Error]. *)
Definition sampleCall : ConsoleCall :=
  {| call_now := 40; call_shown := "[object Object]";
     call_source := "captureScreenshot (capture.ts:451:15)" |}.

(** The expression [/.+/g]: from index [i] it matches the rest of the
    text when there is any. *)
Definition anythingGlobal : Pattern :=
  {| pat_exec := fun i s => if (i <? String.length s)%nat
                            then Some (String.length s) else None;
     pat_stateful := true;
     pat_lastIndex := 0 |}.

(** The session's two fields hold an array of log entries and an array of
    request entries. *)
Definition isLogObject (h : gmap Aliasing.loc Aliasing.Cell) (r : Aliasing.loc)
  : Prop :=
  exists entry, h !! r = Some (Aliasing.LogObject entry).

Definition isNetObject (h : gmap Aliasing.loc Aliasing.Cell) (r : Aliasing.loc)
  : Prop :=
  exists request, h !! r = Some (Aliasing.NetObject request).

Definition isLogArray (h : gmap Aliasing.loc Aliasing.Cell) (l : Aliasing.loc)
  : Prop :=
  exists items, h !! l = Some (Aliasing.LogArray items) /\
                Forall (isLogObject h) items.

Definition isNetArray (h : gmap Aliasing.loc Aliasing.Cell) (l : Aliasing.loc)
  : Prop :=
  exists items, h !! l = Some (Aliasing.NetArray items) /\
                Forall (isNetObject h) items.

Definition ownsBuffers (st : Aliasing.CaptureRef * gmap Aliasing.loc Aliasing.Cell)
  : Prop :=
  isLogArray (snd st) (Aliasing.consoleLogsRef (fst st)) /\
  isNetArray (snd st) (Aliasing.networkRequestsRef (fst st)).

(** An allocated object that is neither of the session's two buffers. *)
Definition apart (st : Aliasing.CaptureRef * gmap Aliasing.loc Aliasing.Cell)
    (l : Aliasing.loc) : Prop :=
  l ∈ dom (snd st) /\ l <> Aliasing.consoleLogsRef (fst st) /\
  l <> Aliasing.networkRequestsRef (fst st).

(** The store reflects a value-level session. *)
Definition reflects (st : Aliasing.CaptureRef * gmap Aliasing.loc Aliasing.Cell)
    (c : Capture) : Prop :=
  Aliasing.logValues (snd st) (Aliasing.consoleLogsRef (fst st)) = consoleLogs c /\
  Aliasing.netValues (snd st) (Aliasing.networkRequestsRef (fst st))
    = networkRequests c /\
  Aliasing.optionsOf (fst st) = options c.

(** One round of reads: [getConsoleLogs()], [getNetworkRequests()] and
    [captureReport()], giving the four arrays handed out, the session and
    the store afterwards. *)
Definition readAll (c : Aliasing.CaptureRef) (failureLog : option ConsoleLogEntry)
    (h : gmap Aliasing.loc Aliasing.Cell)
  : list Aliasing.loc * Aliasing.CaptureRef * gmap Aliasing.loc Aliasing.Cell :=
  let '(logsCopy, h1) := Aliasing.getConsoleLogs c h in
  let '(netCopy, h2) := Aliasing.getNetworkRequests c h1 in
  let '(report, c3, h3) := Aliasing.captureReport c failureLog None h2 in
  ([logsCopy; netCopy; Aliasing.rep_consoleLogs report;
    Aliasing.rep_networkRequests report], c3, h3).

(** What it means for the array at [l] to be a copy and not a buffer of the
    session [c] in the store [h]: it is neither of the session's arrays, a
    change made to it leaves both buffers as they are, and whatever the
    session does afterwards leaves it, and the entries it shows, as they
    are. *)
Definition isCopy (c : Aliasing.CaptureRef) (h : gmap Aliasing.loc Aliasing.Cell)
    (l : Aliasing.loc) : Prop :=
  l <> Aliasing.consoleLogsRef c /\
  l <> Aliasing.networkRequestsRef c /\
  (forall a,
     Aliasing.readLogs (Aliasing.mutate h l a) (Aliasing.consoleLogsRef c) =
       Aliasing.readLogs h (Aliasing.consoleLogsRef c) /\
     Aliasing.readNet (Aliasing.mutate h l a) (Aliasing.networkRequestsRef c) =
       Aliasing.readNet h (Aliasing.networkRequestsRef c) /\
     Aliasing.logValues (Aliasing.mutate h l a) (Aliasing.consoleLogsRef c) =
       Aliasing.logValues h (Aliasing.consoleLogsRef c) /\
     Aliasing.netValues (Aliasing.mutate h l a) (Aliasing.networkRequestsRef c) =
       Aliasing.netValues h (Aliasing.networkRequestsRef c)) /\
  (forall after,
     snd (Aliasing.run after (c, h)) !! l = h !! l /\
     Aliasing.logValues (snd (Aliasing.run after (c, h))) l =
       Aliasing.logValues h l /\
     Aliasing.netValues (snd (Aliasing.run after (c, h))) l =
       Aliasing.netValues h l).

(** Every object apart from the buffers of the first state is apart from
    those of the second and is the same in both stores. *)
Definition frames (st st' : Aliasing.CaptureRef * gmap Aliasing.loc Aliasing.Cell)
  : Prop :=
  forall l, apart st l -> apart st' l /\ snd st' !! l = snd st !! l.

(** The session after [captureReport] on the value level: the failure of
    the screenshot, when it is recorded, is the newest console entry. *)
Definition afterReport (s : Capture) (failureLog : option ConsoleLogEntry)
  : Capture :=
  match failureLog with
  | Some entry => addConsoleLog s entry
  | None => s
  end.

(** An array of entries in the store that is neither of the session's
    buffers. *)
Definition isSnapshot (st : Aliasing.CaptureRef * gmap Aliasing.loc Aliasing.Cell)
    (l : Aliasing.loc) : Prop :=
  apart st l /\ (isLogArray (snd st) l \/ isNetArray (snd st) l).

(** ** Installing and removing the interceptors ([startCapturing], [stopCapturing]) *)

Module Hooks.

(** Function values, told apart by identity: a function of the host, the
    result of [f.bind(window)], and the closures the session installs. *)
Inductive Fn :=
| Native (name : string)
| Bound (target : Fn)
| ConsoleWrapper (method : string)
| FetchWrapper
| XhrOpenWrapper
| HandleError
| HandleUnhandledRejection.

#[export] Instance Fn_eq_dec : EqDecision Fn.
Proof. solve_decision. Defined.

(** The process-wide state the session hooks into: the function-valued
    properties of [console], [window.fetch], [XMLHttpRequest.prototype.open]
    and the listeners registered on [window]. *)
Record Globals := {
  console : gmap string Fn;
  windowFetch : Fn;
  xhrOpen : Fn;
  listeners : list (string * Fn)
}.

(** The fields of the session that the two methods use;
    [originalConsoleMethods] is an object, kept in insertion order. *)
Record Session := {
  isCapturing : bool;
  originalFetch : option Fn;
  originalXhrOpen : option Fn;
  originalConsoleMethods : list (string * Fn);
  startTime : Z
}.

Definition methods : list string := ["log"; "warn"; "error"; "info"; "debug"].

(** [obj[key] = value] on an object kept as an ordered list. *)
Fixpoint objSet (obj : list (string * Fn)) (key : string) (value : Fn)
  : list (string * Fn) :=
  match obj with
  | [] => [(key, value)]
  | (k, v) :: rest =>
      if String.eqb k key then (k, value) :: rest
      else (k, v) :: objSet rest key value
  end.

(** [interceptConsole]: one turn of the [forEach]. *)
Definition interceptMethod (st : list (string * Fn) * gmap string Fn)
    (method : string) : list (string * Fn) * gmap string Fn :=
  match snd st !! method with
  | Some f => (objSet (fst st) method f, <[method := ConsoleWrapper method]> (snd st))
  | None => st
  end.

Definition interceptConsole (originals : list (string * Fn))
    (c : gmap string Fn) : list (string * Fn) * gmap string Fn :=
  fold_left interceptMethod methods (originals, c).

(** [restoreConsole]. *)
Definition restoreConsole (originals : list (string * Fn))
    (c : gmap string Fn) : gmap string Fn :=
  fold_left (fun acc kv => <[fst kv := snd kv]> acc) originals c.

(** [addEventListener] ignores a listener that is already registered;
    [removeEventListener] removes it. *)
Definition addEventListener (ls : list (string * Fn)) (type : string) (f : Fn)
  : list (string * Fn) :=
  if bool_decide ((type, f) ∈ ls) then ls else ls ++ [(type, f)].

Definition removeEventListener (ls : list (string * Fn)) (type : string) (f : Fn)
  : list (string * Fn) :=
  List.filter (fun l => negb (bool_decide (l = (type, f)))) ls.

(** [startCapturing]; [hasWindow] is [typeof window !== 'undefined'],
    [now] the reading of [Date.now()]. *)
Definition startCapturing (hasWindow : bool) (now : Z)
    (s : Session) (g : Globals) : Session * Globals :=
  if isCapturing s || negb hasWindow then (s, g)
  else
    let '(originals, console') :=
      interceptConsole (originalConsoleMethods s) (console g) in
    ({| isCapturing := true;
        originalFetch := Some (Bound (windowFetch g));
        originalXhrOpen := Some (xhrOpen g);
        originalConsoleMethods := originals;
        startTime := now |},
     {| console := console';
        windowFetch := FetchWrapper;
        xhrOpen := XhrOpenWrapper;
        listeners :=
          addEventListener
            (addEventListener (listeners g) "error" HandleError)
            "unhandledrejection" HandleUnhandledRejection |}).

(** [stopCapturing]. *)
Definition stopCapturing (hasWindow : bool) (s : Session) (g : Globals)
  : Session * Globals :=
  if negb (isCapturing s) then (s, g)
  else
    let restoreFetch :=
      match originalFetch s with
      | Some _ => hasWindow
      | None => false
      end in
    ({| isCapturing := false;
        originalFetch := if restoreFetch then None else originalFetch s;
        originalXhrOpen := None;
        originalConsoleMethods := [];
        startTime := startTime s |},
     {| console := restoreConsole (originalConsoleMethods s) (console g);
        windowFetch := match originalFetch s with
                       | Some f => if hasWindow then f else windowFetch g
                       | None => windowFetch g
                       end;
        xhrOpen := default (xhrOpen g) (originalXhrOpen s);
        listeners :=
          if hasWindow
          then removeEventListener
                 (removeEventListener (listeners g) "error" HandleError)
                 "unhandledrejection" HandleUnhandledRejection
          else listeners g |}).

Definition idle : Session :=
  {| isCapturing := false; originalFetch := None; originalXhrOpen := None;
     originalConsoleMethods := []; startTime := 0 |}.

End Hooks.

(** ** The older request primitive: the [loadend] listener *)

(** What the listener reads from the request object: the status, the lines
    of [getAllResponseHeaders()] (split at [': ']; [None] when the call
    throws or returns nothing), and [getResponseHeader('content-length')]
    ([None] when it throws or returns [null]). *)
Record Xhr := {
  xhr_status : Z;
  xhr_responseHeaderLines : option (list (string * list string));
  xhr_contentLength : option string
}.

Definition getXHRResponseSize (xhr : Xhr) : option JsNum :=
  match xhr_contentLength xhr with
  | Some contentLength =>
      if String.eqb contentLength "" then None else Some (parseInt contentLength)
  | None => None
  end.

(** What the wrapper over [open] captures for the [loadend] listener it
    registers on the request object. *)
Record XhrListener := {
  lis_startTime : Z;
  lis_method : string;
  lis_url : string
}.

(** The wrapper over [XMLHttpRequest.prototype.open].  [registered] are the
    session's listeners already on the request object, one for each earlier
    [open] that was not excluded: none is ever removed.  [now] is the
    reading of [Date.now()]. *)
Definition xhrOpen (self : Capture) (now : Z) (method urlString : string)
    (registered : list XhrListener) : Capture * list XhrListener :=
  let tested := afterTest self urlString in
  if fst (shouldExcludeUrl (options self) urlString) then (tested, registered)
  else (tested,
        registered ++ [{| lis_startTime := now; lis_method := method;
                          lis_url := urlString |}]).

(** The entry one listener builds when [loadend] fires: [opts] are the
    session's options and [xhr] the request object at that moment. *)
Definition xhrEntry (parseURL : string -> option Url.URL) (opts : CaptureOptions)
    (endTime : Z) (xhr : Xhr) (l : XhrListener) : NetworkRequestEntry :=
  {| net_timestamp := lis_startTime l;
     net_method := lis_method l;
     net_url := sanitizeUrl parseURL opts (lis_url l);
     net_status := Some (xhr_status xhr);
     net_duration := Some (endTime - lis_startTime l);
     net_size := getXHRResponseSize xhr;
     net_requestHeaders := None;
     net_responseHeaders :=
       if includeResponseHeaders opts
       then getXHRResponseHeaders opts (xhr_responseHeaderLines xhr)
       else None;
     net_error := if xhr_status xhr =? 0 then Some "Network error" else None |}.

(** One listener when [loadend] fires. *)
Definition xhrListener (parseURL : string -> option Url.URL) (self : Capture)
    (endTime : Z) (xhr : Xhr) (l : XhrListener) : Capture :=
  addNetworkRequest self (xhrEntry parseURL (options self) endTime xhr l).

(** [loadend]: the listeners run in the order in which they were added;
    [clock k] is the reading of [Date.now()] in the [k]-th of them. *)
Fixpoint xhrLoadend (parseURL : string -> option Url.URL) (self : Capture)
    (clock : nat -> Z) (k : nat) (xhr : Xhr) (registered : list XhrListener)
  : Capture :=
  match registered with
  | [] => self
  | l :: rest =>
      xhrLoadend parseURL (xhrListener parseURL self (clock k) xhr l)
                 clock (S k) xhr rest
  end.

(** One exchange on a request object that was not opened before. *)
Definition xhrExchange (parseURL : string -> option Url.URL) (self : Capture)
    (startTime endTime : Z) (method urlString : string) (xhr : Xhr) : Capture :=
  xhrLoadend parseURL (fst (xhrOpen self startTime method urlString []))
             (fun _ => endTime) 0 xhr
             (snd (xhrOpen self startTime method urlString [])).

(** A request object whose exchange was answered with the given status
    and no headers. *)
Definition answered (status : Z) : Xhr :=
  {| xhr_status := status; xhr_responseHeaderLines := None;
     xhr_contentLength := None |}.

(** ** Materialising a report ([captureReport]) *)

(** What [captureReport] reads from the page: [window] ([None] on a
    server), [navigator.userAgent] and the clock. *)
Record Page := {
  page_window : option (string * Z * Z);
  page_userAgent : option string;
  page_now : Z
}.

(** [captureReport]: the screenshot is taken first (with no options), then
    the defaults are built and [...additionalData] is spread over them.
    [hasDocument] is [typeof document !== 'undefined'].  The result is the
    report, the document and the session as the call leaves them. *)
Definition captureReport (selectorError : string -> option Js.Thrown)
    (self : Capture) (call : ConsoleCall) (page : Page)
    (hasDocument : bool) (doc : list Screenshot.Element)
    (raster : list Screenshot.Element -> Screenshot.RasterOutcome)
    (additionalData : option PartialReport)
  : BugReportData * list Screenshot.Element * Capture :=
  let '(shot, doc', self') :=
    captureScreenshot selectorError self call
      (bool_decide (is_Some (page_window page)) && hasDocument) doc None raster in
  let a := default emptyPartial additionalData in
  let href := match page_window page with
              | Some (h, _, _) => h
              | None => ""
              end in
  let width := match page_window page with
               | Some (_, w, _) => w
               | None => 0
               end in
  let height := match page_window page with
                | Some (_, _, h) => h
                | None => 0
                end in
  ({| timestamp := default (page_now page) (p_timestamp a);
      url := default href (p_url a);
      userAgent := default (default "" (page_userAgent page)) (p_userAgent a);
      viewportWidth := default width (fst <$> p_viewport a);
      viewportHeight := default height (snd <$> p_viewport a);
      reportConsoleLogs := default (consoleLogs self') (p_consoleLogs a);
      reportNetworkRequests :=
        default (networkRequests self') (p_networkRequests a);
      screenshot := default shot (p_screenshot a);
      userId := p_userId a;
      userEmail := p_userEmail a;
      title := p_title a;
      description := p_description a;
      additionalFiles := p_additionalFiles a;
      tags := p_tags a;
      priority := p_priority a;
      category := p_category a;
      reproductionSteps := p_reproductionSteps a;
      expectedBehavior := p_expectedBehavior a;
      actualBehavior := p_actualBehavior a |},
   doc', self').

(** ** Text helpers of [BaseIntegration] *)

Module Text.

Fixpoint takeStr (n : nat) (s : string) : string :=
  match n, s with
  | S n', String c s' => String c (takeStr n' s')
  | _, _ => EmptyString
  end.

(** [text.substring(0, end)]: a negative [end] counts as [0]. *)
Definition substring0 (endIndex : Z) (text : string) : string :=
  takeStr (Z.to_nat (Z.max 0 endIndex)) text.

(** [truncateText]. *)
Definition truncateText (text : string) (maxLength : Z) : string :=
  if Z.of_nat (String.length text) <=? maxLength then text
  else substring0 (maxLength - 3) text +:+ "...".

(** [text.replace(/[...]/g, '\\$&')]: every character of the class gets
    a backslash in front. *)
Fixpoint escapeClass (inClass : ascii -> bool) (text : string) : string :=
  match text with
  | EmptyString => EmptyString
  | String c rest =>
      if inClass c then String "\" (String c (escapeClass inClass rest))
      else String c (escapeClass inClass rest)
  end.

Definition isChar (a c : ascii) : bool := Ascii.eqb c a.

(** [sanitizeForMarkdown]: five replacements, one after the other. *)
Definition sanitizeForMarkdown (text : string) : string :=
  escapeClass (fun c => isChar "[" c || isChar "]" c)
    (escapeClass (isChar "#")
       (escapeClass (isChar "_")
          (escapeClass (isChar "*")
             (escapeClass (isChar "\") text)))).

Definition isMarkdownSpecial (c : ascii) : bool :=
  isChar "\" c || isChar "*" c || isChar "_" c || isChar "#" c ||
  isChar "[" c || isChar "]" c.

Fixpoint countClass (inClass : ascii -> bool) (text : string) : nat :=
  match text with
  | EmptyString => 0
  | String c rest => (if inClass c then 1 else 0) + countClass inClass rest
  end.

End Text.

(** ** Report validation ([ValidationManager.validateBugReport]) *)

Module Validation.

(** A value read from the form data with [data[key]]. *)
Inductive JsValue :=
| VUndefined
| VString (s : string)
| VNumber (z : Z)
| VBool (b : bool)
| VObject.

Definition truthyValue (v : JsValue) : bool :=
  match v with
  | VUndefined => false
  | VString s => negb (String.eqb s "")
  | VNumber z => negb (z =? 0)
  | VBool b => b
  | VObject => true
  end.

Record FieldValidation := {
  v_min : option Z;
  v_max : option Z;
  v_pattern : option (string -> bool);
  v_message : option string
}.

Record Field := {
  f_key : string;
  f_label : string;
  f_required : bool;
  f_validation : option FieldValidation
}.

(** The form data: the four fields the validator names, and every other
    key through [in_other]. *)
Record ReportInput := {
  in_title : option string;
  in_description : option string;
  in_userEmail : option string;
  in_url : option string;
  in_other : string -> JsValue
}.

(** [config.validation]. *)
Record Rules := {
  requireTitle : bool;
  requireDescription : bool;
  requireEmail : bool
}.

Definition ofOption (o : option string) : JsValue :=
  match o with
  | Some s => VString s
  | None => VUndefined
  end.

(** [(data as any)[key]]. *)
Definition getField (data : ReportInput) (key : string) : JsValue :=
  if String.eqb key "title" then ofOption (in_title data)
  else if String.eqb key "description" then ofOption (in_description data)
  else if String.eqb key "userEmail" then ofOption (in_userEmail data)
  else if String.eqb key "url" then ofOption (in_url data)
  else in_other data key.

(** [!value?.trim()]. *)
Definition blank (o : option string) : bool :=
  match o with
  | Some s => Webhook.isBlank s
  | None => true
  end.

Definition emailChar (c : ascii) : bool :=
  negb (Webhook.isSpace c || Ascii.eqb c "@").

Fixpoint allChars (p : ascii -> bool) (s : string) : bool :=
  match s with
  | EmptyString => true
  | String c s' => p c && allChars p s'
  end.

(** Some [.] of [s] has a character before it and one after it. *)
Fixpoint innerDot (seenOne : bool) (s : string) : bool :=
  match s with
  | EmptyString => false
  | String c s' =>
      (seenOne && Ascii.eqb c "." && negb (String.eqb s' "")) || innerDot true s'
  end.

(** [/^[^\s@]+@[^\s@]+\.[^\s@]+$/.test(email)]. *)
Definition isValidEmail (email : string) : bool :=
  match SimpleUrl.splitAt "@" email with
  | (localPart, Some domain) =>
      negb (String.eqb localPart "") && allChars emailChar localPart &&
      allChars emailChar domain && innerDot false domain
  | (_, None) => false
  end.

(** [validateFieldValue]. *)
Definition validateFieldValue (value : JsValue) (validation : FieldValidation)
    (fieldLabel : string) : list string :=
  (match v_min validation with
   | Some min =>
       match value with
       | VString s =>
           if Z.of_nat (String.length s) <? min
           then [fieldLabel +:+ " must be at least " +:+ pretty min +:+
                 " characters long"]
           else []
       | VNumber z =>
           if z <? min
           then [fieldLabel +:+ " must be at least " +:+ pretty min]
           else []
       | _ => []
       end
   | None => []
   end) ++
  (match v_max validation with
   | Some max =>
       match value with
       | VString s =>
           if max <? Z.of_nat (String.length s)
           then [fieldLabel +:+ " must be no more than " +:+ pretty max +:+
                 " characters long"]
           else []
       | VNumber z =>
           if max <? z
           then [fieldLabel +:+ " must be no more than " +:+ pretty max]
           else []
       | _ => []
       end
   | None => []
   end) ++
  (match v_pattern validation, value with
   | Some test, VString s =>
       if test s then []
       else [Js.or_default (v_message validation)
               (fieldLabel +:+ " format is invalid")]
   | _, _ => []
   end).

(** [validateCustomFields]. *)
Definition validateCustomFields (data : ReportInput) (fs : list Field)
  : list string :=
  flat_map (fun field =>
              let value := getField data (f_key field) in
              if f_required field && negb (truthyValue value)
              then [f_label field +:+ " is required"]
              else
                match f_validation field with
                | Some validation =>
                    if truthyValue value
                    then validateFieldValue value validation (f_label field)
                    else []
                | None => []
                end) fs.

(** [validateBugReport]; [isValidUrl] is the platform's [new URL(url)],
    [uiFields] is [config.ui.fields]. *)
Definition validateBugReport (isValidUrl : string -> bool) (rules : option Rules)
    (uiFields : option (list Field)) (data : ReportInput)
  : Dispatcher.ValidationResult :=
  let required (flag : Rules -> bool) :=
    match rules with
    | Some r => flag r
    | None => false
    end in
  let errors :=
    (if required requireTitle && blank (in_title data)
     then ["Title is required"] else []) ++
    (if required requireDescription && blank (in_description data)
     then ["Description is required"] else []) ++
    (if required requireEmail && blank (in_userEmail data)
     then ["Email is required"] else []) ++
    (match in_userEmail data with
     | Some email =>
         if negb (String.eqb email "") && negb (isValidEmail email)
         then ["Please enter a valid email address"] else []
     | None => []
     end) ++
    (match in_url data with
     | Some u =>
         if negb (String.eqb u "") && negb (isValidUrl u)
         then ["Invalid URL format"] else []
     | None => []
     end) ++
    (match uiFields with
     | Some fs => validateCustomFields data fs
     | None => []
     end) in
  {| Dispatcher.isValid := Nat.eqb (length errors) 0;
     Dispatcher.errors := errors |}.

End Validation.

(** ** Attached files ([validateFile], [validateMultipleFiles]) *)

Module Files.

Record File := {
  name : string;
  type : string;
  size : Z
}.

(** The fields of [config.validation] the two methods read. *)
Record Rules := {
  maxFileSize : option Z;
  allowedFileTypes : option (list string);
  maxFiles : option Z
}.

Definition startsWith (s sub : string) : bool := String.prefix sub s.

Definition endsWith (s sub : string) : bool :=
  (String.length sub <=? String.length s)%nat &&
  String.eqb
    (String.substring (String.length s - String.length sub) (String.length sub) s)
    sub.

Definition quote : string := String (Ascii.ascii_of_nat 34) EmptyString.

(** The callback of [allowedFileTypes.some]: an extension, a MIME type or
    a category. *)
Definition typeAllowed (file : File) (allowed : string) : bool :=
  if startsWith allowed "."
  then endsWith (Js.toLowerCase (name file)) (Js.toLowerCase allowed)
  else if Js.includes allowed "/"
  then startsWith (type file) allowed
  else startsWith (type file) (allowed +:+ "/").

(** [n && ...] on an optional number: [undefined] and [0] are falsy. *)
Definition limit (n : option Z) : option Z :=
  match n with
  | Some z => if z =? 0 then None else Some z
  | None => None
  end.

(** [validateFile]; [toFixedMB n] is [(n / 1024 / 1024).toFixed(1)]. *)
Definition validateFile (toFixedMB : Z -> string) (file : File)
    (validation : option Rules) : Dispatcher.ValidationResult :=
  match validation with
  | None => {| Dispatcher.isValid := true; Dispatcher.errors := [] |}
  | Some v =>
      let errors :=
        (match limit (maxFileSize v) with
         | Some max =>
             if max <? size file
             then ["File " +:+ quote +:+ name file +:+ quote +:+
                   " is too large (" +:+ toFixedMB (size file) +:+
                   "MB). Maximum allowed size is " +:+ toFixedMB max +:+ "MB."]
             else []
         | None => []
         end) ++
        (match allowedFileTypes v with
         | Some (t :: ts) =>
             if existsb (typeAllowed file) (t :: ts) then []
             else ["File type " +:+ quote +:+ type file +:+ quote +:+
                   " is not allowed for file " +:+ quote +:+ name file +:+
                   quote +:+ "."]
         | _ => []
         end) in
      {| Dispatcher.isValid := Nat.eqb (length errors) 0;
         Dispatcher.errors := errors |}
  end.

(** [validateMultipleFiles]. *)
Definition validateMultipleFiles (toFixedMB : Z -> string) (files : list File)
    (validation : option Rules) : Dispatcher.ValidationResult :=
  let errors :=
    (match limit (validation ≫= maxFiles) with
     | Some max =>
         if max <? Z.of_nat (length files)
         then ["Too many files. Maximum allowed is " +:+ pretty max +:+ "."]
         else []
     | None => []
     end) ++
    flat_map (fun file =>
                let fileValidation := validateFile toFixedMB file validation in
                if negb (Dispatcher.isValid fileValidation)
                then Dispatcher.errors fileValidation
                else []) files in
  {| Dispatcher.isValid := Nat.eqb (length errors) 0;
     Dispatcher.errors := errors |}.

End Files.

(** The first two steps of the submit handler together: validate the form
    data, then go on as [handleSubmit] does. *)
Definition validateAndSubmit {Report Config : Type}
    (integrations : gmap string (Report -> Config -> Dispatcher.Settled))
    (isValidUrl : string -> bool) (rules : option Validation.Rules)
    (uiFields : option (list Validation.Field))
    (mounted isSubmitting : bool) (reportData : Validation.ReportInput)
    (fullReportData : Report) (transformData : option (Report -> Report))
    (entries : option (list (string * option Config))) : Dispatcher.Run :=
  Dispatcher.handleSubmit integrations mounted isSubmitting
    (Validation.validateBugReport isValidUrl rules uiFields reportData)
    fullReportData transformData entries.

(** ** The chat adapters ([SlackIntegration], [DiscordIntegration]) *)

Module Slack.

Inductive Config :=
| ProxyMode (endpoint : option string)
| DirectMode (webhook : option string).

Definition validateConfig (config : Config) : bool :=
  match config with
  | ProxyMode (Some endpoint) => negb (Webhook.isBlank endpoint)
  | ProxyMode None => false
  | DirectMode (Some webhook) => Js.includes webhook "hooks.slack.com"
  | DirectMode None => false
  end.

(** [submit].  The configuration is seen through the fields the adapter
    decides on; [username], [iconEmoji] and [channel] are strings or
    absent, as [getConfigSchema] has them.  The payload of the direct mode
    is then built from texts and numbers and holds nothing that
    [JSON.stringify] rejects. *)
Definition submit (platform : Platform) (net : nat -> FetchOutcome)
    (data : BugReportData) (config : Config)
  : SubmissionResponse * list Event :=
  if negb (validateConfig config)
  then (failure "Invalid Slack configuration", [])
  else
    match config with
    | ProxyMode endpoint =>
        submitViaProxy platform net data (default "" endpoint)
    | DirectMode webhook =>
        match makeRequest net (default "" webhook) 3 with
        | (inl _, trace) =>
            ({| success := true; issueId := None; issueUrl := None;
                message := Some "Bug report sent to Slack successfully";
                error := None |}, trace)
        | (inr msg, trace) => (failure msg, trace)
        end
    end.

(** [extractBrowser]. *)
Definition extractBrowser (userAgent : string) : string :=
  if Js.includes userAgent "Chrome" then "Chrome"
  else if Js.includes userAgent "Firefox" then "Firefox"
  else if Js.includes userAgent "Safari" then "Safari"
  else if Js.includes userAgent "Edge" then "Edge"
  else "Unknown".

End Slack.

Module Discord.

Inductive Config :=
| ProxyMode (endpoint : option string)
| DirectMode (webhook : option string).

Definition validateConfig (config : Config) : bool :=
  match config with
  | ProxyMode (Some endpoint) => negb (Webhook.isBlank endpoint)
  | ProxyMode None => false
  | DirectMode (Some webhook) => Js.includes webhook "discord.com/api/webhooks"
  | DirectMode None => false
  end.

(** [submit].  The configuration is seen through the fields the adapter
    decides on; [username] and [avatar] are strings or absent, as
    [getConfigSchema] has them.  In direct mode the payload is built
    inside the [try] before the request is made; of what it holds only
    [new Date(data.timestamp).toISOString()] can throw. *)
Definition submit (platform : Platform) (net : nat -> FetchOutcome)
    (data : BugReportData) (config : Config)
  : SubmissionResponse * list Event :=
  if negb (validateConfig config)
  then (failure "Invalid Discord configuration", [])
  else
    match config with
    | ProxyMode endpoint =>
        submitViaProxy platform net data (default "" endpoint)
    | DirectMode webhook =>
        match toISOString platform (timestamp data) with
        | inr error =>
            (failure (thrownMessage "Failed to send bug report to Discord"
                        error), [])
        | inl _ =>
            match makeRequest net (default "" webhook) 3 with
            | (inl _, trace) =>
                ({| success := true; issueId := None; issueUrl := None;
                    message := Some "Bug report sent to Discord successfully";
                    error := None |}, trace)
            | (inr msg, trace) => (failure msg, trace)
            end
        end
    end.

End Discord.

(** ** Notions used to state the further properties *)

(** [n] calls of [fetch] starting at loop counter [k], with the backoff wait
    between one call and the next. *)
Fixpoint callsFrom (url : string) (k n : nat) : list Event :=
  match n with
  | O => []
  | S n' =>
      EvFetch url ::
      match n' with
      | O => []
      | S _ => EvSleep (2 ^ Z.of_nat k * 1000) :: callsFrom url (S k) n'
      end
  end.

(** An entry whose header maps hold no key the header policy names. *)
Definition cleanHeaders (opts : CaptureOptions) (e : NetworkRequestEntry) : Prop :=
  forall m k v,
    (net_requestHeaders e = Some m \/ net_responseHeaders e = Some m) ->
    m !! k = Some v ->
    isSensitiveHeader opts k = false.

(** The last value given to [key] in a list of headers. *)
Definition lastValue (key : string) (headers : list (string * string))
  : option string :=
  snd <$> List.find (fun kv => String.eqb (fst kv) key) (rev headers).

(** The document [html2canvas] is shown by [captureScreenshot]. *)
Definition rasterInput (doc : list Screenshot.Element)
    (options : option Screenshot.Options) : list Screenshot.Element :=
  let sels := Screenshot.defaultExcludeSelectors ++
              default [] (options ≫= Screenshot.excludeSelectors) in
  fst (Screenshot.hideAll (Screenshot.querySelectorAll sels doc) doc).

(** The text [captureScreenshot] gives to [querySelectorAll]. *)
Definition selectorText (options : option Screenshot.Options) : string :=
  Js.join ", " (Screenshot.defaultExcludeSelectors ++
                default [] (options ≫= Screenshot.excludeSelectors)).

Definition excludedBy (options : option Screenshot.Options)
    (e : Screenshot.Element) : bool :=
  Screenshot.matchesAny
    (Screenshot.defaultExcludeSelectors ++
     default [] (options ≫= Screenshot.excludeSelectors)) e.

(** What the interceptors do to the two buffers, one call at a time: a
    console call pushes a log entry, a finished request pushes a request
    entry. *)
Definition record (c : Capture) (ev : ConsoleLogEntry + NetworkRequestEntry)
  : Capture :=
  match ev with
  | inl entry => addConsoleLog c entry
  | inr request => addNetworkRequest c request
  end.

Definition logsOf (evs : list (ConsoleLogEntry + NetworkRequestEntry))
  : list ConsoleLogEntry :=
  omap (fun ev => match ev with inl e => Some e | inr _ => None end) evs.

Definition requestsOf (evs : list (ConsoleLogEntry + NetworkRequestEntry))
  : list NetworkRequestEntry :=
  omap (fun ev => match ev with inl _ => None | inr r => Some r end) evs.

(** Sample entries. *)
Definition logOf (msg : string) : ConsoleLogEntry :=
  {| log_timestamp := 0; log_level := LvLog; log_message := msg;
     log_args := [msg]; log_source := None |}.

Definition requestTo (u : string) : NetworkRequestEntry :=
  {| net_timestamp := 0; net_method := "GET"; net_url := u;
     net_status := Some 200; net_duration := Some 5; net_size := None;
     net_requestHeaders := None; net_responseHeaders := None;
     net_error := None |}.

(** A list on which redacting [p] again changes nothing. *)
Definition settled (l : list (string * string)) (p : string) : Prop :=
  Url.has l p = true -> Url.set l p REDACTED = l.



(** A browser's globals before the session hooks in: the five console
    methods and one more, the host's [fetch] and [open], and a listener of
    the application's own. *)
Definition browserGlobals : Hooks.Globals :=
  {| Hooks.console :=
       list_to_map
         [("log", Hooks.Native "console.log"); ("warn", Hooks.Native "console.warn");
          ("error", Hooks.Native "console.error"); ("info", Hooks.Native "console.info");
          ("debug", Hooks.Native "console.debug"); ("table", Hooks.Native "console.table")];
     Hooks.windowFetch := Hooks.Native "fetch";
     Hooks.xhrOpen := Hooks.Native "XMLHttpRequest.prototype.open";
     Hooks.listeners := [("error", Hooks.Native "app.onError")] |}.

Definition browserPage : Page :=
  {| page_window := Some ("https://app.example.com/checkout", 1280, 720);
     page_userAgent := Some "Mozilla/5.0";
     page_now := 1700000000000 |}.


(** * Properties *)

(** ** Ring buffers *)

Section RingBuffer.
Context {A : Type}.
Implicit Types (buf items : list A) (max : Z).

Lemma pushBounded_pos max buf e :
  0 < max ->
  pushBounded max buf e = lastN (Z.to_nat max) (buf ++ [e]).
Proof.
  intros Hmax. unfold pushBounded, Js.slice, lastN.
  set (p := buf ++ [e]).
  destruct (Z.ltb_spec max (Z.of_nat (length p))) as [Hlt | Hge].
  - assert (Hneg : (- max <? 0) = true) by (apply Z.ltb_lt; lia).
    rewrite Hneg. f_equal. lia.
  - replace (length p - Z.to_nat max)%nat with 0%nat by lia. reflexivity.
Qed.

(** With a maximum of zero the test [length > 0] succeeds, but
    [slice(-0)] is [slice(0)]: nothing is dropped. *)
Lemma pushBounded_zero buf e : pushBounded 0 buf e = buf ++ [e].
Proof.
  unfold pushBounded, Js.slice. simpl.
  destruct (0 <? Z.of_nat (length (buf ++ [e]))); [| reflexivity].
  rewrite Z.min_l by lia. reflexivity.
Qed.

Lemma lastN_length k (l : list A) : length (lastN k l) = Nat.min k (length l).
Proof. unfold lastN. rewrite length_drop. lia. Qed.

Lemma lastN_all k (l : list A) : (length l <= k)%nat -> lastN k l = l.
Proof.
  intros Hle. unfold lastN.
  replace (length l - k)%nat with 0%nat by lia. reflexivity.
Qed.

Lemma lastN_app_lastN k (l m : list A) :
  lastN k (lastN k l ++ m) = lastN k (l ++ m).
Proof.
  unfold lastN. rewrite !length_app, length_drop.
  rewrite !drop_app, drop_drop, length_drop.
  f_equal; f_equal; lia.
Qed.

Lemma pushAll_pos max items : forall buf,
  0 < max ->
  (length buf <= Z.to_nat max)%nat ->
  pushAll max buf items = lastN (Z.to_nat max) (buf ++ items).
Proof.
  induction items as [| e items IH]; intros buf Hmax Hlen.
  - simpl. rewrite app_nil_r. symmetry. apply lastN_all. assumption.
  - simpl. rewrite pushBounded_pos by assumption.
    rewrite IH; [| assumption | rewrite lastN_length; lia].
    rewrite lastN_app_lastN. rewrite <- app_assoc. reflexivity.
Qed.

Lemma pushAll_zero items : forall buf, pushAll 0 buf items = buf ++ items.
Proof.
  induction items as [| e items IH]; intros buf; simpl.
  - rewrite app_nil_r. reflexivity.
  - unfold pushAll in *. simpl. rewrite pushBounded_zero, IH.
    rewrite <- app_assoc. reflexivity.
Qed.

Lemma pushBounded_length_le max buf e :
  0 < max ->
  Z.of_nat (length (pushBounded max buf e)) <= max.
Proof.
  intros Hmax. rewrite pushBounded_pos by assumption.
  rewrite lastN_length. lia.
Qed.

End RingBuffer.

Lemma consoleLogs_pushes (items : list ConsoleLogEntry) : forall c,
  consoleLogs (fold_left addConsoleLog items c) =
  pushAll (maxConsoleLogs (options c)) (consoleLogs c) items.
Proof.
  induction items as [| e items IH]; intros c; [reflexivity |].
  simpl. rewrite IH. reflexivity.
Qed.

Lemma networkRequests_pushes (items : list NetworkRequestEntry) : forall c,
  networkRequests (fold_left addNetworkRequest items c) =
  pushAll (maxNetworkRequests (options c)) (networkRequests c) items.
Proof.
  induction items as [| e items IH]; intros c; [reflexivity |].
  simpl. rewrite IH. reflexivity.
Qed.

(** For a capacity of at least one the buffers behave as ring buffers: after
    any pushes into a fresh session each holds the last [K] items pushed, in
    order, and so never more than [K]. *)
Lemma ring_buffer_positive_capacity (o : CaptureOptions)
    (logs : list ConsoleLogEntry) (reqs : list NetworkRequestEntry) :
  0 < maxConsoleLogs o ->
  0 < maxNetworkRequests o ->
  getConsoleLogs (fold_left addConsoleLog logs (newCapture o)) =
    lastN (Z.to_nat (maxConsoleLogs o)) logs /\
  getNetworkRequests (fold_left addNetworkRequest reqs (newCapture o)) =
    lastN (Z.to_nat (maxNetworkRequests o)) reqs.
Proof.
  intros Hc Hn. unfold getConsoleLogs, getNetworkRequests.
  rewrite consoleLogs_pushes, networkRequests_pushes. simpl.
  rewrite !pushAll_pos by (simpl; lia). split; reflexivity.
Qed.

(** The repository's own test: a capacity of two and three messages. *)
Example ring_buffer_two_of_three (a b c : ConsoleLogEntry) :
  getConsoleLogs (fold_left addConsoleLog [a; b; c] (newCapture (withCapacities 2 2)))
  = [b; c].
Proof. reflexivity. Qed.

(** C2, at capacity zero.  The claim asks that after N pushes into a buffer
    of capacity K < N exactly the last K items remain and that the length
    never exceeds K.  With K = 0 the code keeps every item pushed: after N
    pushes the console-log buffer and the network-request buffer hold all N
    items, so one push already leaves a buffer of length 1 above its
    capacity 0. *)
Theorem ring_buffer_capacity_zero_keeps_all
    (logs : list ConsoleLogEntry) (reqs : list NetworkRequestEntry) :
  getConsoleLogs (fold_left addConsoleLog logs (newCapture (withCapacities 0 0)))
    = logs /\
  getNetworkRequests
    (fold_left addNetworkRequest reqs (newCapture (withCapacities 0 0))) = reqs /\
  forall entry,
    Z.of_nat (length (getConsoleLogs
                        (addConsoleLog (newCapture (withCapacities 0 0)) entry)))
    = 1.
Proof.
  unfold getConsoleLogs, getNetworkRequests.
  rewrite consoleLogs_pushes, networkRequests_pushes. simpl.
  rewrite !pushAll_zero. simpl. repeat split.
Qed.

(** ** Header filtering *)

Lemma existsb_false_forall {A} (f : A -> bool) (l : list A) :
  existsb f l = false -> forall x, In x l -> f x = false.
Proof.
  induction l as [| a l IH]; simpl; intros H x Hin; [contradiction |].
  apply orb_false_iff in H as [Ha Hl].
  destruct Hin as [<- | Hin]; [assumption | apply IH; assumption].
Qed.

(** A name that is not sensitive contains no configured parameter and, as
    soon as one parameter is configured, is neither of the two fixed
    names. *)
Lemma isSensitiveHeader_false (opts : CaptureOptions) (name : string) :
  isSensitiveHeader opts name = false ->
  (forall param, In param (sensitiveParams opts) ->
     Js.includes (Js.toLowerCase name) (Js.toLowerCase param) = false) /\
  (sensitiveParams opts <> [] ->
     Js.toLowerCase name <> "authorization" /\ Js.toLowerCase name <> "cookie").
Proof.
  unfold isSensitiveHeader. intros H. split.
  - intros param Hin.
    apply (existsb_false_forall _ _ H) in Hin.
    apply orb_false_iff in Hin as [Hin _].
    apply orb_false_iff in Hin as [Hin _]. exact Hin.
  - intros Hne. destruct (sensitiveParams opts) as [| p ps]; [congruence |].
    simpl in H. apply orb_false_iff in H as [H _].
    apply orb_false_iff in H as [H Hcookie].
    apply orb_false_iff in H as [_ Hauth].
    split; intros Heq; rewrite Heq in *; discriminate.
Qed.

(** A fold that only ever inserts keys satisfying [P] yields a map whose
    keys satisfy [P]. *)
Lemma fold_left_keys {A} (P : string -> Prop)
    (step : gmap string string -> A -> gmap string string) :
  (forall acc x,
     (forall k v, acc !! k = Some v -> P k) ->
     forall k v, step acc x !! k = Some v -> P k) ->
  forall (l : list A) (acc : gmap string string),
    (forall k v, acc !! k = Some v -> P k) ->
    forall k v, fold_left step l acc !! k = Some v -> P k.
Proof.
  intros Hstep. induction l as [| x l IH]; intros acc Hacc k v Hk.
  - eapply Hacc. exact Hk.
  - simpl in Hk. eapply IH; [| exact Hk]. apply Hstep, Hacc.
Qed.

Lemma insert_keys (P : string -> Prop) (acc : gmap string string)
    (key value : string) :
  P key ->
  (forall k v, acc !! k = Some v -> P k) ->
  forall k v, <[key := value]> acc !! k = Some v -> P k.
Proof.
  intros Hkey Hacc k v Hk.
  destruct (decide (key = k)) as [<- | Hne]; [exact Hkey |].
  rewrite lookup_insert_ne in Hk by exact Hne. eapply Hacc. exact Hk.
Qed.

Lemma empty_keys (P : string -> Prop) :
  forall k v, (∅ : gmap string string) !! k = Some v -> P k.
Proof. intros k v Hk. rewrite lookup_empty in Hk. discriminate. Qed.

Lemma headersToObject_keys (opts : CaptureOptions)
    (headers : list (string * string)) (k v : string) :
  headersToObject opts headers !! k = Some v ->
  isSensitiveHeader opts k = false.
Proof.
  unfold headersToObject.
  apply (fold_left_keys (fun k => isSensitiveHeader opts k = false));
    [| apply empty_keys].
  intros acc [key value] Hacc. simpl.
  destruct (isSensitiveHeader opts key) eqn:Hs; [exact Hacc |].
  apply insert_keys; assumption.
Qed.

Lemma plainToObject_keys (opts : CaptureOptions)
    (entries : list (string * option string)) (k v : string) :
  plainToObject opts entries !! k = Some v ->
  isSensitiveHeader opts k = false.
Proof.
  unfold plainToObject.
  apply (fold_left_keys (fun k => isSensitiveHeader opts k = false));
    [| apply empty_keys].
  intros acc [key [value |]] Hacc; simpl; [| exact Hacc].
  destruct (isSensitiveHeader opts key) eqn:Hs; [exact Hacc |].
  apply insert_keys; assumption.
Qed.

Lemma extractHeaders_keys (opts : CaptureOptions) (headers : option HeadersInit)
    (m : gmap string string) (k v : string) :
  extractHeaders opts headers = Some m ->
  m !! k = Some v ->
  isSensitiveHeader opts k = false.
Proof.
  unfold extractHeaders, nonEmptyOrUndefined.
  destruct headers as [[entries | entries] |]; [| | discriminate];
    case_decide; intros Hm Hk; try discriminate; injection Hm as <-.
  - eapply headersToObject_keys. exact Hk.
  - eapply plainToObject_keys. exact Hk.
Qed.

Lemma getXHRResponseHeaders_keys (opts : CaptureOptions)
    (lines : option (list (string * list string)))
    (m : gmap string string) (k v : string) :
  getXHRResponseHeaders opts lines = Some m ->
  m !! k = Some v ->
  isSensitiveHeader opts k = false.
Proof.
  unfold getXHRResponseHeaders, nonEmptyOrUndefined.
  destruct lines as [lines |]; [| discriminate].
  case_decide; [discriminate |]. intros Hm. injection Hm as <-.
  apply (fold_left_keys (fun k => isSensitiveHeader opts k = false));
    [| apply empty_keys].
  intros acc [key parts] Hacc. simpl.
  destruct (isSensitiveHeader opts key) eqn:Hs;
    [rewrite andb_false_r; exact Hacc |].
  destruct (_ && _); [| exact Hacc].
  apply insert_keys; assumption.
Qed.

(** With at least one sensitive parameter configured, no recorded header map
    holds a header the policy names. *)
Lemma filtered_headers_clean (opts : CaptureOptions)
    (headers : list (string * string)) (k v : string) :
  sensitiveParams opts <> [] ->
  headersToObject opts headers !! k = Some v ->
  Js.toLowerCase k <> "authorization" /\
  Js.toLowerCase k <> "cookie" /\
  forall param, In param (sensitiveParams opts) ->
    Js.includes (Js.toLowerCase k) (Js.toLowerCase param) = false.
Proof.
  intros Hne Hk. apply headersToObject_keys in Hk.
  apply isSensitiveHeader_false in Hk as [Hincl Hfixed].
  destruct (Hfixed Hne) as [Ha Hc]. auto.
Qed.

(** C8, with an empty sensitive-parameter list.  The claim asks that no
    recorded header map ever holds a header named Authorization or Cookie.
    The two fixed names are tested inside the callback that runs once per
    configured parameter, so with [sensitiveParams = []] nothing is
    sensitive: a successful fetch that sends [Authorization] and whose
    response carries [authorization] and [cookie] is recorded with all three
    headers and their values. *)
Theorem empty_sensitive_list_keeps_authorization :
  isSensitiveHeader (withSensitive []) "Authorization" = false /\
  isSensitiveHeader (withSensitive []) "cookie" = false /\
  let init := {| init_method := None;
                 init_headers :=
                   Some (PlainObject [("Authorization", Some "Bearer s3cret")]) |} in
  let response :=
    okResponse [("authorization", "Bearer s3cret"); ("cookie", "sid=42")] in
  let self := fst (fetchWrapper SimpleUrl.parse (newCapture (withSensitive []))
                     10 25 (InfoString "https://api.example.com/me") (Some init)
                     (Resolves response)) in
  exists entry,
    getNetworkRequests self = [entry] /\
    (net_requestHeaders entry ≫= fun m => m !! "Authorization")
      = Some "Bearer s3cret" /\
    (net_responseHeaders entry ≫= fun m => m !! "authorization")
      = Some "Bearer s3cret" /\
    (net_responseHeaders entry ≫= fun m => m !! "cookie") = Some "sid=42".
Proof.
  split; [reflexivity |]. split; [reflexivity |].
  eexists. split; [vm_compute; reflexivity |].
  repeat split; vm_compute; reflexivity.
Qed.

(** ** Query-parameter redaction *)

Section SearchParams.
Implicit Types (l : list (string * string)) (name k v : string).

Lemma has_true l name :
  Url.has l name = true <-> exists v, In (name, v) l.
Proof.
  unfold Url.has. rewrite existsb_exists. split.
  - intros [[k v] [Hin Heq]]. simpl in Heq.
    apply String.eqb_eq in Heq. subst. eauto.
  - intros [v Hin]. exists (name, v). split; [exact Hin |].
    simpl. apply String.eqb_refl.
Qed.

Lemma removeAll_In l name k v :
  In (k, v) (Url.removeAll name l) <-> In (k, v) l /\ k <> name.
Proof.
  unfold Url.removeAll. rewrite filter_In. simpl.
  rewrite negb_true_iff, String.eqb_neq. reflexivity.
Qed.

(** What [set] leaves in the list. *)
Lemma set_In l name value k v :
  In (k, v) (Url.set l name value) ->
  (k = name /\ v = value) \/ (k <> name /\ In (k, v) l).
Proof.
  induction l as [| [k0 v0] l IH]; simpl.
  - intros [H | []]. injection H as <- <-. left. auto.
  - destruct (String.eqb_spec k0 name) as [-> | Hne]; simpl.
    + intros [H | H].
      * injection H as <- <-. left. auto.
      * apply removeAll_In in H as [H Hk]. right. auto.
    + intros [H | H].
      * injection H as <- <-. right. auto.
      * destruct (IH H) as [? | [? ?]]; [left | right]; auto.
Qed.

Lemma filter_removeAll_other (f : string * string -> bool) l name :
  (forall v, f (name, v) = false) ->
  List.filter f (Url.removeAll name l) = List.filter f l.
Proof.
  intros Hf. induction l as [| [k0 v0] l IH]; simpl; [reflexivity |].
  destruct (String.eqb_spec k0 name) as [-> | Hne]; simpl.
  - rewrite Hf. exact IH.
  - rewrite IH. reflexivity.
Qed.

(** [set] on a name that is present leaves every differently named pair
    where it was. *)
Lemma filter_set_other (f : string * string -> bool) l name value :
  (forall v, f (name, v) = false) ->
  Url.has l name = true ->
  List.filter f (Url.set l name value) = List.filter f l.
Proof.
  intros Hf. induction l as [| [k0 v0] l IH]; simpl; [discriminate |].
  destruct (String.eqb_spec k0 name) as [-> | Hne]; simpl.
  - intros _. rewrite !Hf. apply filter_removeAll_other. exact Hf.
  - intros Hhas. rewrite IH by exact Hhas. reflexivity.
Qed.

Lemma has_removeAll_other l name k :
  k <> name -> Url.has (Url.removeAll name l) k = Url.has l k.
Proof.
  intros Hne. induction l as [| [k0 v0] l IH]; simpl; [reflexivity |].
  destruct (String.eqb_spec k0 name) as [-> | Hne0]; simpl.
  - rewrite IH. destruct (String.eqb_spec name k); [congruence | reflexivity].
  - rewrite IH. reflexivity.
Qed.

(** [set] on a name that is present neither adds nor loses a key. *)
Lemma has_set l name value k :
  Url.has l name = true ->
  Url.has (Url.set l name value) k = Url.has l k.
Proof.
  induction l as [| [k0 v0] l IH]; simpl; [discriminate |].
  destruct (String.eqb_spec k0 name) as [-> | Hne]; simpl.
  - intros _. destruct (String.eqb_spec name k) as [-> | Hk]; [reflexivity |].
    simpl. apply has_removeAll_other. congruence.
  - intros Hhas. rewrite IH by exact Hhas. reflexivity.
Qed.

End SearchParams.

Section RedactList.
Implicit Types (l : list (string * string)) (ps : list string).

Lemma redactList_cons p ps l :
  redactList (p :: ps) l =
  redactList ps (if Url.has l p then Url.set l p REDACTED else l).
Proof. reflexivity. Qed.

Lemma redactList_has ps : forall l k,
  Url.has (redactList ps l) k = Url.has l k.
Proof.
  induction ps as [| p ps IH]; intros l k; [reflexivity |].
  rewrite redactList_cons, IH.
  destruct (Url.has l p) eqn:Hp; [| reflexivity].
  apply has_set. exact Hp.
Qed.

Lemma redactList_other (f : string * string -> bool) ps : forall l,
  (forall p v, In p ps -> f (p, v) = false) ->
  List.filter f (redactList ps l) = List.filter f l.
Proof.
  induction ps as [| p ps IH]; intros l Hf; [reflexivity |].
  rewrite redactList_cons, IH by (intros; apply Hf; right; assumption).
  destruct (Url.has l p) eqn:Hp; [| reflexivity].
  apply filter_set_other; [| exact Hp].
  intros v. apply Hf. left. reflexivity.
Qed.

Lemma redactList_redacted ps : forall l (done : list string),
  (forall k v, In (k, v) l -> In k done -> v = REDACTED) ->
  forall k v, In (k, v) (redactList ps l) -> In k (done ++ ps) -> v = REDACTED.
Proof.
  induction ps as [| p ps IH]; intros l done Hdone k v Hin Hk.
  - rewrite app_nil_r in Hk. simpl in Hin. apply (Hdone k v Hin Hk).
  - rewrite redactList_cons in Hin.
    refine (IH (if Url.has l p then Url.set l p REDACTED else l)
               (done ++ [p]) _ k v Hin _).
    + intros k' v' Hin' Hk'.
      destruct (Url.has l p) eqn:Hp.
      * apply set_In in Hin' as [[-> ->] | [Hne Hin']]; [reflexivity |].
        apply in_app_or in Hk' as [Hk' | [<- | []]]; [| congruence].
        apply (Hdone k' v' Hin' Hk').
      * apply in_app_or in Hk' as [Hk' | [<- | []]].
        -- apply (Hdone k' v' Hin' Hk').
        -- assert (Url.has l p = true) by (apply has_true; eauto). congruence.
    + rewrite <- app_assoc. exact Hk.
Qed.

Lemma redactList_absent ps : forall l,
  existsb (Url.has l) ps = false -> redactList ps l = l.
Proof.
  induction ps as [| p ps IH]; intros l H; [reflexivity |].
  simpl in H. apply orb_false_iff in H as [Hp Hps].
  rewrite redactList_cons, Hp. apply IH. exact Hps.
Qed.

Lemma withParams_withParams u l1 l2 :
  Url.withParams (Url.withParams u l1) l2 = Url.withParams u l2.
Proof. reflexivity. Qed.

(** The URL object after the [forEach]: untouched when no configured name
    occurs as a key, otherwise rewritten from the redacted list. *)
Lemma fold_redactParam ps : forall u,
  fold_left redactParam ps u =
  if existsb (Url.has (Url.params u)) ps
  then Url.withParams u (redactList ps (Url.params u))
  else u.
Proof.
  induction ps as [| p ps IH]; intros u; [reflexivity |].
  simpl fold_left. rewrite IH. rewrite redactList_cons.
  unfold redactParam. simpl existsb.
  destruct (Url.has (Url.params u) p) eqn:Hp; simpl.
  - rewrite withParams_withParams.
    destruct (existsb (Url.has (Url.set (Url.params u) p REDACTED)) ps) eqn:He;
      [reflexivity |].
    rewrite (redactList_absent _ _ He). reflexivity.
  - reflexivity.
Qed.

End RedactList.

(** C5, as the code has it.  For a URL that parses, the configured names are
    compared with the query keys exactly (case-sensitively, whole key): when
    none occurs the URL object is serialized as parsed; otherwise the query
    is rewritten from a list in which every parameter whose key is a
    configured name has the redaction marker as its value, every parameter
    whose key is not a configured name is kept with its value and in its
    order, and no key is lost or added. *)
Theorem sanitizeUrl_exact_keys (parseURL : string -> option Url.URL)
    (opts : CaptureOptions) (url : string) (urlObj : Url.URL) :
  parseURL url = Some urlObj ->
  let out := redactList (sensitiveParams opts) (Url.params urlObj) in
  sanitizeUrl parseURL opts url =
    (if existsb (Url.has (Url.params urlObj)) (sensitiveParams opts)
     then Url.href (Url.withParams urlObj out)
     else Url.href urlObj) /\
  (forall k v, In (k, v) out -> exactMatch opts k = true -> v = REDACTED) /\
  List.filter (fun p => negb (exactMatch opts (fst p))) out =
    List.filter (fun p => negb (exactMatch opts (fst p))) (Url.params urlObj) /\
  (forall k, Url.has out k = Url.has (Url.params urlObj) k).
Proof.
  intros Hparse out. unfold sanitizeUrl. rewrite Hparse, fold_redactParam.
  split; [destruct (existsb _ _); reflexivity |].
  split; [| split].
  - intros k v Hin Hk.
    apply (redactList_redacted (sensitiveParams opts) (Url.params urlObj) [])
      with (k := k); [intros ? ? ? [] | exact Hin |].
    simpl. unfold exactMatch in Hk. apply existsb_exists in Hk as [p [Hp Heq]].
    apply String.eqb_eq in Heq. subst. exact Hp.
  - apply redactList_other. intros p v Hp. simpl.
    apply negb_false_iff. unfold exactMatch. apply existsb_exists.
    exists p. split; [exact Hp | apply String.eqb_refl].
  - intros k. apply redactList_has.
Qed.

Lemma sanitizeUrl_exact_keys_witness :
  sanitizeUrl SimpleUrl.parse defaultOptions
    "https://x/y?token=abc&data=safe&token=again" =
  "https://x/y?token=%5BREDACTED%5D&data=safe".
Proof.
  destruct (sanitizeUrl_exact_keys SimpleUrl.parse defaultOptions
              "https://x/y?token=abc&data=safe&token=again" _ eq_refl)
    as [H _].
  rewrite H. reflexivity.
Defined.

(** C5, as the specification words it, fails: under the default list the key
    [access_token] contains [token] and the key [Token] equals it up to case,
    yet both values are stored as they came. *)
Lemma sanitizeUrl_ignores_substring_match :
  ~ redacts_by_substring /\
  substringMatch defaultOptions "access_token" = true /\
  substringMatch defaultOptions "Token" = true /\
  sanitizeUrl SimpleUrl.parse defaultOptions
    "https://x/y?access_token=abc&Token=xyz" =
  "https://x/y?access_token=abc&Token=xyz".
Proof.
  split; [| repeat split].
  intros H.
  specialize (H defaultOptions [("access_token", "abc")] "access_token" "abc").
  simpl in H. discriminate H; [left |]; reflexivity.
Qed.

(** C6, on the claim's own example.  The claim asks that the [token]
    parameter's value be replaced by the redaction marker, which the
    specification calls a literal marker and the repository's test of
    [sanitizeUrl] expects to read [token=[REDACTED]&data=safe] in the
    returned string.  Whenever the platform parser reads
    [https://x/y?token=abc&data=safe] as the path [https://x/y] with the
    parameters [token=abc] and [data=safe], [sanitizeUrl] under the default
    options returns [https://x/y?token=%5BREDACTED%5D&data=safe]:
    [searchParams.set] writes the query back form-encoded, so the marker is
    nowhere in the string.  The other half of the claim holds: a string the
    parser rejects is returned unchanged, for any options. *)
Theorem sanitizeUrl_marker_is_percent_encoded
    (parseURL : string -> option Url.URL) :
  parseURL "https://x/y?token=abc&data=safe" =
    Some {| Url.base := "https://x/y";
            Url.query := Some "token=abc&data=safe";
            Url.params := [("token", "abc"); ("data", "safe")];
            Url.hash := "" |} ->
  let sanitized :=
    sanitizeUrl parseURL defaultOptions "https://x/y?token=abc&data=safe" in
  sanitized = "https://x/y?token=%5BREDACTED%5D&data=safe" /\
  sanitized <> "https://x/y?token=[REDACTED]&data=safe" /\
  Js.includes sanitized REDACTED = false /\
  Js.includes sanitized "data=safe" = true /\
  (forall opts url, parseURL url = None -> sanitizeUrl parseURL opts url = url).
Proof.
  intros Hparse sanitized.
  assert (Hs : sanitized = "https://x/y?token=%5BREDACTED%5D&data=safe").
  { unfold sanitized, sanitizeUrl. rewrite Hparse. reflexivity. }
  rewrite Hs. split_and!.
  - reflexivity.
  - discriminate.
  - reflexivity.
  - reflexivity.
  - intros opts url Hnone. unfold sanitizeUrl. rewrite Hnone. reflexivity.
Qed.

Lemma sanitizeUrl_example_witness :
  sanitizeUrl SimpleUrl.parse defaultOptions "https://x/y?token=abc&data=safe" =
    "https://x/y?token=%5BREDACTED%5D&data=safe" /\
  sanitizeUrl SimpleUrl.parse defaultOptions "http://" = "http://".
Proof.
  destruct (sanitizeUrl_marker_is_percent_encoded SimpleUrl.parse eq_refl)
    as (H1 & _ & _ & _ & H5).
  split; [exact H1 | apply H5; reflexivity].
Defined.

(** ** The fetch wrapper *)

Lemma pushBounded_last {A} (max : Z) (buf : list A) (e : A) :
  0 < max -> last (pushBounded max buf e) = Some e.
Proof.
  intros Hmax. rewrite pushBounded_pos by assumption. unfold lastN.
  rewrite length_app. simpl.
  rewrite drop_app_le by lia. apply last_snoc.
Qed.

(** C10, as the code has it.  For a fetch whose URL is not excluded and whose
    underlying call rejects, the wrapper records one entry with the numeric
    status [0], the error's message (or ["Network error"] when the thrown
    value is not an [Error]), the sanitized URL, the method and the elapsed
    time, and rejects with the very value the underlying call rejected with;
    with a positive capacity that entry is the newest in the buffer. *)
Theorem failed_fetch_recorded_and_rethrown
    (parseURL : string -> option Url.URL) (self : Capture)
    (startTime endTime : Z) (input : RequestInfo) (init : option RequestInit)
    (error : Js.Thrown) :
  fst (shouldExcludeUrl (options self) (inputUrl input)) = false ->
  let recorded :=
    failedEntry parseURL self startTime endTime input init error in
  let tested := afterTest self (inputUrl input) in
  fetchWrapper parseURL self startTime endTime input init (Rejects error) =
    (addNetworkRequest tested recorded, Rejects error) /\
  consoleLogs tested = consoleLogs self /\
  networkRequests tested = networkRequests self /\
  net_status recorded = Some 0 /\
  net_error recorded =
    Some (match error with
          | Js.ThrownError message => message
          | Js.ThrownValue _ => "Network error"
          end) /\
  (0 < maxNetworkRequests (options self) ->
   last (getNetworkRequests (addNetworkRequest tested recorded)) = Some recorded).
Proof.
  intros Hex recorded tested. unfold fetchWrapper. rewrite Hex.
  split; [reflexivity |]. split; [reflexivity |]. split; [reflexivity |].
  split; [reflexivity |].
  split; [destruct error; reflexivity |].
  intros Hmax. unfold getNetworkRequests, addNetworkRequest. simpl.
  apply pushBounded_last. exact Hmax.
Qed.

Lemma failed_fetch_witness :
  snd (fetchWrapper SimpleUrl.parse (newCapture defaultOptions) 100 130
         (InfoString "https://api.example.com/items?token=abc") None
         (Rejects (Js.ThrownError "Failed to fetch")))
  = Rejects (Js.ThrownError "Failed to fetch").
Proof.
  destruct (failed_fetch_recorded_and_rethrown SimpleUrl.parse
              (newCapture defaultOptions) 100 130
              (InfoString "https://api.example.com/items?token=abc") None
              (Js.ThrownError "Failed to fetch") eq_refl) as [H _].
  rewrite H. reflexivity.
Defined.

(** C10, as the specification words it, fails: the entry recorded for a
    rejected fetch carries the status [0], not an absent status. *)
Lemma failed_fetch_status_is_zero :
  ~ failed_fetch_has_no_status /\
  net_status <$>
    last (getNetworkRequests
            (fst (fetchWrapper SimpleUrl.parse (newCapture defaultOptions) 100 130
                    (InfoString "https://api.example.com/items") None
                    (Rejects (Js.ThrownError "Failed to fetch")))))
  = Some (Some 0).
Proof.
  split; [| reflexivity].
  intros H.
  destruct (H SimpleUrl.parse (newCapture defaultOptions) 100 130
              (InfoString "https://api.example.com/items") None
              (Js.ThrownError "Failed to fetch") eq_refl)
    as [entry [Hlast Hstatus]].
  vm_compute in Hlast. injection Hlast as <-. discriminate Hstatus.
Qed.

(** ** Screenshot acquisition *)

Section ScreenshotProofs.
Import Screenshot.
Implicit Types (doc d : list Element) (els : list nat) (m : gmap nat string).

Lemma withDisplay_own (e : Element) :
  withDisplay (Js.or_default (Some (el_display e)) "") (withDisplay "none" e) = e.
Proof.
  destruct e as [sels disp]. unfold withDisplay. simpl.
  destruct (String.eqb_spec disp ""); subst; reflexivity.
Qed.

Lemma setDisplay_lookup d a v i :
  setDisplay d a v !! i =
  if decide (i = a) then withDisplay v <$> d !! i else d !! i.
Proof.
  unfold setDisplay. rewrite list_lookup_alter.
  destruct (decide (a = i)) as [Heq | Hne];
    destruct (decide (i = a)) as [Heq' | Hne']; congruence.
Qed.

Lemma restoreAll_lookup els m : forall d i,
  restoreAll els m d !! i =
  if decide (i ∈ els)
  then withDisplay (Js.or_default (m !! i) "") <$> d !! i
  else d !! i.
Proof.
  induction els as [| a els IH]; intros d i.
  - simpl. destruct (decide (i ∈ [])) as [Hin | _]; [| reflexivity].
    inversion Hin.
  - unfold restoreAll in *. simpl fold_left. rewrite IH, setDisplay_lookup.
    destruct (decide (i = a)) as [-> | Hne].
    + destruct (decide (a ∈ a :: els)) as [_ | Hn]; [| exfalso; apply Hn; left].
      destruct (decide (a ∈ els)); [| reflexivity].
      destruct (d !! a); reflexivity.
    + destruct (decide (i ∈ els)) as [Hin | Hnin];
        destruct (decide (i ∈ a :: els)) as [Hin' | Hnin']; try reflexivity.
      * exfalso. apply Hnin'. right. exact Hin.
      * exfalso. apply elem_of_cons in Hin' as [? | ?]; contradiction.
Qed.

Lemma getDisplay_setDisplay_ne d a v i :
  i <> a -> getDisplay (setDisplay d a v) i = getDisplay d i.
Proof.
  intros Hne. unfold getDisplay. rewrite setDisplay_lookup.
  destruct (decide (i = a)); [contradiction | reflexivity].
Qed.

Lemma hideAll_lookup els : NoDup els -> forall d m0 i,
  fst (fold_left hideStep els (d, m0)) !! i =
    (if decide (i ∈ els) then withDisplay "none" <$> d !! i else d !! i) /\
  snd (fold_left hideStep els (d, m0)) !! i =
    (if decide (i ∈ els) then Some (getDisplay d i) else m0 !! i).
Proof.
  induction 1 as [| a els Ha Hnd IH]; intros d m0 i.
  - simpl. destruct (decide (i ∈ [])) as [Hin | _]; [inversion Hin | auto].
  - change (fold_left hideStep (a :: els) (d, m0))
      with (fold_left hideStep els
              (setDisplay d a "none", <[a := getDisplay d a]> m0)).
    destruct (IH (setDisplay d a "none") (<[a := getDisplay d a]> m0) i)
      as [H1 H2].
    rewrite H1, H2, setDisplay_lookup. clear H1 H2.
    destruct (decide (i = a)) as [-> | Hne].
    + destruct (decide (a ∈ els)) as [Hin | _];
        [exfalso; apply Ha; exact Hin |].
      destruct (decide (a ∈ a :: els)) as [_ | Hn]; [| exfalso; apply Hn; left].
      rewrite lookup_insert_eq. auto.
    + rewrite lookup_insert_ne by congruence.
      rewrite getDisplay_setDisplay_ne by exact Hne.
      destruct (decide (i ∈ els)) as [Hin | Hnin];
        destruct (decide (i ∈ a :: els)) as [Hin' | Hnin']; auto.
      * exfalso. apply Hnin'. right. exact Hin.
      * exfalso. apply elem_of_cons in Hin' as [? | ?]; contradiction.
Qed.

Lemma querySelectorAll_NoDup sels doc : NoDup (querySelectorAll sels doc).
Proof.
  unfold querySelectorAll. apply NoDup_ListNoDup.
  apply List.NoDup_filter, List.seq_NoDup.
Qed.

(** Hiding and then restoring gives back the document. *)
Lemma restore_after_hide els doc :
  NoDup els ->
  restoreAll els (snd (hideAll els doc)) (fst (hideAll els doc)) = doc.
Proof.
  intros Hnd. apply list_eq. intros i.
  rewrite restoreAll_lookup. unfold hideAll.
  destruct (hideAll_lookup els Hnd doc ∅ i) as [H1 H2]. rewrite H1, H2.
  destruct (decide (i ∈ els)) as [_ | _]; [| reflexivity].
  unfold getDisplay. destruct (doc !! i) as [el |]; [| reflexivity].
  simpl. f_equal. apply withDisplay_own.
Qed.

(** When the rasteriser resolves, the call leaves the document as it found
    it, whatever the canvas then does. *)
Lemma captureScreenshot_restores_on_success css doc options raster canvas :
  (forall hidden, raster hidden = RasterResolves canvas) ->
  snd (captureScreenshot css true doc options raster) = doc.
Proof.
  intros Hr. unfold captureScreenshot, run. cbn [negb].
  destruct (css _); [reflexivity |].
  set (els := querySelectorAll _ doc).
  pose proof (restore_after_hide els doc (querySelectorAll_NoDup _ _)) as H.
  destruct (hideAll els doc) as [hidden styles]. simpl in H.
  rewrite Hr. destruct (toDataURL canvas _); simpl; exact H.
Qed.

(** When the rasteriser rejects, every element that matched is left with
    [display: none]. *)
Lemma captureScreenshot_leaves_hidden css doc options raster error i e :
  css (Js.join ", " (defaultExcludeSelectors ++
                     default [] (options ≫= excludeSelectors))) = None ->
  (forall hidden, raster hidden = RasterRejects error) ->
  doc !! i = Some e ->
  matchesAny (defaultExcludeSelectors ++ default [] (options ≫= excludeSelectors))
             e = true ->
  snd (captureScreenshot css true doc options raster) !! i =
    Some (withDisplay "none" e).
Proof.
  intros Hcss Hr Hi Hm. unfold captureScreenshot, run. cbn [negb].
  set (sels := defaultExcludeSelectors ++ _) in *.
  rewrite Hcss.
  set (els := querySelectorAll sels doc).
  destruct (hideAll_lookup els (querySelectorAll_NoDup _ _) doc ∅ i) as [H1 _].
  fold (hideAll els doc) in H1.
  destruct (hideAll els doc) as [hidden styles]. simpl in H1.
  rewrite Hr. simpl. rewrite H1.
  destruct (decide (i ∈ els)) as [_ | Hn]; [rewrite Hi; reflexivity |].
  exfalso. apply Hn. apply list_elem_of_In.
  unfold els, querySelectorAll. apply filter_In. split.
  - apply in_seq. apply lookup_lt_Some in Hi. lia.
  - rewrite Hi. exact Hm.
Qed.

End ScreenshotProofs.

(** C3, when the raster capture throws.  The claim asks that every element
    hidden for the capture has its original [display] back when the call
    returns, also when the capture fails.  The restoring loop follows the
    awaited capture inside the [try], and the [catch] only logs: on the
    sample page a rejected capture returns no screenshot and leaves the
    private block and the popup at [display: none] instead of [block] and
    [flex], while a capture that resolves returns the page as it was. *)
Theorem screenshot_failure_leaves_elements_hidden :
  let failing := fun _ => Screenshot.RasterRejects (Js.ThrownError "Capture failed") in
  let working := fun _ => Screenshot.RasterResolves pngCanvas in
  fst (Screenshot.captureScreenshot sampleCss true samplePage None failing) = None /\
  map Screenshot.el_display
      (snd (Screenshot.captureScreenshot sampleCss true samplePage None failing))
    = ["none"; ""; "none"] /\
  map Screenshot.el_display samplePage = ["block"; ""; "flex"] /\
  snd (Screenshot.captureScreenshot sampleCss true samplePage None working)
    = samplePage.
Proof. repeat split; vm_compute; reflexivity. Qed.

(** ** Retry and backoff ([makeRequest]) *)

Section MakeRequest.
Variable net : nat -> FetchOutcome.
Variable url : string.

Lemma countFetch_app t1 t2 :
  countFetch (t1 ++ t2) = (countFetch t1 + countFetch t2)%nat.
Proof. unfold countFetch. rewrite List.filter_app, length_app. reflexivity. Qed.

Lemma countFetch_failedTrace retries n : forall i,
  countFetch (failedTrace url retries n i) = n.
Proof.
  induction n as [| n IH]; intros i; [reflexivity |].
  simpl failedTrace.
  change (EvFetch url :: ?t) with ([EvFetch url] ++ t).
  rewrite !countFetch_app, IH.
  destruct (i <? retries - 1)%nat; reflexivity.
Qed.

(** A run of failing attempts: every one of them calls [fetch], and the
    error thrown at the end is the one of the last attempt. *)
Lemma makeRequestLoop_all_fail retries n : forall i lastError trace,
  (forall j, (i <= j < i + n)%nat -> fails (net j) = true) ->
  makeRequestLoop net url retries n i lastError trace =
  (inr (match n with
        | O => default "Request failed after retries" lastError
        | S _ => failureText (net (i + n - 1))
        end),
   trace ++ failedTrace url retries n i).
Proof.
  induction n as [| n IH]; intros i lastError trace Hfail.
  - simpl. rewrite app_nil_r. reflexivity.
  - assert (Hi : fails (net i) = true) by (apply Hfail; lia).
    assert (Hstep : makeRequestLoop net url retries (S n) i lastError trace =
                    makeRequestLoop net url retries n (S i)
                      (Some (failureText (net i)))
                      ((trace ++ [EvFetch url]) ++
                       (if (i <? retries - 1)%nat
                        then [EvSleep (2 ^ Z.of_nat i * 1000)] else []))).
    { simpl. destruct (net i) as [response | error]; simpl in *.
      - apply negb_true_iff in Hi. rewrite Hi.
        destruct (i <? retries - 1)%nat; [| rewrite app_nil_r]; reflexivity.
      - destruct (i <? retries - 1)%nat; [| rewrite app_nil_r]; reflexivity. }
    rewrite Hstep, IH by (intros j Hj; apply Hfail; lia).
    f_equal.
    + destruct n as [| n'].
      * replace (i + 1 - 1)%nat with i by lia. reflexivity.
      * replace (S i + S n' - 1)%nat with (i + S (S n') - 1)%nat by lia.
        reflexivity.
    + simpl failedTrace. rewrite <- !app_assoc. reflexivity.
Qed.

Lemma makeRequest_all_fail retries :
  (0 < retries)%nat ->
  (forall j, (j < retries)%nat -> fails (net j) = true) ->
  makeRequest net url retries =
    (inr (failureText (net (retries - 1))), failedTrace url retries retries 0).
Proof.
  intros Hpos Hfail. unfold makeRequest.
  rewrite makeRequestLoop_all_fail by (intros j Hj; apply Hfail; lia).
  destruct retries; [lia |]. reflexivity.
Qed.


(** A first response that is [ok] ends the loop after one call. *)
Lemma makeRequest_first_time retries response :
  (0 < retries)%nat ->
  net 0%nat = Resolves response ->
  resp_ok response = true ->
  makeRequest net url retries = (inl response, [EvFetch url]).
Proof.
  intros Hpos H0 Hok. unfold makeRequest.
  destruct retries; [lia |]. simpl. rewrite H0, Hok. reflexivity.
Qed.

End MakeRequest.

(** *** The adapters, once their request can be built *)

Lemma webhook_direct_submit (platform : Platform) (isValidUrl : string -> bool)
    (net : nat -> FetchOutcome) (data : BugReportData) (d : Webhook.Direct)
    (url : string) :
  Webhook.d_url d = Some url ->
  isValidUrl url = true ->
  bodyBuilt platform data d ->
  Webhook.submit platform isValidUrl net data (Webhook.DirectMode d) =
    Webhook.answer (makeRequest net url (Webhook.retriesOf (Webhook.d_retries d))).
Proof.
  intros Hurl Hvalid (payload & headers & body & Hp & Hh & Hb).
  unfold Webhook.submit, Webhook.validateConfig.
  rewrite Hurl, Hvalid, Hp, Hh, Hb. reflexivity.
Qed.

Lemma proxy_submit (platform : Platform) (net : nat -> FetchOutcome)
    (data : BugReportData) (endpoint : string) :
  reportSerialises platform data ->
  submitViaProxy platform net data endpoint =
    proxyAnswer (makeRequest net endpoint 3).
Proof. intros [body Hb]. unfold submitViaProxy. rewrite Hb. reflexivity. Qed.

Lemma slack_direct_submit (platform : Platform) (net : nat -> FetchOutcome)
    (data : BugReportData) (url : string) :
  Js.includes url "hooks.slack.com" = true ->
  Slack.submit platform net data (Slack.DirectMode (Some url)) =
    match makeRequest net url 3 with
    | (inl _, trace) =>
        ({| success := true; issueId := None; issueUrl := None;
            message := Some "Bug report sent to Slack successfully";
            error := None |}, trace)
    | (inr msg, trace) => (failure msg, trace)
    end.
Proof. intros H. unfold Slack.submit. simpl. rewrite H. reflexivity. Qed.

Lemma discord_direct_submit (platform : Platform) (net : nat -> FetchOutcome)
    (data : BugReportData) (url iso : string) :
  Js.includes url "discord.com/api/webhooks" = true ->
  toISOString platform (timestamp data) = inl iso ->
  Discord.submit platform net data (Discord.DirectMode (Some url)) =
    match makeRequest net url 3 with
    | (inl _, trace) =>
        ({| success := true; issueId := None; issueUrl := None;
            message := Some "Bug report sent to Discord successfully";
            error := None |}, trace)
    | (inr msg, trace) => (failure msg, trace)
    end.
Proof.
  intros H Hiso. unfold Discord.submit. simpl. rewrite H, Hiso. reflexivity.
Qed.

Lemma makeRequest_every_call_fails (net : nat -> FetchOutcome) (url : string)
    (n : nat) :
  (forall j, fails (net j) = true) ->
  makeRequest net url n = (inr (lastFailure net n), failedTrace url n n 0).
Proof.
  intros Hfail. unfold makeRequest.
  rewrite makeRequestLoop_all_fail by (intros j _; apply Hfail).
  destruct n as [| n]; [reflexivity |].
  unfold lastFailure. replace (0 + S n - 1)%nat with n by lia. reflexivity.
Qed.

Lemma failedTrace_sleeps (url : string) (retries n : nat) : forall i k,
  (i <= k)%nat -> (k < i + n)%nat -> (k < retries - 1)%nat ->
  In (EvSleep (2 ^ Z.of_nat k * 1000)) (failedTrace url retries n i).
Proof.
  induction n as [| n IH]; intros i k Hik Hkn Hkr; [lia |].
  simpl failedTrace. right. apply in_or_app.
  destruct (Nat.eq_dec i k) as [-> | Hne].
  - left. apply Nat.ltb_lt in Hkr. rewrite Hkr. left. reflexivity.
  - right. apply IH; lia.
Qed.




(** C4, as the code has it.  A response that is not 2xx is handled like a
    rejected [fetch]: when every call fails, in either way, [makeRequest]
    calls [fetch] once per attempt, waits [2^i * 1000] ms after the failure
    of attempt [i] when another attempt follows, and only then throws the
    last failure; the webhook adapter, the relay path, the Slack adapter and
    the Discord adapter return that failure as an error result after all
    their attempts.  A body that is not JSON on an [ok] response is never
    retried: the relay path returns an error result after that one call, and
    the webhook adapter reads it as an empty object and returns a success
    result after that one call. *)
Theorem failures_retried_until_exhausted (platform : Platform)
    (isValidUrl : string -> bool) (net : nat -> FetchOutcome)
    (data : BugReportData) (d : Webhook.Direct) (url iso : string) :
  (forall j, fails (net j) = true) ->
  let three :=
    [EvFetch url; EvSleep 1000; EvFetch url; EvSleep 2000; EvFetch url] in
  (forall n,
     makeRequest net url n = (inr (lastFailure net n), failedTrace url n n 0) /\
     countFetch (failedTrace url n n 0) = n /\
     (forall i, (i + 1 < n)%nat ->
        In (EvSleep (2 ^ Z.of_nat i * 1000)) (failedTrace url n n 0))) /\
  (Webhook.d_url d = Some url ->
   isValidUrl url = true ->
   bodyBuilt platform data d ->
   let n := Webhook.retriesOf (Webhook.d_retries d) in
   Webhook.submit platform isValidUrl net data (Webhook.DirectMode d) =
     (failure (lastFailure net n), failedTrace url n n 0)) /\
  (reportSerialises platform data ->
   submitViaProxy platform net data url = (failure (lastFailure net 3), three)) /\
  (Js.includes url "hooks.slack.com" = true ->
   Slack.submit platform net data (Slack.DirectMode (Some url)) =
     (failure (lastFailure net 3), three)) /\
  (Js.includes url "discord.com/api/webhooks" = true ->
   toISOString platform (timestamp data) = inl iso ->
   Discord.submit platform net data (Discord.DirectMode (Some url)) =
     (failure (lastFailure net 3), three)) /\
  (forall net' response error,
     net' 0%nat = Resolves response ->
     resp_ok response = true ->
     resp_json response = JsonRejects error ->
     (reportSerialises platform data ->
      submitViaProxy platform net' data url =
        (failure (thrownMessage "Failed to submit via proxy" error),
         [EvFetch url])) /\
     (Webhook.d_url d = Some url ->
      isValidUrl url = true ->
      bodyBuilt platform data d ->
      (0 < Webhook.retriesOf (Webhook.d_retries d))%nat ->
      success (fst (Webhook.submit platform isValidUrl net' data
                      (Webhook.DirectMode d))) = true /\
      snd (Webhook.submit platform isValidUrl net' data (Webhook.DirectMode d))
        = [EvFetch url])).
Proof.
  intros Hfail three.
  assert (Hreq : forall n,
             makeRequest net url n =
               (inr (lastFailure net n), failedTrace url n n 0))
    by (intros n; apply makeRequest_every_call_fails, Hfail).
  split_and!.
  - intros n. split_and!.
    + apply Hreq.
    + apply countFetch_failedTrace.
    + intros i Hi. apply failedTrace_sleeps; lia.
  - intros Hurl Hvalid Hbuilt n.
    rewrite (webhook_direct_submit _ _ _ _ _ url Hurl Hvalid Hbuilt).
    fold n. rewrite Hreq. reflexivity.
  - intros Hser. rewrite (proxy_submit _ _ _ _ Hser), Hreq. reflexivity.
  - intros Hs. rewrite (slack_direct_submit _ _ _ _ Hs), Hreq. reflexivity.
  - intros Hd Hiso.
    rewrite (discord_direct_submit _ _ _ _ iso Hd Hiso), Hreq. reflexivity.
  - intros net' response error H0 Hok Hjson. split.
    + intros Hser. rewrite (proxy_submit _ _ _ _ Hser).
      rewrite (makeRequest_first_time net' url 3 response) by (try lia; assumption).
      unfold proxyAnswer. rewrite Hjson. reflexivity.
    + intros Hurl Hvalid Hbuilt Hpos.
      rewrite (webhook_direct_submit _ _ _ _ _ url Hurl Hvalid Hbuilt).
      rewrite (makeRequest_first_time net' url _ response Hpos H0 Hok).
      unfold Webhook.answer. rewrite Hjson. split; reflexivity.
Qed.

(** An [ok] response whose body is HTML: one call on either path, an error
    result through the proxy, a success result from the direct webhook. *)
Example malformed_body_not_retried :
  submitViaProxy plainPlatform (fun _ => Resolves htmlBody) sampleReport
    "/api/bug-report" =
    (failure "Unexpected token < in JSON", [EvFetch "/api/bug-report"]) /\
  success (fst (Webhook.submit plainPlatform (fun _ => true)
                  (fun _ => Resolves htmlBody) sampleReport
                  (directTo (Some "https://hooks.example.com/bugs") None None)))
    = true.
Proof. split; reflexivity. Qed.

Lemma failures_retried_witness :
  makeRequest (fun _ => Resolves notFound) "https://hooks.example.com/bugs" 3 =
    (inr "HTTP 404: Not Found",
     [EvFetch "https://hooks.example.com/bugs"; EvSleep 1000;
      EvFetch "https://hooks.example.com/bugs"; EvSleep 2000;
      EvFetch "https://hooks.example.com/bugs"]).
Proof.
  destruct (failures_retried_until_exhausted plainPlatform (fun _ => true)
              (fun _ => Resolves notFound) sampleReport
              {| Webhook.d_url := Some "https://hooks.example.com/bugs";
                 Webhook.d_method := None; Webhook.d_retries := Some 3;
                 Webhook.d_headers := []; Webhook.d_auth := None;
                 Webhook.d_transformPayload := None |}
              "https://hooks.example.com/bugs" ""
              (fun _ => eq_refl)) as [H _].
  destruct (H 3%nat) as [Hreq _]. exact Hreq.
Defined.

(** C4, as the specification words it, fails: a destination that answers
    every call with [404 Not Found] is called three times, with the two
    backoff waits in between, before the error result is returned. *)
Lemma not_found_is_retried :
  ~ non_2xx_not_retried /\
  Webhook.submit plainPlatform (fun _ => true) (fun _ => Resolves notFound)
    sampleReport
    (directTo (Some "https://hooks.example.com/bugs") None None) =
  (failure "HTTP 404: Not Found",
   [EvFetch "https://hooks.example.com/bugs"; EvSleep 1000;
    EvFetch "https://hooks.example.com/bugs"; EvSleep 2000;
    EvFetch "https://hooks.example.com/bugs"]).
Proof.
  split; [| vm_compute; reflexivity].
  intros H.
  specialize (H (fun _ => true) (fun _ => Resolves notFound)
                "https://hooks.example.com/bugs" None None notFound
                eq_refl eq_refl eq_refl).
  vm_compute in H. discriminate H.
Qed.

Section OmapHead.
Context {A B : Type} (f : A -> option B).



End OmapHead.






(** Three destinations of which only the second succeeds: its reference is
    the result.  Three destinations that all fail: three messages. *)
Example dispatch_three_destinations :
  Dispatcher.outcome
    (Dispatcher.handleSubmit oneOfThree true false valid tt None threeConfigured)
  = Dispatcher.Success (created "LIN-7" "https://linear.app/issue/LIN-7") /\
  Dispatcher.outcome
    (Dispatcher.handleSubmit noneOfThree true false valid tt None threeConfigured)
  = Dispatcher.Failure
      "All integrations failed: Bad credentials, Submission failed, Unknown error".
Proof. split; vm_compute; reflexivity. Qed.

(** ** Snapshots are copies *)

Section OmapTotal.
Context {A B : Type}.

Lemma omap_total_length (f : A -> option B) (l : list A) :
  Forall (fun x => is_Some (f x)) l -> length (omap f l) = length l.
Proof.
  induction 1 as [| x l [y Hy] _ IH]; [reflexivity |].
  cbn. rewrite Hy. cbn. rewrite IH. reflexivity.
Qed.

Lemma omap_total_drop (f : A -> option B) (l : list A) : forall k,
  Forall (fun x => is_Some (f x)) l ->
  omap f (drop k l) = drop k (omap f l).
Proof.
  induction l as [| x l IH]; intros k Hall; [destruct k; reflexivity |].
  apply Forall_cons in Hall as [[y Hy] Hall].
  destruct k as [| k]; [reflexivity |].
  cbn. rewrite Hy. cbn. apply IH, Hall.
Qed.

Lemma omap_total_slice (f : A -> option B) (l : list A) (z : Z) :
  Forall (fun x => is_Some (f x)) l ->
  omap f (Js.slice z l) = Js.slice z (omap f l).
Proof.
  intros Hall. unfold Js.slice.
  rewrite (omap_total_length f l Hall). apply omap_total_drop, Hall.
Qed.

Lemma omap_agree (f g : A -> option B) (l : list A) :
  (forall x, x ∈ l -> f x = g x) -> omap f l = omap g l.
Proof.
  induction l as [| x l IH]; intros H; [reflexivity |].
  cbn. rewrite (H x) by (left). rewrite IH; [reflexivity |].
  intros y Hy. apply H. right. exact Hy.
Qed.

End OmapTotal.

Section AliasingProofs.
Import Aliasing.
Implicit Types (h : gmap loc Cell) (c : CaptureRef) (l r : loc) (a : Cell).

Lemma alloc_fresh h a : fst (alloc h a) ∉ dom h.
Proof. unfold alloc. simpl. apply is_fresh. Qed.

Lemma alloc_lookup_new h a : snd (alloc h a) !! fst (alloc h a) = Some a.
Proof. unfold alloc. simpl. apply lookup_insert_eq. Qed.

Lemma alloc_lookup_old h a l :
  l ∈ dom h -> snd (alloc h a) !! l = h !! l.
Proof.
  intros Hl. unfold alloc. simpl. apply lookup_insert_ne.
  intros Heq. apply (is_fresh (dom h)). rewrite Heq. exact Hl.
Qed.

Lemma alloc_dom h a l : l ∈ dom h -> l ∈ dom (snd (alloc h a)).
Proof.
  intros Hl. unfold alloc. simpl. rewrite dom_insert_L.
  apply elem_of_union. right. exact Hl.
Qed.

Lemma alloc_dom_new h a : fst (alloc h a) ∈ dom (snd (alloc h a)).
Proof.
  unfold alloc. simpl. rewrite dom_insert_L.
  apply elem_of_union. left. apply elem_of_singleton. reflexivity.
Qed.

Lemma alloc_ne h a l : l ∈ dom h -> fst (alloc h a) <> l.
Proof. intros Hl Heq. apply (alloc_fresh h a). rewrite Heq. exact Hl. Qed.

Lemma insert_dom h l a l' : l' ∈ dom h -> l' ∈ dom (<[l := a]> h).
Proof.
  intros Hl. rewrite dom_insert_L. apply elem_of_union. right. exact Hl.
Qed.

Lemma lookup_dom h l a : h !! l = Some a -> l ∈ dom h.
Proof. intros H. apply elem_of_dom. exists a. exact H. Qed.

(** Reading through a store that agrees with another. *)
Lemma readLogs_eq h h' l : h' !! l = h !! l -> readLogs h' l = readLogs h l.
Proof. intros H. unfold readLogs. rewrite H. reflexivity. Qed.

Lemma readNet_eq h h' l : h' !! l = h !! l -> readNet h' l = readNet h l.
Proof. intros H. unfold readNet. rewrite H. reflexivity. Qed.

Lemma readLogs_new h l items :
  h !! l = Some (LogArray items) -> readLogs h l = items.
Proof. intros H. unfold readLogs. rewrite H. reflexivity. Qed.

Lemma readNet_new h l items :
  h !! l = Some (NetArray items) -> readNet h l = items.
Proof. intros H. unfold readNet. rewrite H. reflexivity. Qed.

Lemma logValues_eq h h' l :
  h' !! l = h !! l ->
  (forall r, r ∈ readLogs h l -> h' !! r = h !! r) ->
  logValues h' l = logValues h l.
Proof.
  intros Hl Hr. unfold logValues. rewrite (readLogs_eq _ _ _ Hl).
  apply omap_agree. intros r Hin. unfold logAt. rewrite (Hr r Hin).
  reflexivity.
Qed.

Lemma netValues_eq h h' l :
  h' !! l = h !! l ->
  (forall r, r ∈ readNet h l -> h' !! r = h !! r) ->
  netValues h' l = netValues h l.
Proof.
  intros Hl Hr. unfold netValues. rewrite (readNet_eq _ _ _ Hl).
  apply omap_agree. intros r Hin. unfold netAt. rewrite (Hr r Hin).
  reflexivity.
Qed.

(** The entries of the session's buffers are objects apart from the two
    arrays. *)
Lemma buffers_distinct c h :
  ownsBuffers (c, h) ->
  consoleLogsRef c ∈ dom h /\ networkRequestsRef c ∈ dom h /\
  consoleLogsRef c <> networkRequestsRef c.
Proof.
  intros [(li & Hl & _) (ni & Hn & _)]. cbn [fst snd] in *.
  split_and!; [eapply lookup_dom; exact Hl | eapply lookup_dom; exact Hn |].
  intros Heq. rewrite Heq in Hl. congruence.
Qed.

Lemma log_object_apart c h r :
  ownsBuffers (c, h) -> isLogObject h r -> apart (c, h) r.
Proof.
  intros [(li & Hl & _) (ni & Hn & _)] [e He]. cbn [fst snd] in *.
  unfold apart. cbn [fst snd].
  split_and!; [eapply lookup_dom; exact He | |]; intros ->; congruence.
Qed.

Lemma net_object_apart c h r :
  ownsBuffers (c, h) -> isNetObject h r -> apart (c, h) r.
Proof.
  intros [(li & Hl & _) (ni & Hn & _)] [e He]. cbn [fst snd] in *.
  unfold apart. cbn [fst snd].
  split_and!; [eapply lookup_dom; exact He | |]; intros ->; congruence.
Qed.

Lemma log_entries_apart c h r :
  ownsBuffers (c, h) -> r ∈ readLogs h (consoleLogsRef c) -> apart (c, h) r.
Proof.
  intros Hown Hr. apply log_object_apart; [exact Hown |].
  destruct Hown as [(li & Hl & Hall) _]. cbn [fst snd] in *.
  rewrite (readLogs_new _ _ _ Hl) in Hr.
  rewrite Forall_forall in Hall. apply Hall, Hr.
Qed.

Lemma net_entries_apart c h r :
  ownsBuffers (c, h) -> r ∈ readNet h (networkRequestsRef c) -> apart (c, h) r.
Proof.
  intros Hown Hr. apply net_object_apart; [exact Hown |].
  destruct Hown as [_ (ni & Hn & Hall)]. cbn [fst snd] in *.
  rewrite (readNet_new _ _ _ Hn) in Hr.
  rewrite Forall_forall in Hall. apply Hall, Hr.
Qed.

Lemma frames_refl st : frames st st.
Proof. intros l Hl. auto. Qed.

Lemma frames_trans st1 st2 st3 :
  frames st1 st2 -> frames st2 st3 -> frames st1 st3.
Proof.
  intros H12 H23 l Hl. destruct (H12 l Hl) as [Hl2 He2].
  destruct (H23 l Hl2) as [Hl3 He3]. split; [exact Hl3 |].
  etrans; [exact He3 | exact He2].
Qed.

(** An array of entries stays one in a store that keeps it and its
    entries. *)
Lemma isLogArray_kept h h' l :
  isLogArray h l -> h' !! l = h !! l ->
  (forall r, isLogObject h r -> h' !! r = h !! r) ->
  isLogArray h' l.
Proof.
  intros (items & Hl & Hall) Heq Hobj. exists items.
  split; [rewrite Heq; exact Hl |].
  eapply Forall_impl; [exact Hall |].
  intros r [e He]. exists e. rewrite (Hobj r); [exact He |]. exists e. exact He.
Qed.

Lemma isNetArray_kept h h' l :
  isNetArray h l -> h' !! l = h !! l ->
  (forall r, isNetObject h r -> h' !! r = h !! r) ->
  isNetArray h' l.
Proof.
  intros (items & Hl & Hall) Heq Hobj. exists items.
  split; [rewrite Heq; exact Hl |].
  eapply Forall_impl; [exact Hall |].
  intros r [e He]. exists e. rewrite (Hobj r); [exact He |]. exists e. exact He.
Qed.

(** Allocating keeps the session's buffers, their entries, and every
    object apart from them; the new object is apart from them too. *)
Lemma alloc_keeps c h a :
  ownsBuffers (c, h) ->
  ownsBuffers (c, snd (alloc h a)) /\
  frames (c, h) (c, snd (alloc h a)) /\
  apart (c, snd (alloc h a)) (fst (alloc h a)) /\
  snd (alloc h a) !! fst (alloc h a) = Some a /\
  (forall l, l ∈ dom h -> snd (alloc h a) !! l = h !! l).
Proof.
  intros Hown. pose proof (buffers_distinct c h Hown) as (Hc & Hn & Hcn).
  assert (Hold : forall l, l ∈ dom h -> snd (alloc h a) !! l = h !! l)
    by (intros l Hl; apply alloc_lookup_old, Hl).
  destruct Hown as [Hlogs Hnet]. cbn [fst snd] in *.
  split_and!.
  - split; cbn [fst snd].
    + apply (isLogArray_kept h); [exact Hlogs | apply Hold, Hc |].
      intros r [e He]. apply Hold. eapply lookup_dom. exact He.
    + apply (isNetArray_kept h); [exact Hnet | apply Hold, Hn |].
      intros r [e He]. apply Hold. eapply lookup_dom. exact He.
  - intros l (Hl & Hlc & Hln). cbn [fst snd] in *. split.
    + split_and!; cbn [fst snd]; [apply alloc_dom, Hl | exact Hlc | exact Hln].
    + apply Hold, Hl.
  - split_and!; cbn [fst snd];
      [apply alloc_dom_new | apply alloc_ne, Hc | apply alloc_ne, Hn].
  - apply alloc_lookup_new.
  - exact Hold.
Qed.

Lemma buffers_kept c h h' :
  ownsBuffers (c, h) ->
  h' !! consoleLogsRef c = h !! consoleLogsRef c ->
  h' !! networkRequestsRef c = h !! networkRequestsRef c ->
  (forall x, isLogObject h x \/ isNetObject h x -> h' !! x = h !! x) ->
  readLogs h' (consoleLogsRef c) = readLogs h (consoleLogsRef c) /\
  readNet h' (networkRequestsRef c) = readNet h (networkRequestsRef c) /\
  logValues h' (consoleLogsRef c) = logValues h (consoleLogsRef c) /\
  netValues h' (networkRequestsRef c) = netValues h (networkRequestsRef c).
Proof.
  intros Hown Hc Hn Hfr. split_and!.
  - apply readLogs_eq, Hc.
  - apply readNet_eq, Hn.
  - apply logValues_eq; [exact Hc |].
    intros r Hr. apply Hfr. left.
    destruct Hown as [(li & Hl & Hall) _]. cbn [fst snd] in *.
    rewrite (readLogs_new _ _ _ Hl) in Hr.
    rewrite Forall_forall in Hall. apply Hall, Hr.
  - apply netValues_eq; [exact Hn |].
    intros r Hr. apply Hfr. right.
    destruct Hown as [_ (ni & Hl & Hall)]. cbn [fst snd] in *.
    rewrite (readNet_new _ _ _ Hl) in Hr.
    rewrite Forall_forall in Hall. apply Hall, Hr.
Qed.

Lemma alloc_buffers c h a :
  ownsBuffers (c, h) ->
  readLogs (snd (alloc h a)) (consoleLogsRef c) = readLogs h (consoleLogsRef c) /\
  readNet (snd (alloc h a)) (networkRequestsRef c) =
    readNet h (networkRequestsRef c) /\
  logValues (snd (alloc h a)) (consoleLogsRef c) =
    logValues h (consoleLogsRef c) /\
  netValues (snd (alloc h a)) (networkRequestsRef c) =
    netValues h (networkRequestsRef c).
Proof.
  intros Hown. pose proof (buffers_distinct c h Hown) as (Hc & Hn & _).
  destruct (alloc_keeps c h a Hown) as (_ & Hfr & _ & _ & Hold).
  apply buffers_kept; [exact Hown | apply Hold, Hc | apply Hold, Hn |].
  intros x [[e He] | [e He]]; apply Hold; eapply lookup_dom; exact He.
Qed.

(** The values behind a list of references all of which are entries. *)
Lemma logAt_total h items :
  Forall (isLogObject h) items -> Forall (fun r => is_Some (logAt h r)) items.
Proof.
  intros H. eapply Forall_impl; [exact H |].
  intros r [e He]. exists e. unfold logAt. rewrite He. reflexivity.
Qed.

Lemma netAt_total h items :
  Forall (isNetObject h) items -> Forall (fun r => is_Some (netAt h r)) items.
Proof.
  intros H. eapply Forall_impl; [exact H |].
  intros r [e He]. exists e. unfold netAt. rewrite He. reflexivity.
Qed.

Lemma Forall_slice {A} (P : A -> Prop) (z : Z) (items : list A) :
  Forall P items -> Forall P (Js.slice z items).
Proof. intros H. unfold Js.slice. apply Forall_drop, H. Qed.

(** [addConsoleLog] on the store and on the values. *)
Lemma addConsoleLog_spec c h r entry :
  ownsBuffers (c, h) ->
  h !! r = Some (LogObject entry) ->
  ownsBuffers (addConsoleLog c r h) /\
  frames (c, h) (addConsoleLog c r h) /\
  logValues (snd (addConsoleLog c r h)) (consoleLogsRef (fst (addConsoleLog c r h)))
    = pushBounded (maxConsoleLogs (optionsOf c))
        (logValues h (consoleLogsRef c)) entry /\
  netValues (snd (addConsoleLog c r h))
            (networkRequestsRef (fst (addConsoleLog c r h)))
    = netValues h (networkRequestsRef c) /\
  optionsOf (fst (addConsoleLog c r h)) = optionsOf c.
Proof.
  intros Hown Hr.
  pose proof (buffers_distinct c h Hown) as (Hc & Hn & Hcn).
  assert (Hrap : apart (c, h) r)
    by (apply log_object_apart; [exact Hown | exists entry; exact Hr]).
  destruct Hrap as (Hrd & Hrc & Hrn). cbn [fst snd] in *.
  pose proof Hown as [(li & Hl & Hall) Hnet]. cbn [fst snd] in *.
  unfold addConsoleLog. rewrite (readLogs_new _ _ _ Hl).
  set (pushed := li ++ [r]).
  set (h1 := <[consoleLogsRef c := LogArray pushed]> h).
  assert (H1ne : forall l, l <> consoleLogsRef c -> h1 !! l = h !! l)
    by (intros l Hne; apply lookup_insert_ne; congruence).
  assert (H1cl : h1 !! consoleLogsRef c = Some (LogArray pushed))
    by apply lookup_insert_eq.
  assert (Hobj1 : forall x, isLogObject h x -> h1 !! x = h !! x).
  { intros x Hx. apply H1ne.
    apply (log_object_apart c h x Hown Hx). }
  assert (Hnobj1 : forall x, isNetObject h x -> h1 !! x = h !! x).
  { intros x Hx. apply H1ne.
    apply (net_object_apart c h x Hown Hx). }
  assert (Hpushed : Forall (isLogObject h1) pushed).
  { apply Forall_app. split.
    - eapply Forall_impl; [exact Hall |].
      intros x [e He]. exists e. rewrite Hobj1; [exact He | exists e; exact He].
    - apply Forall_singleton. exists entry. rewrite H1ne by congruence. exact Hr. }
  assert (Hown1 : ownsBuffers (c, h1)).
  { split; cbn [fst snd].
    - exists pushed. split; [exact H1cl | exact Hpushed].
    - apply (isNetArray_kept h); [exact Hnet | apply H1ne; congruence |].
      exact Hnobj1. }
  assert (Hfr1 : frames (c, h) (c, h1)).
  { intros l (Hl1 & Hlc & Hln). cbn [fst snd] in *. split.
    - split_and!; cbn [fst snd]; [apply insert_dom, Hl1 | exact Hlc | exact Hln].
    - apply H1ne, Hlc. }
  assert (Hvals1 : omap (logAt h1) pushed =
                   logValues h (consoleLogsRef c) ++ [entry]).
  { unfold pushed. rewrite omap_app. f_equal.
    - unfold logValues. rewrite (readLogs_new _ _ _ Hl).
      apply omap_agree. intros x Hx. unfold logAt. rewrite Hobj1; [reflexivity |].
      rewrite Forall_forall in Hall. apply Hall, Hx.
    - cbn. unfold logAt. rewrite H1ne by congruence. rewrite Hr. reflexivity. }
  assert (Hnet1 : netValues h1 (networkRequestsRef c) =
                  netValues h (networkRequestsRef c)).
  { apply netValues_eq; [apply H1ne; congruence |].
    intros x Hx. apply H1ne.
    apply (net_entries_apart c h x Hown Hx). }
  assert (Hlen : length pushed = length (logValues h (consoleLogsRef c) ++ [entry])).
  { rewrite <- Hvals1. symmetry. apply omap_total_length, logAt_total, Hpushed. }
  unfold pushBounded. rewrite <- Hlen.
  destruct (maxConsoleLogs (optionsOf c) <? Z.of_nat (length pushed)).
  - set (a := LogArray (Js.slice (- maxConsoleLogs (optionsOf c)) pushed)).
    destruct (alloc_keeps c h1 a Hown1) as (Hown2 & Hfr2 & Hap2 & Hnew2 & Hold2).
    destruct (alloc_buffers c h1 a Hown1) as (_ & _ & _ & Hnet2).
    pose proof (alloc_ne h1 a) as Hfresh.
    destruct (alloc h1 a) as [l' h2].
    cbn [fst snd consoleLogsRef networkRequestsRef optionsOf] in *.
    destruct Hap2 as (Hd2 & Hl'c & Hl'n). cbn [fst snd] in *.
    assert (Hsl : Forall (isLogObject h2)
                    (Js.slice (- maxConsoleLogs (optionsOf c)) pushed)).
    { apply Forall_slice. eapply Forall_impl; [exact Hpushed |].
      intros x [e He]. exists e. rewrite Hold2; [exact He |].
      eapply lookup_dom. exact He. }
    split_and!.
    + split; cbn [fst snd consoleLogsRef networkRequestsRef].
      * exists (Js.slice (- maxConsoleLogs (optionsOf c)) pushed).
        split; [exact Hnew2 | exact Hsl].
      * apply Hown2.
    + intros l Hl0. destruct (Hfr1 l Hl0) as [Hl1 He1].
      destruct (Hfr2 l Hl1) as [(Hl2 & Hl2c & Hl2n) He2]. cbn [fst snd] in *.
      split.
      * split_and!; cbn [fst snd consoleLogsRef networkRequestsRef];
          [exact Hl2 | | exact Hl2n].
        destruct Hl1 as (Hl1d & _). cbn [fst snd] in Hl1d.
        intros Heq. apply (Hfresh l Hl1d). symmetry. exact Heq.
      * etrans; [exact He2 | exact He1].
    + unfold logValues. rewrite (readLogs_new _ _ _ Hnew2).
      rewrite (omap_agree (logAt h2) (logAt h1)).
      * rewrite omap_total_slice by (apply logAt_total, Hpushed).
        rewrite Hvals1. reflexivity.
      * intros x Hx. unfold logAt. rewrite Hold2; [reflexivity |].
        assert (Hin : x ∈ pushed).
        { unfold Js.slice in Hx. eapply subseteq_drop. exact Hx. }
        rewrite Forall_forall in Hpushed. destruct (Hpushed x Hin) as [e He].
        eapply lookup_dom. exact He.
    + rewrite Hnet2. exact Hnet1.
    + reflexivity.
  - cbn [fst snd]. split_and!; try assumption; try reflexivity.
    unfold logValues. rewrite (readLogs_new _ _ _ H1cl). exact Hvals1.
Qed.

(** [addNetworkRequest] on the store and on the values. *)
Lemma addNetworkRequest_spec c h r entry :
  ownsBuffers (c, h) ->
  h !! r = Some (NetObject entry) ->
  ownsBuffers (addNetworkRequest c r h) /\
  frames (c, h) (addNetworkRequest c r h) /\
  netValues (snd (addNetworkRequest c r h)) (networkRequestsRef (fst (addNetworkRequest c r h)))
    = pushBounded (maxNetworkRequests (optionsOf c))
        (netValues h (networkRequestsRef c)) entry /\
  logValues (snd (addNetworkRequest c r h))
            (consoleLogsRef (fst (addNetworkRequest c r h)))
    = logValues h (consoleLogsRef c) /\
  optionsOf (fst (addNetworkRequest c r h)) = optionsOf c.
Proof.
  intros Hown Hr.
  pose proof (buffers_distinct c h Hown) as (Hc & Hn & Hcn).
  assert (Hrap : apart (c, h) r)
    by (apply net_object_apart; [exact Hown | exists entry; exact Hr]).
  destruct Hrap as (Hrd & Hrc & Hrn). cbn [fst snd] in *.
  pose proof Hown as [Hlogs (li & Hl & Hall)]. cbn [fst snd] in *.
  unfold addNetworkRequest. rewrite (readNet_new _ _ _ Hl).
  set (pushed := li ++ [r]).
  set (h1 := <[networkRequestsRef c := NetArray pushed]> h).
  assert (H1ne : forall l, l <> networkRequestsRef c -> h1 !! l = h !! l)
    by (intros l Hne; apply lookup_insert_ne; congruence).
  assert (H1cl : h1 !! networkRequestsRef c = Some (NetArray pushed))
    by apply lookup_insert_eq.
  assert (Hobj1 : forall x, isNetObject h x -> h1 !! x = h !! x).
  { intros x Hx. apply H1ne.
    apply (net_object_apart c h x Hown Hx). }
  assert (Hnobj1 : forall x, isLogObject h x -> h1 !! x = h !! x).
  { intros x Hx. apply H1ne.
    apply (log_object_apart c h x Hown Hx). }
  assert (Hpushed : Forall (isNetObject h1) pushed).
  { apply Forall_app. split.
    - eapply Forall_impl; [exact Hall |].
      intros x [e He]. exists e. rewrite Hobj1; [exact He | exists e; exact He].
    - apply Forall_singleton. exists entry. rewrite H1ne by congruence. exact Hr. }
  assert (Hown1 : ownsBuffers (c, h1)).
  { split; cbn [fst snd].
    - apply (isLogArray_kept h); [exact Hlogs | apply H1ne; congruence |].
      exact Hnobj1.
    - exists pushed. split; [exact H1cl | exact Hpushed]. }
  assert (Hfr1 : frames (c, h) (c, h1)).
  { intros l (Hl1 & Hlc & Hln). cbn [fst snd] in *. split.
    - split_and!; cbn [fst snd]; [apply insert_dom, Hl1 | exact Hlc | exact Hln].
    - apply H1ne, Hln. }
  assert (Hvals1 : omap (netAt h1) pushed =
                   netValues h (networkRequestsRef c) ++ [entry]).
  { unfold pushed. rewrite omap_app. f_equal.
    - unfold netValues. rewrite (readNet_new _ _ _ Hl).
      apply omap_agree. intros x Hx. unfold netAt. rewrite Hobj1; [reflexivity |].
      rewrite Forall_forall in Hall. apply Hall, Hx.
    - cbn. unfold netAt. rewrite H1ne by congruence. rewrite Hr. reflexivity. }
  assert (Hnet1 : logValues h1 (consoleLogsRef c) =
                  logValues h (consoleLogsRef c)).
  { apply logValues_eq; [apply H1ne; congruence |].
    intros x Hx. apply H1ne.
    apply (log_entries_apart c h x Hown Hx). }
  assert (Hlen : length pushed = length (netValues h (networkRequestsRef c) ++ [entry])).
  { rewrite <- Hvals1. symmetry. apply omap_total_length, netAt_total, Hpushed. }
  unfold pushBounded. rewrite <- Hlen.
  destruct (maxNetworkRequests (optionsOf c) <? Z.of_nat (length pushed)).
  - set (a := NetArray (Js.slice (- maxNetworkRequests (optionsOf c)) pushed)).
    destruct (alloc_keeps c h1 a Hown1) as (Hown2 & Hfr2 & Hap2 & Hnew2 & Hold2).
    destruct (alloc_buffers c h1 a Hown1) as (_ & _ & Hnet2 & _).
    pose proof (alloc_ne h1 a) as Hfresh.
    destruct (alloc h1 a) as [l' h2].
    cbn [fst snd networkRequestsRef consoleLogsRef optionsOf] in *.
    destruct Hap2 as (Hd2 & Hl'c & Hl'n). cbn [fst snd] in *.
    assert (Hsl : Forall (isNetObject h2)
                    (Js.slice (- maxNetworkRequests (optionsOf c)) pushed)).
    { apply Forall_slice. eapply Forall_impl; [exact Hpushed |].
      intros x [e He]. exists e. rewrite Hold2; [exact He |].
      eapply lookup_dom. exact He. }
    split_and!.
    + split; cbn [fst snd networkRequestsRef consoleLogsRef].
      * apply Hown2.
      * exists (Js.slice (- maxNetworkRequests (optionsOf c)) pushed).
        split; [exact Hnew2 | exact Hsl].
    + intros l Hl0. destruct (Hfr1 l Hl0) as [Hl1 He1].
      destruct (Hfr2 l Hl1) as [(Hl2 & Hl2c & Hl2n) He2]. cbn [fst snd] in *.
      split.
      * split_and!; cbn [fst snd networkRequestsRef consoleLogsRef];
          [exact Hl2 | exact Hl2c |].
        destruct Hl1 as (Hl1d & _). cbn [fst snd] in Hl1d.
        intros Heq. apply (Hfresh l Hl1d). symmetry. exact Heq.
      * etrans; [exact He2 | exact He1].
    + unfold netValues. rewrite (readNet_new _ _ _ Hnew2).
      rewrite (omap_agree (netAt h2) (netAt h1)).
      * rewrite omap_total_slice by (apply netAt_total, Hpushed).
        rewrite Hvals1. reflexivity.
      * intros x Hx. unfold netAt. rewrite Hold2; [reflexivity |].
        assert (Hin : x ∈ pushed).
        { unfold Js.slice in Hx. eapply subseteq_drop. exact Hx. }
        rewrite Forall_forall in Hpushed. destruct (Hpushed x Hin) as [e He].
        eapply lookup_dom. exact He.
    + rewrite Hnet2. exact Hnet1.
    + reflexivity.
  - cbn [fst snd]. split_and!; try assumption; try reflexivity.
    unfold netValues. rewrite (readNet_new _ _ _ H1cl). exact Hvals1.
Qed.


(** The interceptors: the entry is a new object. *)
Lemma logEntry_spec c h entry :
  ownsBuffers (c, h) ->
  ownsBuffers (logEntry c entry h) /\
  frames (c, h) (logEntry c entry h) /\
  logValues (snd (logEntry c entry h)) (consoleLogsRef (fst (logEntry c entry h)))
    = pushBounded (maxConsoleLogs (optionsOf c))
        (logValues h (consoleLogsRef c)) entry /\
  netValues (snd (logEntry c entry h))
            (networkRequestsRef (fst (logEntry c entry h)))
    = netValues h (networkRequestsRef c) /\
  optionsOf (fst (logEntry c entry h)) = optionsOf c.
Proof.
  intros Hown. unfold logEntry.
  destruct (alloc_keeps c h (LogObject entry) Hown)
    as (Hown1 & Hfr1 & _ & Hnew1 & _).
  destruct (alloc_buffers c h (LogObject entry) Hown) as (_ & _ & Hl1 & Hn1).
  destruct (alloc h (LogObject entry)) as [r h1]. cbn [fst snd] in *.
  destruct (addConsoleLog_spec c h1 r entry Hown1 Hnew1)
    as (Hown2 & Hfr2 & Hl2 & Hn2 & Ho2).
  split_and!.
  - exact Hown2.
  - eapply frames_trans; eassumption.
  - rewrite Hl2, Hl1. reflexivity.
  - rewrite Hn2, Hn1. reflexivity.
  - exact Ho2.
Qed.

Lemma recordRequest_spec c h request :
  ownsBuffers (c, h) ->
  ownsBuffers (recordRequest c request h) /\
  frames (c, h) (recordRequest c request h) /\
  netValues (snd (recordRequest c request h))
            (networkRequestsRef (fst (recordRequest c request h)))
    = pushBounded (maxNetworkRequests (optionsOf c))
        (netValues h (networkRequestsRef c)) request /\
  logValues (snd (recordRequest c request h))
            (consoleLogsRef (fst (recordRequest c request h)))
    = logValues h (consoleLogsRef c) /\
  optionsOf (fst (recordRequest c request h)) = optionsOf c.
Proof.
  intros Hown. unfold recordRequest.
  destruct (alloc_keeps c h (NetObject request) Hown)
    as (Hown1 & Hfr1 & _ & Hnew1 & _).
  destruct (alloc_buffers c h (NetObject request) Hown) as (_ & _ & Hl1 & Hn1).
  destruct (alloc h (NetObject request)) as [r h1]. cbn [fst snd] in *.
  destruct (addNetworkRequest_spec c h1 r request Hown1 Hnew1)
    as (Hown2 & Hfr2 & Hn2 & Hl2 & Ho2).
  split_and!.
  - exact Hown2.
  - eapply frames_trans; eassumption.
  - rewrite Hn2, Hn1. reflexivity.
  - rewrite Hl2, Hl1. reflexivity.
  - exact Ho2.
Qed.

(** Two new empty arrays: the constructor and [clearLogs]. *)
Lemma fresh_buffers o h :
  let st := newCapture o h in
  ownsBuffers st /\
  (forall l, l ∈ dom h ->
     l ∈ dom (snd st) /\ l <> consoleLogsRef (fst st) /\
     l <> networkRequestsRef (fst st) /\ snd st !! l = h !! l) /\
  logValues (snd st) (consoleLogsRef (fst st)) = [] /\
  netValues (snd st) (networkRequestsRef (fst st)) = [] /\
  optionsOf (fst st) = o.
Proof.
  unfold newCapture.
  pose proof (alloc_lookup_new h (LogArray [])) as Hnew1.
  pose proof (alloc_dom_new h (LogArray [])) as Hd1.
  pose proof (fun l => alloc_lookup_old h (LogArray []) l) as Hold1.
  pose proof (fun l => alloc_dom h (LogArray []) l) as Hdom1.
  pose proof (fun l => alloc_ne h (LogArray []) l) as Hne1.
  destruct (alloc h (LogArray [])) as [l1 h1]. cbn [fst snd] in *.
  pose proof (alloc_lookup_new h1 (NetArray [])) as Hnew2.
  pose proof (fun l => alloc_lookup_old h1 (NetArray []) l) as Hold2.
  pose proof (fun l => alloc_dom h1 (NetArray []) l) as Hdom2.
  pose proof (fun l => alloc_ne h1 (NetArray []) l) as Hne2.
  destruct (alloc h1 (NetArray [])) as [l2 h2].
  cbn [fst snd consoleLogsRef networkRequestsRef optionsOf] in *.
  assert (H21 : h2 !! l1 = Some (LogArray []))
    by (rewrite Hold2 by exact Hd1; exact Hnew1).
  split_and!.
  - split; cbn [fst snd consoleLogsRef networkRequestsRef].
    + exists []. split; [exact H21 | constructor].
    + exists []. split; [exact Hnew2 | constructor].
  - intros l Hl. split_and!.
    + apply Hdom2, Hdom1, Hl.
    + intros ->. apply (Hne1 l1 Hl). reflexivity.
    + intros ->. apply (Hne2 l2 (Hdom1 l2 Hl)). reflexivity.
    + rewrite Hold2 by (apply Hdom1, Hl). apply Hold1, Hl.
  - unfold logValues. rewrite (readLogs_new _ _ _ H21). reflexivity.
  - unfold netValues. rewrite (readNet_new _ _ _ Hnew2). reflexivity.
  - reflexivity.
Qed.

Lemma newCapture_owns o h : ownsBuffers (newCapture o h).
Proof. apply (fresh_buffers o h). Qed.

Lemma clearLogs_spec c h :
  ownsBuffers (clearLogs c h) /\
  frames (c, h) (clearLogs c h) /\
  logValues (snd (clearLogs c h)) (consoleLogsRef (fst (clearLogs c h))) = [] /\
  netValues (snd (clearLogs c h)) (networkRequestsRef (fst (clearLogs c h))) = [] /\
  optionsOf (fst (clearLogs c h)) = optionsOf c.
Proof.
  change (clearLogs c h) with (newCapture (optionsOf c) h).
  destruct (fresh_buffers (optionsOf c) h) as (Hown & Hfr & Hl & Hn & Ho).
  split_and!; try assumption.
  intros l (Hl0 & _ & _). cbn [fst snd] in Hl0.
  destruct (Hfr l Hl0) as (H1 & H2 & H3 & H4).
  split; [split_and!; assumption | exact H4].
Qed.

(** One operation of the session: it keeps the invariant, leaves alone
    what is apart from the buffers, and does on the store what the same
    operation does on the values. *)
Lemma step_spec st op :
  ownsBuffers st ->
  ownsBuffers (step st op) /\
  frames st (step st op) /\
  (forall s, reflects st s -> reflects (step st op) (stepPure s op)).
Proof.
  destruct st as [c h]. intros Hown.
  destruct op as [entry | request | | o']; cbn [step stepPure fst snd].
  - destruct (logEntry_spec c h entry Hown) as (H1 & H2 & Hl & Hn & Ho).
    split_and!; [exact H1 | exact H2 |].
    intros s (Hsl & Hsn & Hso). cbn [fst snd] in *. unfold reflects.
    rewrite Hl, Hn, Ho, Hsl, Hsn, Hso. auto.
  - destruct (recordRequest_spec c h request Hown) as (H1 & H2 & Hn & Hl & Ho).
    split_and!; [exact H1 | exact H2 |].
    intros s (Hsl & Hsn & Hso). cbn [fst snd] in *. unfold reflects.
    rewrite Hl, Hn, Ho, Hsl, Hsn, Hso. auto.
  - destruct (clearLogs_spec c h) as (H1 & H2 & Hl & Hn & Ho).
    split_and!; [exact H1 | exact H2 |].
    intros s (Hsl & Hsn & Hso). cbn [fst snd] in *. unfold reflects.
    rewrite Hl, Hn, Ho, Hso. auto.
  - split_and!; [exact Hown | intros l Hl; split; [exact Hl | reflexivity] |].
    intros s (Hsl & Hsn & Hso). cbn [fst snd] in *. unfold reflects.
    cbn. auto.
Qed.

Lemma run_spec ops : forall st,
  ownsBuffers st ->
  ownsBuffers (run ops st) /\
  frames st (run ops st) /\
  (forall s, reflects st s -> reflects (run ops st) (fold_left stepPure ops s)).
Proof.
  induction ops as [| op ops IH]; intros st Hown.
  - split_and!; [exact Hown | apply frames_refl | auto].
  - destruct (step_spec st op Hown) as (Hown1 & Hfr1 & Href1).
    destruct (IH (step st op) Hown1) as (Hown2 & Hfr2 & Href2).
    unfold run in *. cbn [fold_left]. split_and!.
    + exact Hown2.
    + eapply frames_trans; eassumption.
    + intros s Hs. apply Href2, Href1, Hs.
Qed.

End AliasingProofs.

Lemma newCapture_reflects (o : CaptureOptions) :
  reflects (Aliasing.newCapture o ∅) (newCapture o).
Proof.
  destruct (fresh_buffers o ∅) as (_ & _ & Hl & Hn & Ho).
  unfold reflects. rewrite Hl, Hn, Ho. auto.
Qed.

Section Copies.
Import Aliasing.
Implicit Types (h : gmap loc Cell) (c : CaptureRef) (l r : loc) (a : Cell).

Lemma object_apart c h x :
  ownsBuffers (c, h) -> isLogObject h x \/ isNetObject h x -> apart (c, h) x.
Proof.
  intros Hown [Hx | Hx];
    [apply log_object_apart | apply net_object_apart]; assumption.
Qed.

Lemma array_not_object h l x :
  isLogArray h l \/ isNetArray h l ->
  isLogObject h x \/ isNetObject h x -> x <> l.
Proof.
  intros [(items & Hl & _) | (items & Hl & _)] [[e He] | [e He]] ->;
    congruence.
Qed.

(** A snapshot stays one, with the same entries, in every state that
    frames the one it was taken in. *)
Lemma snapshot_framed st st' l :
  ownsBuffers st -> isSnapshot st l -> frames st st' ->
  isSnapshot st' l /\
  snd st' !! l = snd st !! l /\
  readLogs (snd st') l = readLogs (snd st) l /\
  readNet (snd st') l = readNet (snd st) l /\
  logValues (snd st') l = logValues (snd st) l /\
  netValues (snd st') l = netValues (snd st) l.
Proof.
  destruct st as [c h], st' as [c' h']. cbn [fst snd].
  intros Hown [Hap Harr] Hfr. destruct (Hfr l Hap) as [Hap' Heq].
  cbn [fst snd] in *.
  assert (Hobj : forall x, isLogObject h x \/ isNetObject h x ->
                           h' !! x = h !! x).
  { intros x Hx. apply (Hfr x). apply object_apart; assumption. }
  split_and!.
  - split; [exact Hap' |]. cbn [snd].
    destruct Harr as [Hl | Hl]; [left | right].
    + apply (isLogArray_kept h); [exact Hl | exact Heq |].
      intros x Hx. apply Hobj. left. exact Hx.
    + apply (isNetArray_kept h); [exact Hl | exact Heq |].
      intros x Hx. apply Hobj. right. exact Hx.
  - exact Heq.
  - apply readLogs_eq, Heq.
  - apply readNet_eq, Heq.
  - apply logValues_eq; [exact Heq |].
    intros x Hx. unfold readLogs in Hx.
    destruct Harr as [(items & Hl & Hall) | (items & Hl & Hall)];
      rewrite Hl in Hx; [| inversion Hx].
    apply Hobj. left. rewrite Forall_forall in Hall. apply Hall, Hx.
  - apply netValues_eq; [exact Heq |].
    intros x Hx. unfold readNet in Hx.
    destruct Harr as [(items & Hl & Hall) | (items & Hl & Hall)];
      rewrite Hl in Hx; [inversion Hx |].
    apply Hobj. right. rewrite Forall_forall in Hall. apply Hall, Hx.
Qed.

Lemma isCopy_intro c h l :
  ownsBuffers (c, h) -> isSnapshot (c, h) l -> isCopy c h l.
Proof.
  intros Hown Hsnap. pose proof Hsnap as [(Hl & Hlc & Hln) Harr].
  cbn [fst snd] in *.
  unfold isCopy. split_and!; try assumption.
  - intros a. unfold mutate.
    apply buffers_kept; [exact Hown | | |].
    + apply lookup_insert_ne. exact Hlc.
    + apply lookup_insert_ne. exact Hln.
    + intros x Hx. apply lookup_insert_ne.
      intros Heq. apply (array_not_object h l x Harr Hx). symmetry. exact Heq.
  - intros after.
    destruct (run_spec after (c, h) Hown) as (_ & Hfr & _).
    destruct (snapshot_framed (c, h) (run after (c, h)) l Hown Hsnap Hfr)
      as (_ & Heq & _ & _ & Hlv & Hnv).
    cbn [fst snd] in *. auto.
Qed.

(** [[...this.consoleLogs]]: the new array holds the entries of the
    buffer, the very objects, and is a snapshot. *)
Lemma spread_logs c h :
  ownsBuffers (c, h) ->
  let l := fst (alloc h (LogArray (readLogs h (consoleLogsRef c)))) in
  let h' := snd (alloc h (LogArray (readLogs h (consoleLogsRef c)))) in
  ownsBuffers (c, h') /\ frames (c, h) (c, h') /\ isSnapshot (c, h') l /\
  readLogs h' l = readLogs h' (consoleLogsRef c) /\
  logValues h' l = logValues h (consoleLogsRef c) /\
  logValues h' (consoleLogsRef c) = logValues h (consoleLogsRef c) /\
  netValues h' (networkRequestsRef c) = netValues h (networkRequestsRef c).
Proof.
  intros Hown l h'. subst l h'.
  set (a := LogArray (readLogs h (consoleLogsRef c))).
  destruct (alloc_keeps c h a Hown) as (Hown1 & Hfr1 & Hap1 & Hnew1 & Hold1).
  destruct (alloc_buffers c h a Hown) as (Hrl & _ & Hlv & Hnv).
  pose proof Hown as [(items & Hl & Hall) _]. cbn [fst snd] in *.
  assert (Hitems : Forall (isLogObject (snd (alloc h a))) items).
  { eapply Forall_impl; [exact Hall |].
    intros x [e He]. exists e. rewrite Hold1; [exact He |].
    apply elem_of_dom. eexists. exact He. }
  assert (Ha : a = LogArray items)
    by (unfold a; rewrite (readLogs_new _ _ _ Hl); reflexivity).
  split_and!; try assumption.
  - split; [exact Hap1 |]. left. exists items. cbn [snd].
    split; [rewrite Hnew1, Ha; reflexivity | exact Hitems].
  - rewrite Hrl. rewrite (readLogs_new _ _ _ Hnew1). reflexivity.
  - unfold logValues at 1. rewrite (readLogs_new _ _ _ Hnew1).
    rewrite <- Hlv. unfold logValues. rewrite Hrl. reflexivity.
Qed.

Lemma spread_net c h :
  ownsBuffers (c, h) ->
  let l := fst (alloc h (NetArray (readNet h (networkRequestsRef c)))) in
  let h' := snd (alloc h (NetArray (readNet h (networkRequestsRef c)))) in
  ownsBuffers (c, h') /\ frames (c, h) (c, h') /\ isSnapshot (c, h') l /\
  readNet h' l = readNet h' (networkRequestsRef c) /\
  netValues h' l = netValues h (networkRequestsRef c) /\
  logValues h' (consoleLogsRef c) = logValues h (consoleLogsRef c) /\
  netValues h' (networkRequestsRef c) = netValues h (networkRequestsRef c).
Proof.
  intros Hown l h'. subst l h'.
  set (a := NetArray (readNet h (networkRequestsRef c))).
  destruct (alloc_keeps c h a Hown) as (Hown1 & Hfr1 & Hap1 & Hnew1 & Hold1).
  destruct (alloc_buffers c h a Hown) as (_ & Hrn & Hlv & Hnv).
  pose proof Hown as [_ (items & Hl & Hall)]. cbn [fst snd] in *.
  assert (Hitems : Forall (isNetObject (snd (alloc h a))) items).
  { eapply Forall_impl; [exact Hall |].
    intros x [e He]. exists e. rewrite Hold1; [exact He |].
    apply elem_of_dom. eexists. exact He. }
  assert (Ha : a = NetArray items)
    by (unfold a; rewrite (readNet_new _ _ _ Hl); reflexivity).
  split_and!; try assumption.
  - split; [exact Hap1 |]. right. exists items. cbn [snd].
    split; [rewrite Hnew1, Ha; reflexivity | exact Hitems].
  - rewrite Hrn. rewrite (readNet_new _ _ _ Hnew1). reflexivity.
  - unfold netValues at 1. rewrite (readNet_new _ _ _ Hnew1).
    rewrite <- Hnv. unfold netValues. rewrite Hrn. reflexivity.
Qed.

(** The screenshot's part in [captureReport]: nothing, or one more
    console entry. *)
Lemma failureLog_spec c h failureLog :
  ownsBuffers (c, h) ->
  let st := match failureLog with
            | Some entry => logEntry c entry h
            | None => (c, h)
            end in
  ownsBuffers st /\ frames (c, h) st /\
  (forall s, reflects (c, h) s -> reflects st (afterReport s failureLog)).
Proof.
  intros Hown. destruct failureLog as [entry |]; cbn zeta.
  - destruct (step_spec (c, h) (OpLog entry) Hown) as (H1 & H2 & H3).
    cbn [step fst snd] in *. split_and!; assumption.
  - split_and!; [exact Hown | apply frames_refl | auto].
Qed.

Lemma captureReport_spec c h failureLog :
  ownsBuffers (c, h) ->
  let result := captureReport c failureLog None h in
  let report := fst (fst result) in
  let st' := (snd (fst result), snd result) in
  ownsBuffers st' /\ frames (c, h) st' /\
  isSnapshot st' (rep_consoleLogs report) /\
  isSnapshot st' (rep_networkRequests report) /\
  readLogs (snd st') (rep_consoleLogs report)
    = readLogs (snd st') (consoleLogsRef (fst st')) /\
  readNet (snd st') (rep_networkRequests report)
    = readNet (snd st') (networkRequestsRef (fst st')) /\
  (forall s, reflects (c, h) s -> reflects st' (afterReport s failureLog)).
Proof.
  intros Hown. unfold captureReport.
  destruct (failureLog_spec c h failureLog Hown) as (Hown0 & Hfr0 & Href0).
  destruct (match failureLog with
            | Some entry => logEntry c entry h
            | None => (c, h)
            end) as [c0 h0].
  destruct (spread_logs c0 h0 Hown0)
    as (Hown1 & Hfr1 & Hs1 & Hr1 & Hv1 & Hl1 & Hn1).
  destruct (alloc h0 (LogArray (readLogs h0 (consoleLogsRef c0)))) as [l1 h1].
  cbn [fst snd] in *.
  destruct (spread_net c0 h1 Hown1)
    as (Hown2 & Hfr2 & Hs2 & Hr2 & Hv2 & Hl2 & Hn2).
  destruct (alloc_buffers c0 h1 (NetArray (readNet h1 (networkRequestsRef c0)))
              Hown1) as (Hb & _).
  destruct (alloc h1 (NetArray (readNet h1 (networkRequestsRef c0)))) as [l2 h2].
  cbn [fst snd default mbind option_bind] in *.
  destruct (snapshot_framed (c0, h1) (c0, h2) l1 Hown1 Hs1 Hfr2)
    as (Hs1' & Heq1 & Hrl1 & _).
  cbn [fst snd rep_consoleLogs rep_networkRequests] in *.
  split_and!.
  - exact Hown2.
  - eapply frames_trans; [exact Hfr0 |]. eapply frames_trans; eassumption.
  - exact Hs1'.
  - exact Hs2.
  - rewrite Hrl1, Hr1, Hb. reflexivity.
  - exact Hr2.
  - intros s Hs. destruct (Href0 s Hs) as (Hsl & Hsn & Hso).
    cbn [fst snd] in *. unfold reflects. cbn [fst snd].
    rewrite Hl2, Hn2, Hl1, Hn1. auto.
Qed.

End Copies.

(** C9.  In any state the session can reach, one round of
    [getConsoleLogs()], [getNetworkRequests()] and [captureReport()] hands
    out four arrays.  The first two show the buffers' contents at the time
    of the call, and still do after [captureReport] has run, also when its
    screenshot failed and the failure was logged in between; the report's
    two show the buffers' contents at the time the report was built, after
    that entry.  The report's arrays are shallow copies: they hold the very
    entry objects of the buffers.  All four are copies: none is one of the
    session's two arrays, whatever a caller writes over one of them leaves
    both buffers and the entries they show unchanged, and none of them, nor
    the entries it shows, changes under anything the session does afterwards
    (pushes, trimming, clearing, new options). *)
Theorem snapshots_are_copies (o : CaptureOptions) (before : list Aliasing.Op)
    (failureLog : option ConsoleLogEntry) :
  let st := Aliasing.run before (Aliasing.newCapture o ∅) in
  let s := fold_left stepPure before (newCapture o) in
  let result := readAll (fst st) failureLog (snd st) in
  let c := snd (fst result) in
  let h := snd result in
  let s' := afterReport s failureLog in
  exists logsCopy netCopy reportLogs reportNet,
    fst (fst result) = [logsCopy; netCopy; reportLogs; reportNet] /\
    Aliasing.logValues h logsCopy = consoleLogs s /\
    Aliasing.netValues h netCopy = networkRequests s /\
    Aliasing.logValues h reportLogs = consoleLogs s' /\
    Aliasing.netValues h reportNet = networkRequests s' /\
    reflects (c, h) s' /\
    Aliasing.readLogs h reportLogs = Aliasing.readLogs h (Aliasing.consoleLogsRef c) /\
    Aliasing.readNet h reportNet
      = Aliasing.readNet h (Aliasing.networkRequestsRef c) /\
    Forall (isCopy c h) [logsCopy; netCopy; reportLogs; reportNet].
Proof.
  intros st s result c h s'.
  destruct (run_spec before _ (newCapture_owns o ∅)) as (Hown & _ & Href).
  specialize (Href _ (newCapture_reflects o)). fold st s in Hown, Href.
  subst result c h. unfold readAll, Aliasing.getConsoleLogs,
    Aliasing.getNetworkRequests.
  destruct st as [c0 h0]. cbn [fst snd] in *.
  destruct Href as (Hsl & Hsn & Hso). cbn [fst snd] in *.
  destruct (spread_logs c0 h0 Hown) as (Hown1 & Hfr1 & Hs1 & _ & Hv1 & Hl1 & Hn1).
  destruct (Aliasing.alloc h0 _) as [l1 h1]. cbn [fst snd] in *.
  destruct (spread_net c0 h1 Hown1) as (Hown2 & Hfr2 & Hs2 & _ & Hv2 & Hl2 & Hn2).
  destruct (Aliasing.alloc h1 _) as [l2 h2]. cbn [fst snd] in *.
  destruct (snapshot_framed (c0, h1) (c0, h2) l1 Hown1 Hs1 Hfr2)
    as (Hs1' & _ & _ & _ & Hv1' & _). cbn [fst snd] in *.
  destruct (captureReport_spec c0 h2 failureLog Hown2)
    as (Hown3 & Hfr3 & Hs3 & Hs4 & Hr3 & Hr4 & Href3).
  assert (Href2 : reflects (c0, h2) s).
  { unfold reflects. cbn [fst snd]. rewrite Hl2, Hn2, Hl1, Hn1. auto. }
  specialize (Href3 s Href2).
  destruct (Aliasing.captureReport c0 failureLog None h2) as [[report c3] h3].
  cbn [fst snd] in *.
  destruct (snapshot_framed (c0, h2) (c3, h3) l1 Hown2 Hs1' Hfr3)
    as (Hs1'' & _ & _ & _ & Hv1'' & _).
  destruct (snapshot_framed (c0, h2) (c3, h3) l2 Hown2 Hs2 Hfr3)
    as (Hs2'' & _ & _ & _ & _ & Hv2'').
  cbn [fst snd] in *.
  pose proof Href3 as (Hsl3 & Hsn3 & _). cbn [fst snd] in *.
  exists l1, l2, (Aliasing.rep_consoleLogs report),
    (Aliasing.rep_networkRequests report).
  split_and!.
  - reflexivity.
  - rewrite Hv1'', Hv1', Hv1. exact Hsl.
  - rewrite Hv2'', Hv2, Hn1. exact Hsn.
  - unfold Aliasing.logValues at 1. rewrite Hr3. exact Hsl3.
  - unfold Aliasing.netValues at 1. rewrite Hr4. exact Hsn3.
  - exact Href3.
  - exact Hr3.
  - exact Hr4.
  - repeat (apply Forall_cons; split; [apply isCopy_intro; assumption |]).
    apply Forall_nil_2.
Qed.

(** * Further properties of the code *)

(** ** Buffers under interleaved calls and changed capacities *)

Lemma record_buffers (o : CaptureOptions)
    (evs : list (ConsoleLogEntry + NetworkRequestEntry)) : forall c,
  options c = o ->
  0 < maxConsoleLogs o ->
  0 < maxNetworkRequests o ->
  (length (consoleLogs c) <= Z.to_nat (maxConsoleLogs o))%nat ->
  (length (networkRequests c) <= Z.to_nat (maxNetworkRequests o))%nat ->
  consoleLogs (fold_left record evs c) =
    lastN (Z.to_nat (maxConsoleLogs o)) (consoleLogs c ++ logsOf evs) /\
  networkRequests (fold_left record evs c) =
    lastN (Z.to_nat (maxNetworkRequests o)) (networkRequests c ++ requestsOf evs) /\
  options (fold_left record evs c) = o.
Proof.
  induction evs as [| ev evs IH]; intros c Ho Hc Hn Hlc Hln.
  - simpl. rewrite !app_nil_r, !lastN_all by assumption. auto.
  - simpl fold_left.
    destruct ev as [entry | request]; simpl record.
    + destruct (IH (addConsoleLog c entry)) as (H1 & H2 & H3);
        try assumption.
      * simpl. rewrite Ho, pushBounded_pos, lastN_length by assumption. lia.
      * rewrite H1, H2, H3. simpl. rewrite Ho, pushBounded_pos by assumption.
        rewrite lastN_app_lastN, <- app_assoc. auto.
    + destruct (IH (addNetworkRequest c request)) as (H1 & H2 & H3);
        try assumption.
      * simpl. rewrite Ho, pushBounded_pos, lastN_length by assumption. lia.
      * rewrite H1, H2, H3. simpl. rewrite Ho, pushBounded_pos by assumption.
        rewrite lastN_app_lastN, <- app_assoc. auto.
Qed.

(** X1.  With capacities of at least one, after any interleaving of console
    calls and finished requests on a fresh session each buffer holds exactly
    the last [K] entries of its own kind, oldest first, so [min(N, K)] of
    them: the two buffers do not disturb each other. *)
Theorem interleaved_calls_keep_last_entries (o : CaptureOptions)
    (evs : list (ConsoleLogEntry + NetworkRequestEntry)) :
  0 < maxConsoleLogs o ->
  0 < maxNetworkRequests o ->
  let c := fold_left record evs (newCapture o) in
  getConsoleLogs c = lastN (Z.to_nat (maxConsoleLogs o)) (logsOf evs) /\
  getNetworkRequests c = lastN (Z.to_nat (maxNetworkRequests o)) (requestsOf evs) /\
  length (getConsoleLogs c) =
    Nat.min (Z.to_nat (maxConsoleLogs o)) (length (logsOf evs)) /\
  length (getNetworkRequests c) =
    Nat.min (Z.to_nat (maxNetworkRequests o)) (length (requestsOf evs)).
Proof.
  intros Hc Hn c.
  destruct (record_buffers o evs (newCapture o) eq_refl Hc Hn) as (H1 & H2 & _);
    [simpl; lia | simpl; lia |].
  unfold getConsoleLogs, getNetworkRequests, c. rewrite H1, H2. simpl.
  rewrite !lastN_length. auto.
Qed.

Lemma interleaved_calls_witness :
  getConsoleLogs
    (fold_left record
       [inl (logOf "a"); inr (requestTo "/x"); inl (logOf "b"); inl (logOf "c")]
       (newCapture (withCapacities 2 1)))
  = [logOf "b"; logOf "c"].
Proof.
  destruct (interleaved_calls_keep_last_entries (withCapacities 2 1)
              [inl (logOf "a"); inr (requestTo "/x"); inl (logOf "b");
               inl (logOf "c")]) as [H _];
    [reflexivity | reflexivity |].
  exact H.
Defined.

(** X2.  Changing the options leaves both buffers as they are; a new
    capacity of at least one is enforced by the next push, which keeps the
    last [K'] of the old entries and the new one. *)
Theorem new_capacity_applies_at_next_push (c : Capture) (o' : CaptureOptions)
    (entry : ConsoleLogEntry) (request : NetworkRequestEntry) :
  0 < maxConsoleLogs o' ->
  0 < maxNetworkRequests o' ->
  getConsoleLogs (updateOptions c o') = getConsoleLogs c /\
  getNetworkRequests (updateOptions c o') = getNetworkRequests c /\
  getConsoleLogs (addConsoleLog (updateOptions c o') entry) =
    lastN (Z.to_nat (maxConsoleLogs o')) (getConsoleLogs c ++ [entry]) /\
  getNetworkRequests (addNetworkRequest (updateOptions c o') request) =
    lastN (Z.to_nat (maxNetworkRequests o')) (getNetworkRequests c ++ [request]).
Proof.
  intros Hc Hn. unfold getConsoleLogs, getNetworkRequests. simpl.
  rewrite !pushBounded_pos by assumption. auto.
Qed.

Lemma new_capacity_witness :
  getConsoleLogs
    (addConsoleLog
       (updateOptions
          (fold_left addConsoleLog [logOf "a"; logOf "b"; logOf "c"]
             (newCapture defaultOptions))
          (withCapacities 2 2))
       (logOf "d"))
  = [logOf "c"; logOf "d"].
Proof.
  destruct (new_capacity_applies_at_next_push
              (fold_left addConsoleLog [logOf "a"; logOf "b"; logOf "c"]
                 (newCapture defaultOptions))
              (withCapacities 2 2) (logOf "d") (requestTo "/x"))
    as (_ & _ & H & _); [reflexivity | reflexivity |].
  exact H.
Defined.

(** ** The network interceptors *)

Lemma someTest_stateless (url : string) : forall patterns,
  Forall (fun p => pat_stateful p = false) patterns ->
  snd (someTest patterns url) = patterns.
Proof.
  induction patterns as [| p rest IH]; intros Hall; [reflexivity |].
  apply Forall_cons in Hall as [Hp Hrest]. cbn [someTest].
  assert (Hsame : snd (test p url) = p) by (unfold test; rewrite Hp; reflexivity).
  destruct (fst (test p url)); cbn [snd]; rewrite Hsame; [reflexivity |].
  rewrite (IH Hrest). reflexivity.
Qed.

Lemma test_same_expression (p : Pattern) (url : string) :
  pat_exec (snd (test p url)) = pat_exec p /\
  pat_stateful (snd (test p url)) = pat_stateful p.
Proof.
  unfold test. destruct (pat_stateful p) eqn:Hp; [| cbn; auto].
  destruct (_ <? _)%nat; [cbn; auto |].
  destruct (pat_exec p (pat_lastIndex p) url); cbn; auto.
Qed.

Lemma someTest_same_expressions (url : string) : forall patterns,
  map pat_exec (snd (someTest patterns url)) = map pat_exec patterns /\
  map pat_stateful (snd (someTest patterns url)) = map pat_stateful patterns.
Proof.
  induction patterns as [| p rest [IH1 IH2]]; [split; reflexivity |].
  destruct (test_same_expression p url) as [He Hs].
  cbn [someTest]. destruct (fst (test p url)); cbn [snd map];
    rewrite He, Hs; [split; reflexivity |].
  rewrite IH1, IH2. split; reflexivity.
Qed.

Lemma withPatterns_same (opts : CaptureOptions) :
  withPatterns opts (excludeUrls opts) = opts.
Proof. destruct opts; reflexivity. Qed.

(** X3.  The fetch wrapper is transparent: its promise settles exactly as
    the underlying [fetch] did, and it never touches the console buffer or
    the capturing flag.  The only thing it changes in the options is what
    [shouldExcludeUrl] leaves in the patterns it tested: the expressions and
    their flags stay, the [lastIndex] of a pattern with the flag [g] or [y]
    may move, and when no pattern has such a flag the options are unchanged.
    When the URL is excluded the request buffer is left alone; otherwise
    exactly one entry is pushed, stamped with the start time and carrying
    the method and the sanitized URL. *)
Theorem fetch_wrapper_is_transparent
    (parseURL : string -> option Url.URL) (self : Capture)
    (startTime endTime : Z) (input : RequestInfo) (init : option RequestInit)
    (outcome : FetchOutcome) :
  let r := fetchWrapper parseURL self startTime endTime input init outcome in
  snd r = outcome /\
  consoleLogs (fst r) = consoleLogs self /\
  isCapturing (fst r) = isCapturing self /\
  options (fst r) = snd (shouldExcludeUrl (options self) (inputUrl input)) /\
  options (fst r)
    = withPatterns (options self) (excludeUrls (options (fst r))) /\
  map pat_exec (excludeUrls (options (fst r)))
    = map pat_exec (excludeUrls (options self)) /\
  map pat_stateful (excludeUrls (options (fst r)))
    = map pat_stateful (excludeUrls (options self)) /\
  (Forall (fun p => pat_stateful p = false) (excludeUrls (options self)) ->
   options (fst r) = options self) /\
  (if fst (shouldExcludeUrl (options self) (inputUrl input))
   then networkRequests (fst r) = networkRequests self
   else exists entry,
       fst r = addNetworkRequest (afterTest self (inputUrl input)) entry /\
       networkRequests (fst r)
         = pushBounded (maxNetworkRequests (options self))
             (networkRequests self) entry /\
       net_timestamp entry = startTime /\
       net_method entry = inputMethod input init /\
       net_url entry = sanitizeUrl parseURL (options self) (inputUrl input) /\
       net_duration entry = Some (endTime - startTime)).
Proof.
  intros r.
  assert (Hopt : options (fst r)
                 = snd (shouldExcludeUrl (options self) (inputUrl input))).
  { subst r. unfold fetchWrapper.
    destruct (fst (shouldExcludeUrl _ _)); [reflexivity |].
    destruct outcome; reflexivity. }
  destruct (someTest_same_expressions (inputUrl input) (excludeUrls (options self)))
    as [He Hs].
  split_and!.
  - subst r. unfold fetchWrapper.
    destruct (fst (shouldExcludeUrl _ _)); [reflexivity |].
    destruct outcome; reflexivity.
  - subst r. unfold fetchWrapper.
    destruct (fst (shouldExcludeUrl _ _)); [reflexivity |].
    destruct outcome; reflexivity.
  - subst r. unfold fetchWrapper.
    destruct (fst (shouldExcludeUrl _ _)); [reflexivity |].
    destruct outcome; reflexivity.
  - exact Hopt.
  - rewrite Hopt. reflexivity.
  - rewrite Hopt. exact He.
  - rewrite Hopt. exact Hs.
  - intros Hall. rewrite Hopt. unfold shouldExcludeUrl. cbn [snd].
    rewrite (someTest_stateless _ _ Hall). apply withPatterns_same.
  - subst r. unfold fetchWrapper.
    destruct (fst (shouldExcludeUrl _ _)); [reflexivity |].
    destruct outcome as [response | error]; cbn [fst];
      (eexists; split_and!; reflexivity).
Qed.

(** A pattern with the flag [g] excludes only every other call for the same
    address: the first call moves [lastIndex] to the end of the text, the
    second starts there, fails, is recorded, and puts [lastIndex] back. *)
Example stateful_pattern_alternates :
  let opts := withPatterns defaultOptions [anythingGlobal] in
  let url := InfoString "https://x/y" in
  let r1 := fetchWrapper SimpleUrl.parse (newCapture opts) 0 1 url None
              (Resolves (okResponse [])) in
  let r2 := fetchWrapper SimpleUrl.parse (fst r1) 2 3 url None
              (Resolves (okResponse [])) in
  networkRequests (fst r1) = [] /\
  map pat_lastIndex (excludeUrls (options (fst r1))) = [11%nat] /\
  map net_url (networkRequests (fst r2)) = ["https://x/y"] /\
  map pat_lastIndex (excludeUrls (options (fst r2))) = [0%nat].
Proof. vm_compute. auto. Qed.

Lemma pushBounded_In {A} (max : Z) (buf : list A) (e x : A) :
  In x (pushBounded max buf e) -> In x buf \/ x = e.
Proof.
  unfold pushBounded, Js.slice. intros H.
  assert (Hin : In x (buf ++ [e])).
  { destruct (_ <? _) in H; [| exact H].
    apply list_elem_of_In. apply list_elem_of_In in H.
    eapply subseteq_drop. exact H. }
  apply in_app_or in Hin as [? | [<- | []]]; auto.
Qed.

Lemma addNetworkRequest_clean (opts : CaptureOptions) (self : Capture)
    (e : NetworkRequestEntry) :
  Forall (cleanHeaders opts) (networkRequests self) ->
  cleanHeaders opts e ->
  Forall (cleanHeaders opts) (networkRequests (addNetworkRequest self e)).
Proof.
  intros Hall He. apply Forall_forall. intros x Hx.
  apply list_elem_of_In in Hx. simpl in Hx.
  apply pushBounded_In in Hx as [Hx | ->]; [| exact He].
  rewrite Forall_forall in Hall. apply Hall, list_elem_of_In, Hx.
Qed.

Lemma xhrLoadend_clean (parseURL : string -> option Url.URL)
    (opts : CaptureOptions) (clock : nat -> Z) (xhr : Xhr) :
  forall registered self k,
    sensitiveParams (options self) = sensitiveParams opts ->
    Forall (cleanHeaders opts) (networkRequests self) ->
    Forall (cleanHeaders opts)
      (networkRequests (xhrLoadend parseURL self clock k xhr registered)).
Proof.
  induction registered as [| l rest IH]; intros self k Hopts Hall; [exact Hall |].
  cbn [xhrLoadend]. apply IH; [exact Hopts |].
  unfold xhrListener, xhrEntry. apply addNetworkRequest_clean; [exact Hall |].
  intros m key v [Hm | Hm] Hk; simpl in Hm; [discriminate |].
  destruct (includeResponseHeaders (options self)); [| discriminate].
  unfold isSensitiveHeader. rewrite <- Hopts.
  eapply getXHRResponseHeaders_keys; [exact Hm | exact Hk].
Qed.

(** X4.  Header maps stay clean: if no buffered entry holds a header that
    [isSensitiveHeader] names, the same is true after a fetch goes through
    the wrapper, after an exchange of the older primitive is recorded, and
    after [loadend] has run any number of the session's listeners on a
    request object; and when at least one sensitive parameter is configured,
    a clean entry holds no [authorization] or [cookie] header (in any case)
    and no header whose name contains a configured parameter. *)
Theorem recorded_headers_stay_clean
    (parseURL : string -> option Url.URL) (self : Capture)
    (startTime endTime : Z) (input : RequestInfo) (init : option RequestInit)
    (outcome : FetchOutcome)
    (method urlString : string) (xhr : Xhr) :
  Forall (cleanHeaders (options self)) (networkRequests self) ->
  Forall (cleanHeaders (options self))
    (networkRequests
       (fst (fetchWrapper parseURL self startTime endTime input init outcome))) /\
  Forall (cleanHeaders (options self))
    (networkRequests
       (xhrExchange parseURL self startTime endTime method urlString xhr)) /\
  (forall clock k registered,
     Forall (cleanHeaders (options self))
       (networkRequests (xhrLoadend parseURL self clock k xhr registered))) /\
  (sensitiveParams (options self) <> [] ->
   forall e m k v,
     cleanHeaders (options self) e ->
     net_requestHeaders e = Some m \/ net_responseHeaders e = Some m ->
     m !! k = Some v ->
     Js.toLowerCase k <> "authorization" /\
     Js.toLowerCase k <> "cookie" /\
     forall param, In param (sensitiveParams (options self)) ->
       Js.includes (Js.toLowerCase k) (Js.toLowerCase param) = false).
Proof.
  intros Hall. split_and!.
  - unfold fetchWrapper.
    destruct (fst (shouldExcludeUrl _ _)); [exact Hall |].
    destruct outcome as [response | error]; simpl fst;
      apply addNetworkRequest_clean; try exact Hall;
      intros m k v [Hm | Hm] Hk; simpl in Hm;
      try discriminate;
      destruct (includeRequestHeaders (options self));
      try discriminate;
      try (eapply (extractHeaders_keys (options self)); [exact Hm | exact Hk]).
    all: destruct (includeResponseHeaders (options self)); try discriminate.
    all: injection Hm as <-;
      eapply (headersToObject_keys (options self)); exact Hk.
  - unfold xhrExchange. apply xhrLoadend_clean.
    + unfold xhrOpen. destruct (fst (shouldExcludeUrl _ _)); reflexivity.
    + unfold xhrOpen. destruct (fst (shouldExcludeUrl _ _)); exact Hall.
  - intros clock k registered. apply xhrLoadend_clean; [reflexivity | exact Hall].
  - intros Hne e m k v He Hm Hk.
    pose proof (He m k v Hm Hk) as Hs.
    apply isSensitiveHeader_false in Hs as [Hincl Hfixed].
    destruct (Hfixed Hne) as [Ha Hc]. auto.
Qed.

Lemma recorded_headers_witness :
  Forall (cleanHeaders (withSensitive ["token"]))
    (networkRequests
       (fst (fetchWrapper SimpleUrl.parse (newCapture (withSensitive ["token"]))
               10 25 (InfoString "https://api.example.com/me")
               (Some {| init_method := None;
                        init_headers :=
                          Some (PlainObject
                                  [("Authorization", Some "Bearer s3cret");
                                   ("Accept", Some "text/html")]) |})
               (Resolves (okResponse [("cookie", "sid=42")]))))).
Proof.
  destruct (recorded_headers_stay_clean SimpleUrl.parse
              (newCapture (withSensitive ["token"])) 10 25
              (InfoString "https://api.example.com/me")
              (Some {| init_method := None;
                       init_headers :=
                         Some (PlainObject
                                 [("Authorization", Some "Bearer s3cret");
                                  ("Accept", Some "text/html")]) |})
              (Resolves (okResponse [("cookie", "sid=42")]))
              "GET" "https://api.example.com/me"
              {| xhr_status := 200; xhr_responseHeaderLines := None;
                 xhr_contentLength := None |}
              (Forall_nil_2 _)) as [H _].
  exact H.
Defined.

Lemma find_app_last {A} (f : A -> bool) (l : list A) (x : A) :
  List.find f (l ++ [x]) =
  match List.find f l with
  | Some y => Some y
  | None => if f x then Some x else None
  end.
Proof.
  induction l as [| a l IH]; simpl; [reflexivity |].
  destruct (f a); [reflexivity | exact IH].
Qed.

Lemma lastValue_cons (key : string) (h : string * string)
    (hs : list (string * string)) :
  lastValue key (h :: hs) =
  match lastValue key hs with
  | Some v => Some v
  | None => if String.eqb (fst h) key then Some (snd h) else None
  end.
Proof.
  unfold lastValue. simpl rev. rewrite find_app_last.
  destruct (List.find _ (rev hs)); [reflexivity |].
  destruct (String.eqb (fst h) key); reflexivity.
Qed.

Lemma headersToObject_fold (opts : CaptureOptions)
    (hs : list (string * string)) (k : string) :
  forall acc : gmap string string,
    fold_left (fun result kv =>
                 if isSensitiveHeader opts (fst kv) then result
                 else <[fst kv := snd kv]> result) hs acc !! k =
    if isSensitiveHeader opts k then acc !! k
    else match lastValue k hs with
         | Some v => Some v
         | None => acc !! k
         end.
Proof.
  induction hs as [| [key value] hs IH]; intros acc.
  - simpl. destruct (isSensitiveHeader opts k); reflexivity.
  - simpl fold_left. rewrite IH, lastValue_cons. simpl fst. simpl snd.
    destruct (isSensitiveHeader opts k) eqn:Hk.
    + destruct (isSensitiveHeader opts key) eqn:Hkey; [reflexivity |].
      rewrite lookup_insert_ne; [reflexivity |]. congruence.
    + destruct (lastValue k hs); [reflexivity |].
      destruct (String.eqb_spec key k) as [-> | Hne].
      * rewrite Hk. apply lookup_insert_eq.
      * destruct (isSensitiveHeader opts key); [reflexivity |].
        apply lookup_insert_ne. exact Hne.
Qed.

(** X5.  Header filtering drops the sensitive names and nothing else: in
    the map built from a [Headers] object a sensitive name is absent and
    every other name carries the last value the object gave it.
    [extractHeaders] returns that map, or [undefined] instead of an empty
    map, and [undefined] when it is given no headers. *)
Theorem header_filter_keeps_the_rest (opts : CaptureOptions)
    (hs : list (string * string)) :
  (forall k,
     headersToObject opts hs !! k =
     if isSensitiveHeader opts k then None else lastValue k hs) /\
  extractHeaders opts (Some (HeadersObject hs)) =
    (if decide (headersToObject opts hs = ∅) then None
     else Some (headersToObject opts hs)) /\
  extractHeaders opts (Some (HeadersObject hs)) <> Some ∅ /\
  extractHeaders opts None = None.
Proof.
  split_and!.
  - intros k. unfold headersToObject. rewrite headersToObject_fold.
    rewrite lookup_empty. destruct (isSensitiveHeader opts k); [reflexivity |].
    destruct (lastValue k hs); reflexivity.
  - reflexivity.
  - simpl. unfold nonEmptyOrUndefined. case_decide; congruence.
  - reflexivity.
Qed.

(** ** Screenshot acquisition: what the rasteriser sees, what is left behind *)

Lemma querySelectorAll_elem (sels : list string) (doc : list Screenshot.Element)
    (i : nat) (e : Screenshot.Element) :
  doc !! i = Some e ->
  (i ∈ Screenshot.querySelectorAll sels doc <-> Screenshot.matchesAny sels e = true).
Proof.
  intros Hi. unfold Screenshot.querySelectorAll.
  rewrite list_elem_of_In, filter_In, Hi, in_seq.
  apply lookup_lt_Some in Hi. split; [intros [_ H]; exact H |].
  intros H. split; [lia | exact H].
Qed.

Lemma rasterInput_lookup (doc : list Screenshot.Element)
    (options : option Screenshot.Options) (i : nat) (e : Screenshot.Element) :
  doc !! i = Some e ->
  rasterInput doc options !! i =
    Some (if excludedBy options e then Screenshot.withDisplay "none" e else e).
Proof.
  intros Hi. unfold rasterInput, excludedBy.
  set (sels := Screenshot.defaultExcludeSelectors ++ _).
  destruct (hideAll_lookup (Screenshot.querySelectorAll sels doc)
              (querySelectorAll_NoDup sels doc) doc ∅ i) as [H _].
  unfold Screenshot.hideAll. etrans; [exact H |].
  pose proof (querySelectorAll_elem sels doc i e Hi) as Hel.
  destruct (decide (i ∈ Screenshot.querySelectorAll sels doc)) as [Hin | Hnin].
  - rewrite Hi. apply Hel in Hin. rewrite Hin. reflexivity.
  - destruct (Screenshot.matchesAny sels e) eqn:Hm.
    + exfalso. apply Hnin, Hel. reflexivity.
    + exact Hi.
Qed.

Lemma hideAll_length (els : list nat) : forall doc m,
  length (fst (fold_left Screenshot.hideStep els (doc, m))) = length doc.
Proof.
  induction els as [| a els IH]; intros doc m; [reflexivity |].
  simpl fold_left. unfold Screenshot.hideStep at 2. simpl fst. simpl snd.
  rewrite IH. unfold Screenshot.setDisplay. apply length_alter.
Qed.

(** X6.  The rasteriser never sees an excluded element displayed: the
    document handed to [html2canvas] has [display: none] on every element
    that matches a built-in or caller-supplied exclusion selector and is
    otherwise the page as it was, element for element; and that document is
    the only thing the rasteriser is asked about, whatever the selector
    engine says about the selector text. *)
Theorem excluded_elements_hidden_from_raster
    (css : string -> option Js.Thrown) (doc : list Screenshot.Element)
    (options : option Screenshot.Options)
    (raster : list Screenshot.Element -> Screenshot.RasterOutcome) :
  length (rasterInput doc options) = length doc /\
  (forall i e,
     doc !! i = Some e ->
     rasterInput doc options !! i =
       Some (if excludedBy options e
             then Screenshot.withDisplay "none" e else e)) /\
  Screenshot.captureScreenshot css true doc options raster =
    Screenshot.captureScreenshot css true doc options
      (fun _ => raster (rasterInput doc options)).
Proof.
  split_and!.
  - unfold rasterInput, Screenshot.hideAll. apply hideAll_length.
  - intros i e. apply rasterInput_lookup.
  - unfold Screenshot.captureScreenshot, Screenshot.run, rasterInput. cbn [negb].
    destruct (css _); [reflexivity |].
    destruct (Screenshot.hideAll _ doc) as [hidden styles]. reflexivity.
Qed.

(** What one call does, case by case. *)
Lemma screenshot_run_cases (css : string -> option Js.Thrown)
    (doc : list Screenshot.Element) (options : option Screenshot.Options)
    (raster : list Screenshot.Element -> Screenshot.RasterOutcome) :
  Screenshot.run css true doc options raster =
    match css (selectorText options) with
    | Some error =>
        {| Screenshot.returned := None; Screenshot.document := doc;
           Screenshot.caught := Some error |}
    | None =>
        match raster (rasterInput doc options) with
        | Screenshot.RasterResolves canvas =>
            match Screenshot.toDataURL canvas
                    ("image/" +:+ Js.or_default (options ≫= Screenshot.format) "png")
            with
            | inl dataUrl =>
                {| Screenshot.returned := Some dataUrl;
                   Screenshot.document := doc; Screenshot.caught := None |}
            | inr error =>
                {| Screenshot.returned := None;
                   Screenshot.document := doc; Screenshot.caught := Some error |}
            end
        | Screenshot.RasterRejects error =>
            {| Screenshot.returned := None;
               Screenshot.document := rasterInput doc options;
               Screenshot.caught := Some error |}
        end
    end.
Proof.
  unfold Screenshot.run, selectorText, rasterInput. cbn [negb].
  destruct (css _); [reflexivity |].
  set (els := Screenshot.querySelectorAll _ doc).
  pose proof (restore_after_hide els doc (querySelectorAll_NoDup _ _)) as H.
  destruct (Screenshot.hideAll els doc) as [hidden styles].
  cbn [fst snd] in *. destruct (raster hidden); [| reflexivity].
  rewrite H. reflexivity.
Qed.

(** X7.  When the selector text is accepted and the raster capture
    resolves, the call leaves every element of the document exactly as it
    found it and returns what the canvas encodes for the requested format
    ([image/png] when none is requested); when the encoding throws it
    returns nothing, the elements restored all the same, and the error goes
    to the [catch]. *)
Theorem screenshot_success_restores_document
    (css : string -> option Js.Thrown) (doc : list Screenshot.Element)
    (options : option Screenshot.Options)
    (raster : list Screenshot.Element -> Screenshot.RasterOutcome)
    (canvas : Screenshot.Canvas) :
  css (selectorText options) = None ->
  raster (rasterInput doc options) = Screenshot.RasterResolves canvas ->
  let encoded :=
    Screenshot.toDataURL canvas
      ("image/" +:+ Js.or_default (options ≫= Screenshot.format) "png") in
  Screenshot.captureScreenshot css true doc options raster =
    (match encoded with inl dataUrl => Some dataUrl | inr _ => None end, doc) /\
  Screenshot.caught (Screenshot.run css true doc options raster) =
    match encoded with inl _ => None | inr error => Some error end.
Proof.
  intros Hcss Hr encoded. unfold Screenshot.captureScreenshot.
  rewrite screenshot_run_cases, Hcss, Hr. fold encoded.
  destruct encoded; split; reflexivity.
Qed.

Lemma screenshot_success_witness :
  Screenshot.captureScreenshot sampleCss true samplePage
    (Some {| Screenshot.excludeSelectors := Some ["p"];
             Screenshot.format := Some "jpeg" |})
    (fun _ => Screenshot.RasterResolves pngCanvas)
  = (Some "data:image/png;base64,AAAA", samplePage).
Proof.
  exact (proj1 (screenshot_success_restores_document sampleCss samplePage
                  (Some {| Screenshot.excludeSelectors := Some ["p"];
                           Screenshot.format := Some "jpeg" |})
                  (fun _ => Screenshot.RasterResolves pngCanvas) pngCanvas
                  eq_refl eq_refl)).
Defined.

(** X8.  Whatever the selector engine and the raster capture do, the call
    never changes an element that matches no exclusion selector and never
    adds or removes elements, and it returns a screenshot only when nothing
    reached its [catch].  A selector text the engine rejects ends the call
    before anything is hidden or rasterised: nothing is returned and the
    document is as it was.  With the text accepted, a rejected capture
    returns nothing and leaves the document as the rasteriser saw it.
    Without a document nothing is looked at or changed. *)
Theorem screenshot_never_touches_other_elements
    (css : string -> option Js.Thrown)
    (doc : list Screenshot.Element) (options : option Screenshot.Options)
    (raster : list Screenshot.Element -> Screenshot.RasterOutcome) :
  let r := Screenshot.run css true doc options raster in
  (forall i e,
     doc !! i = Some e ->
     excludedBy options e = false ->
     snd (Screenshot.captureScreenshot css true doc options raster) !! i = Some e) /\
  length (snd (Screenshot.captureScreenshot css true doc options raster))
    = length doc /\
  (is_Some (Screenshot.caught r) -> Screenshot.returned r = None) /\
  (forall error,
     css (selectorText options) = Some error ->
     Screenshot.captureScreenshot css true doc options raster = (None, doc) /\
     Screenshot.captureScreenshot css true doc options raster
       = Screenshot.captureScreenshot css true doc options
           (fun _ => Screenshot.RasterRejects error) /\
     Screenshot.caught r = Some error) /\
  (forall error,
     css (selectorText options) = None ->
     raster (rasterInput doc options) = Screenshot.RasterRejects error ->
     Screenshot.captureScreenshot css true doc options raster =
       (None, rasterInput doc options) /\
     Screenshot.caught r = Some error) /\
  Screenshot.captureScreenshot css false doc options raster = (None, doc).
Proof.
  intros r. subst r. unfold Screenshot.captureScreenshot.
  rewrite !screenshot_run_cases.
  split_and!.
  - intros i e Hi Hex.
    destruct (css _); [exact Hi |].
    destruct (raster _) as [canvas | error].
    + destruct (Screenshot.toDataURL _ _); exact Hi.
    + cbn [snd Screenshot.document].
      rewrite (rasterInput_lookup doc options i e Hi), Hex. reflexivity.
  - destruct (css _); [reflexivity |].
    destruct (raster _) as [canvas | error].
    + destruct (Screenshot.toDataURL _ _); reflexivity.
    + cbn [snd Screenshot.document].
      unfold rasterInput, Screenshot.hideAll. apply hideAll_length.
  - destruct (css _); [reflexivity |].
    destruct (raster _) as [canvas | error]; [| reflexivity].
    destruct (Screenshot.toDataURL _ _); [| reflexivity].
    intros [x Hx]. discriminate.
  - intros error Hcss. rewrite screenshot_run_cases, Hcss.
    split_and!; reflexivity.
  - intros error Hcss Hr. rewrite Hcss, Hr. split; reflexivity.
  - reflexivity.
Qed.

(** ** Redaction applied twice *)

Section SetTwice.
Implicit Types (l : list (string * string)) (p q v w : string).

Lemma removeAll_comm p q l :
  Url.removeAll p (Url.removeAll q l) = Url.removeAll q (Url.removeAll p l).
Proof.
  induction l as [| [k x] l IH]; simpl; [reflexivity |].
  destruct (String.eqb k q) eqn:Eq, (String.eqb k p) eqn:Ep; simpl;
    rewrite ?Eq, ?Ep; simpl; rewrite ?IH; reflexivity.
Qed.

Lemma removeAll_twice p l :
  Url.removeAll p (Url.removeAll p l) = Url.removeAll p l.
Proof.
  induction l as [| [k x] l IH]; simpl; [reflexivity |].
  destruct (String.eqb k p) eqn:Ep; simpl; rewrite ?Ep; simpl;
    rewrite ?IH; reflexivity.
Qed.

Lemma has_cons k x l p :
  Url.has ((k, x) :: l) p = String.eqb k p || Url.has l p.
Proof. reflexivity. Qed.

Ltac eqb_cases :=
  repeat match goal with
         | |- context [String.eqb ?a ?b] =>
             destruct (String.eqb_spec a b); try congruence; simpl
         end.

Lemma removeAll_set p q w l :
  p <> q -> Url.has l p = true ->
  Url.removeAll q (Url.set l p w) = Url.set (Url.removeAll q l) p w.
Proof.
  intros Hpq. induction l as [| [k x] l IH]; simpl; [discriminate |].
  destruct (String.eqb_spec k p) as [Hkp | Hkp]; simpl.
  - intros _. subst k. eqb_cases. f_equal. apply removeAll_comm.
  - intros Hhas. eqb_cases; rewrite IH by exact Hhas; reflexivity.
Qed.

Lemma set_twice p w l :
  Url.has l p = true -> Url.set (Url.set l p w) p w = Url.set l p w.
Proof.
  induction l as [| [k x] l IH]; simpl; [discriminate |].
  destruct (String.eqb_spec k p) as [Hkp | Hkp]; simpl.
  - intros _. subst k. eqb_cases. f_equal. apply removeAll_twice.
  - intros Hhas. eqb_cases. f_equal. apply IH, Hhas.
Qed.

(** Two [set]s on different names that are both present commute. *)
Lemma set_comm p q v w l :
  p <> q -> Url.has l p = true -> Url.has l q = true ->
  Url.set (Url.set l q v) p w = Url.set (Url.set l p w) q v.
Proof.
  intros Hpq. induction l as [| [k x] l IH]; [discriminate |].
  rewrite !has_cons. simpl Url.set.
  destruct (String.eqb_spec k q) as [Hkq | Hkq];
    destruct (String.eqb_spec k p) as [Hkp | Hkp]; simpl; try congruence.
  - subst k. intros Hp _. eqb_cases. f_equal.
    rewrite removeAll_set by (congruence || assumption). reflexivity.
  - subst k. intros _ Hq. eqb_cases. f_equal.
    rewrite removeAll_set by (congruence || assumption). reflexivity.
  - intros Hp Hq. eqb_cases. f_equal. apply IH; assumption.
Qed.

Lemma set_length p w l :
  Url.has l p = true -> (length (Url.set l p w) <= length l)%nat.
Proof.
  induction l as [| [k x] l IH]; simpl; [discriminate |].
  destruct (String.eqb_spec k p) as [Hkp | Hkp]; simpl.
  - intros _. unfold Url.removeAll.
    pose proof (List.filter_length_le
                  (fun p0 : string * string => negb (String.eqb (fst p0) p)) l).
    lia.
  - intros Hhas. specialize (IH Hhas). lia.
Qed.

End SetTwice.

Lemma settled_after_set l p :
  Url.has l p = true -> settled (Url.set l p REDACTED) p.
Proof. intros Hp _. apply set_twice, Hp. Qed.

Lemma settled_preserved l p q :
  p <> q -> Url.has l q = true -> settled l p ->
  settled (Url.set l q REDACTED) p.
Proof.
  intros Hpq Hq Hs Hp. rewrite has_set in Hp by exact Hq.
  rewrite set_comm by assumption. rewrite (Hs Hp). reflexivity.
Qed.

Lemma redactList_settled ps : forall l (done : list string),
  (forall p, In p done -> settled l p) ->
  forall p, In p (done ++ ps) -> settled (redactList ps l) p.
Proof.
  induction ps as [| p0 ps IH]; intros l done Hdone p Hp.
  - rewrite app_nil_r in Hp. apply Hdone, Hp.
  - rewrite redactList_cons.
    apply (IH _ (done ++ [p0])); [| rewrite <- app_assoc; exact Hp].
    intros p' Hp'. destruct (Url.has l p0) eqn:H0.
    + destruct (String.eqb_spec p' p0) as [-> | Hne].
      * apply settled_after_set, H0.
      * apply settled_preserved; [exact Hne | exact H0 |].
        apply in_app_or in Hp' as [Hp' | [<- | []]]; [| congruence].
        apply Hdone, Hp'.
    + apply in_app_or in Hp' as [Hp' | [<- | []]]; [apply Hdone, Hp' |].
      intros Hhas. congruence.
Qed.

Lemma redactList_fixed ps : forall l,
  (forall p, In p ps -> settled l p) -> redactList ps l = l.
Proof.
  induction ps as [| p0 ps IH]; intros l Hs; [reflexivity |].
  rewrite redactList_cons.
  destruct (Url.has l p0) eqn:H0.
  - rewrite (Hs p0 (or_introl eq_refl) H0). apply IH.
    intros p Hp. apply Hs. right. exact Hp.
  - apply IH. intros p Hp. apply Hs. right. exact Hp.
Qed.

Lemma redactList_length ps : forall l,
  (length (redactList ps l) <= length l)%nat.
Proof.
  induction ps as [| p0 ps IH]; intros l; [reflexivity |].
  rewrite redactList_cons. etrans; [apply IH |].
  destruct (Url.has l p0) eqn:H0; [apply set_length, H0 | reflexivity].
Qed.

(** X9.  Redaction is idempotent and never adds a parameter: running the
    loop of [sanitizeUrl] again over a URL object it has already processed
    changes nothing, and the redacted parameter list is no longer than the
    original one. *)
Theorem redaction_is_idempotent (ps : list string) (u : Url.URL) :
  fold_left redactParam ps (fold_left redactParam ps u) =
    fold_left redactParam ps u /\
  redactList ps (redactList ps (Url.params u)) = redactList ps (Url.params u) /\
  (length (redactList ps (Url.params u)) <= length (Url.params u))%nat.
Proof.
  assert (Hid : forall l, redactList ps (redactList ps l) = redactList ps l).
  { intros l. apply redactList_fixed. intros p Hp.
    apply (redactList_settled ps l []); [intros ? [] | exact Hp]. }
  split_and!; [| apply Hid | apply redactList_length].
  rewrite (fold_redactParam ps u).
  destruct (existsb (Url.has (Url.params u)) ps) eqn:He.
  - rewrite fold_redactParam. simpl Url.params.
    rewrite withParams_withParams, Hid.
    destruct (existsb (Url.has (redactList ps (Url.params u))) ps);
      reflexivity.
  - rewrite fold_redactParam, He. reflexivity.
Qed.

(** ** The retry loop in general *)

Section RetryLoop.
Variable net : nat -> FetchOutcome.
Variable url : string.
Variable retries : nat.

Lemma makeRequestLoop_step_fail n i lastError trace :
  fails (net i) = true ->
  makeRequestLoop net url retries (S n) i lastError trace =
  makeRequestLoop net url retries n (S i) (Some (failureText (net i)))
    ((trace ++ [EvFetch url]) ++
     (if (i <? retries - 1)%nat then [EvSleep (2 ^ Z.of_nat i * 1000)] else [])).
Proof.
  intros Hi. simpl. destruct (net i) as [response | error]; simpl in *.
  - apply negb_true_iff in Hi. rewrite Hi.
    destruct (i <? retries - 1)%nat; [| rewrite app_nil_r]; reflexivity.
  - destruct (i <? retries - 1)%nat; [| rewrite app_nil_r]; reflexivity.
Qed.

Lemma makeRequestLoop_step_ok n i lastError trace response :
  net i = Resolves response -> resp_ok response = true ->
  makeRequestLoop net url retries (S n) i lastError trace =
  (inl response, trace ++ [EvFetch url]).
Proof. intros Hi Hok. simpl. rewrite Hi, Hok. reflexivity. Qed.

Lemma fails_false o :
  fails o = false -> exists response, o = Resolves response /\ resp_ok response = true.
Proof.
  destruct o as [response | error]; simpl; [| discriminate].
  intros H. apply negb_false_iff in H. eauto.
Qed.

(** The attempt [k] steps ahead is the first that does not fail. *)
Lemma makeRequestLoop_first_ok k : forall n i lastError trace response,
  (i + n = retries)%nat -> (k < n)%nat ->
  (forall j, (i <= j < i + k)%nat -> fails (net j) = true) ->
  net (i + k)%nat = Resolves response -> resp_ok response = true ->
  makeRequestLoop net url retries n i lastError trace =
    (inl response, trace ++ callsFrom url i (S k)).
Proof.
  induction k as [| k IH]; intros n i lastError trace response Hn Hk Hfail Hnet Hok.
  - destruct n as [| n]; [lia |].
    rewrite Nat.add_0_r in Hnet.
    apply makeRequestLoop_step_ok; assumption.
  - destruct n as [| n]; [lia |].
    rewrite makeRequestLoop_step_fail by (apply Hfail; lia).
    assert (Hlt : (i <? retries - 1)%nat = true) by (apply Nat.ltb_lt; lia).
    rewrite Hlt.
    rewrite (IH n (S i) _ _ response); try assumption; try lia.
    + rewrite <- !app_assoc. reflexivity.
    + intros j Hj. apply Hfail. lia.
    + replace (S i + k)%nat with (i + S k)%nat by lia. exact Hnet.
Qed.

(** Every run of the loop is a number of calls separated by the backoff
    waits; it ends either with the first attempt that does not fail or,
    when all fail, after the last one. *)
Lemma makeRequestLoop_shape n : forall i lastError trace,
  (i + n = retries)%nat ->
  exists m,
    (m <= n)%nat /\ (m = 0%nat <-> n = 0%nat) /\
    snd (makeRequestLoop net url retries n i lastError trace) =
      trace ++ callsFrom url i m /\
    match fst (makeRequestLoop net url retries n i lastError trace) with
    | inl response =>
        (0 < m)%nat /\ net (i + m - 1)%nat = Resolves response /\
        resp_ok response = true /\
        forall j, (i <= j < i + m - 1)%nat -> fails (net j) = true
    | inr _ =>
        m = n /\ forall j, (i <= j < i + n)%nat -> fails (net j) = true
    end.
Proof.
  induction n as [| n IH]; intros i lastError trace Hn.
  - exists 0%nat. simpl. rewrite app_nil_r.
    split_and!; try reflexivity; try lia.
  - destruct (fails (net i)) eqn:Hi.
    + rewrite makeRequestLoop_step_fail by exact Hi.
      destruct (IH (S i) (Some (failureText (net i)))
                  ((trace ++ [EvFetch url]) ++
                   (if (i <? retries - 1)%nat
                    then [EvSleep (2 ^ Z.of_nat i * 1000)] else [])))
        as (m & Hle & Hzero & Htrace & Hres); [lia |].
      exists (S m). split_and!; try lia.
      * rewrite Htrace. rewrite <- !app_assoc. f_equal. simpl.
        f_equal. destruct m as [| m'].
        -- assert (n = 0%nat) by (apply Hzero; reflexivity). subst n.
           assert (Hge : (i <? retries - 1)%nat = false)
             by (apply Nat.ltb_ge; lia).
           rewrite Hge. reflexivity.
        -- assert (Hlt : (i <? retries - 1)%nat = true)
             by (apply Nat.ltb_lt; lia).
           rewrite Hlt. reflexivity.
      * destruct (fst (makeRequestLoop net url retries n (S i) _ _))
          as [response | msg].
        -- destruct Hres as (Hpos & Hnet & Hok & Hfail).
           split_and!; try lia; try assumption.
           ++ replace (i + S m - 1)%nat with (S i + m - 1)%nat by lia.
              exact Hnet.
           ++ intros j Hj. destruct (decide (j = i)) as [-> | Hne];
                [exact Hi | apply Hfail; lia].
        -- destruct Hres as (-> & Hfail). split; [reflexivity |].
           intros j Hj. destruct (decide (j = i)) as [-> | Hne];
             [exact Hi | apply Hfail; lia].
    + destruct (fails_false _ Hi) as (response & Hnet & Hok).
      rewrite (makeRequestLoop_step_ok n i lastError trace response Hnet Hok).
      exists 1%nat. cbn [fst snd callsFrom].
      split_and!; try lia; try reflexivity; try exact Hok.
      replace (i + 1 - 1)%nat with i by lia. exact Hnet.
Qed.

End RetryLoop.

Lemma countFetch_callsFrom (url : string) (m : nat) : forall k,
  countFetch (callsFrom url k m) = m.
Proof.
  induction m as [| m IH]; intros k; [reflexivity |].
  simpl. destruct m as [| m']; [reflexivity |].
  unfold countFetch in *. simpl. f_equal. apply (IH (S k)).
Qed.

Lemma makeRequest_trace (net : nat -> FetchOutcome) (url : string)
    (retries : nat) :
  exists m,
    (m <= retries)%nat /\ (m = 0%nat <-> retries = 0%nat) /\
    snd (makeRequest net url retries) = callsFrom url 0 m /\
    countFetch (snd (makeRequest net url retries)) = m.
Proof.
  destruct (makeRequestLoop_shape net url retries retries 0 None [])
    as (m & Hle & Hzero & Htrace & _); [reflexivity |].
  exists m. unfold makeRequest. simpl in Htrace.
  split_and!; try assumption.
  rewrite Htrace. apply countFetch_callsFrom.
Qed.

Lemma makeRequest_inl (net : nat -> FetchOutcome) (url : string)
    (retries : nat) (r : Response) :
  fst (makeRequest net url retries) = inl r ->
  resp_ok r = true /\
  exists k, (k < retries)%nat /\ net k = Resolves r /\
            forall j, (j < k)%nat -> fails (net j) = true.
Proof.
  intros Hr.
  destruct (makeRequestLoop_shape net url retries retries 0 None [])
    as (m & Hle & _ & _ & Hres); [reflexivity |].
  unfold makeRequest in Hr. rewrite Hr in Hres.
  destruct Hres as (Hpos & Hn & Hk & Hf). simpl in Hn, Hf.
  split; [exact Hk |]. exists (m - 1)%nat.
  split_and!; [lia | exact Hn |]. intros j Hj. apply Hf. lia.
Qed.

Lemma makeRequest_inr (net : nat -> FetchOutcome) (url : string)
    (retries : nat) (msg : string) :
  fst (makeRequest net url retries) = inr msg ->
  forall j, (j < retries)%nat -> fails (net j) = true.
Proof.
  intros Hr.
  destruct (makeRequestLoop_shape net url retries retries 0 None [])
    as (m & Hle & _ & _ & Hres); [reflexivity |].
  unfold makeRequest in Hr. rewrite Hr in Hres.
  destruct Hres as (_ & Hf). intros j Hj. apply Hf. simpl. lia.
Qed.

(** A response is returned exactly when some attempt does not fail. *)
Lemma makeRequest_inl_iff (net : nat -> FetchOutcome) (url : string)
    (retries : nat) :
  (exists r, fst (makeRequest net url retries) = inl r) <->
  (exists i, (i < retries)%nat /\ fails (net i) = false).
Proof.
  split.
  - intros [r Hr]. destruct (makeRequest_inl _ _ _ _ Hr) as (Hok & k & Hk & Hn & _).
    exists k. split; [exact Hk |]. rewrite Hn. simpl. rewrite Hok. reflexivity.
  - intros (i & Hi & Hnf).
    destruct (fst (makeRequest net url retries)) as [r | msg] eqn:Hr; [eauto |].
    pose proof (makeRequest_inr _ _ _ _ Hr i Hi). congruence.
Qed.

(** X10.  [makeRequest] never calls [fetch] more than [retries] times, and
    all it does is call and wait: its trace is [m <= retries] calls with the
    waits 1000 ms, 2000 ms, 4000 ms, ... between consecutive calls, none
    before the first call or after the last.  It makes no call at all
    exactly when [retries] is zero, and then throws
    ["Request failed after retries"]. *)
Theorem makeRequest_calls_and_waits (net : nat -> FetchOutcome) (url : string)
    (retries : nat) :
  (exists m,
     (m <= retries)%nat /\ (m = 0%nat <-> retries = 0%nat) /\
     snd (makeRequest net url retries) = callsFrom url 0 m /\
     countFetch (snd (makeRequest net url retries)) = m) /\
  makeRequest net url 0 = (inr "Request failed after retries", []).
Proof. split; [apply makeRequest_trace | reflexivity]. Qed.

(** X11.  [makeRequest] returns the first response that is [ok]: when the
    attempts before attempt [i < retries] all fail and attempt [i] resolves
    to an [ok] response, that response is returned after exactly [i + 1]
    calls; conversely a returned response is always [ok] and is the answer
    to the first attempt that did not fail, and an error is thrown only
    when all [retries] attempts failed. *)
Theorem makeRequest_returns_first_ok (net : nat -> FetchOutcome) (url : string)
    (retries i : nat) (response : Response) :
  (i < retries)%nat ->
  (forall j, (j < i)%nat -> fails (net j) = true) ->
  net i = Resolves response ->
  resp_ok response = true ->
  makeRequest net url retries = (inl response, callsFrom url 0 (S i)) /\
  (forall net' r,
     fst (makeRequest net' url retries) = inl r ->
     resp_ok r = true /\
     exists k, (k < retries)%nat /\ net' k = Resolves r /\
               forall j, (j < k)%nat -> fails (net' j) = true) /\
  (forall net' msg,
     fst (makeRequest net' url retries) = inr msg ->
     forall j, (j < retries)%nat -> fails (net' j) = true).
Proof.
  intros Hi Hfail Hnet Hok. split_and!.
  - unfold makeRequest.
    rewrite (makeRequestLoop_first_ok net url retries i retries 0 None []
               response); try assumption; try reflexivity.
    intros j Hj. apply Hfail. lia.
  - intros net' r Hr. apply (makeRequest_inl net' url retries r Hr).
  - intros net' msg Hr. apply (makeRequest_inr net' url retries msg Hr).
Qed.

Lemma makeRequest_first_ok_witness :
  makeRequest flakyNet "https://hooks.example.com/bugs" 5 =
    (inl (okResponse []), callsFrom "https://hooks.example.com/bugs" 0 3).
Proof.
  destruct (makeRequest_returns_first_ok flakyNet
              "https://hooks.example.com/bugs" 5 2 (okResponse [])) as [H _].
  - lia.
  - intros j Hj. destruct j as [| [| j]]; [reflexivity | reflexivity | lia].
  - reflexivity.
  - reflexivity.
  - exact H.
Defined.

(** ** The adapters and the network *)

Lemma proxyAnswer_trace (r : (Response + string) * list Event) :
  snd (proxyAnswer r) = snd r.
Proof.
  destruct r as [[response | msg] trace]; [| reflexivity].
  unfold proxyAnswer. destruct (resp_json response) as [body | |]; try reflexivity.
  destruct (j_success body); reflexivity.
Qed.

Lemma webhook_answer_trace (r : (Response + string) * list Event) :
  snd (Webhook.answer r) = snd r.
Proof.
  destruct r as [[response | msg] trace]; [| reflexivity].
  unfold Webhook.answer. destruct (resp_json response); reflexivity.
Qed.

Lemma proxyAnswer_success (r : (Response + string) * list Event) :
  success (fst (proxyAnswer r)) = true -> exists response, fst r = inl response.
Proof.
  destruct r as [[response | msg] trace]; [eauto | discriminate].
Qed.

Lemma webhook_answer_success (r : (Response + string) * list Event) :
  success (fst (Webhook.answer r)) = true -> exists response, fst r = inl response.
Proof.
  destruct r as [[response | msg] trace]; [eauto | discriminate].
Qed.

Lemma makeRequest_inl_called (net : nat -> FetchOutcome) (url : string)
    (retries : nat) (response : Response) :
  fst (makeRequest net url retries) = inl response ->
  (1 <= countFetch (snd (makeRequest net url retries)))%nat.
Proof.
  intros Hr. destruct (makeRequest_inl _ _ _ _ Hr) as (_ & k & Hk & _).
  destruct (makeRequest_trace net url retries) as (m & _ & Hz & _ & ->). lia.
Qed.

(** What [submit] does with a valid configuration. *)
Lemma webhook_submit_cases (platform : Platform) (isValidUrl : string -> bool)
    (net : nat -> FetchOutcome) (data : BugReportData) (config : Webhook.Config) :
  Webhook.validateConfig isValidUrl config = true ->
  Webhook.submit platform isValidUrl net data config =
    match thrownBeforeRequest platform data config, config with
    | Some error, Webhook.ProxyMode _ =>
        (failure (thrownMessage "Failed to submit via proxy" error), [])
    | Some error, Webhook.DirectMode _ =>
        (failure (thrownMessage "Failed to submit bug report via webhook" error), [])
    | None, Webhook.ProxyMode endpoint =>
        proxyAnswer (makeRequest net (default "" endpoint) 3)
    | None, Webhook.DirectMode d =>
        Webhook.answer (makeRequest net (default "" (Webhook.d_url d))
                          (Webhook.retriesOf (Webhook.d_retries d)))
    end.
Proof.
  intros Hv. unfold Webhook.submit. rewrite Hv. cbn [negb].
  destruct config as [endpoint | d]; cbn [thrownBeforeRequest].
  - unfold submitViaProxy. destruct (stringify platform _); reflexivity.
  - destruct (Webhook.buildPayload data d) as [payload | error]; [| reflexivity].
    destruct (Webhook.buildHeaders platform d) as [headers | error]; [| reflexivity].
    destruct (Webhook.stringifyPayload platform payload); reflexivity.
Qed.

(** X12.  The webhook adapter and the network.  An invalid configuration is
    answered with ["Invalid webhook configuration"] and no call.  With a
    valid one the request is prepared first: when the payload function,
    [btoa] or [JSON.stringify] throws, the answer is an error result with
    that error's message and no call is made.  Otherwise the calls are
    those of [makeRequest] for the configured address and number of turns
    (three through the relay; [retries || 3] directly, which is none for a
    count below zero): never more than that number, and at least one when
    it is positive.  A success result is never reported without a call. *)
Theorem webhook_submit_network_calls (platform : Platform)
    (isValidUrl : string -> bool) (net : nat -> FetchOutcome)
    (data : BugReportData) (config : Webhook.Config) :
  let r := Webhook.submit platform isValidUrl net data config in
  let limit := match config with
               | Webhook.ProxyMode _ => 3%nat
               | Webhook.DirectMode d => Webhook.retriesOf (Webhook.d_retries d)
               end in
  let target := match config with
                | Webhook.ProxyMode endpoint => default "" endpoint
                | Webhook.DirectMode d => default "" (Webhook.d_url d)
                end in
  let fallback := match config with
                  | Webhook.ProxyMode _ => "Failed to submit via proxy"
                  | Webhook.DirectMode _ =>
                      "Failed to submit bug report via webhook"
                  end in
  (if Webhook.validateConfig isValidUrl config
   then match thrownBeforeRequest platform data config with
        | Some error => r = (failure (thrownMessage fallback error), [])
        | None =>
            snd r = snd (makeRequest net target limit) /\
            (countFetch (snd r) <= limit)%nat /\
            ((0 < limit)%nat -> (1 <= countFetch (snd r))%nat)
        end
   else r = (failure "Invalid webhook configuration", [])) /\
  (limit = 0%nat <->
   exists d z, config = Webhook.DirectMode d /\
               Webhook.d_retries d = Some z /\ z < 0) /\
  (success (fst r) = true -> (1 <= countFetch (snd r))%nat).
Proof.
  intros r limit target fallback.
  assert (Hcalls : forall trace,
             trace = snd (makeRequest net target limit) ->
             (countFetch trace <= limit)%nat /\
             ((0 < limit)%nat -> (1 <= countFetch trace)%nat)).
  { intros trace ->.
    destruct (makeRequest_trace net target limit) as (m & Hle & Hz & _ & ->).
    split; [exact Hle | lia]. }
  split_and!.
  - destruct (Webhook.validateConfig isValidUrl config) eqn:Hv.
    + unfold r. rewrite (webhook_submit_cases _ _ _ _ _ Hv).
      subst limit target fallback.
      destruct (thrownBeforeRequest platform data config) as [error |];
        destruct config as [endpoint | d]; try reflexivity.
      * split; [apply proxyAnswer_trace |].
        apply Hcalls, proxyAnswer_trace.
      * split; [apply webhook_answer_trace |].
        apply Hcalls, webhook_answer_trace.
    + unfold r, Webhook.submit. rewrite Hv. reflexivity.
  - subst limit. destruct config as [endpoint | d].
    + split; [discriminate | intros (d & z & H & _); discriminate].
    + split.
      * intros H0. unfold Webhook.retriesOf in H0.
        destruct (Webhook.d_retries d) as [z |] eqn:Hret; [| discriminate].
        destruct (Z.eqb_spec z 0) as [-> | Hz]; [discriminate |].
        exists d, z. split_and!; [reflexivity | exact Hret | lia].
      * intros (d' & z' & Hd' & Hz' & Hlt). injection Hd' as <-.
        unfold Webhook.retriesOf. rewrite Hz'.
        destruct (Z.eqb_spec z' 0); lia.
  - destruct (Webhook.validateConfig isValidUrl config) eqn:Hv.
    + unfold r. rewrite (webhook_submit_cases _ _ _ _ _ Hv).
      destruct (thrownBeforeRequest platform data config) as [error |];
        destruct config as [endpoint | d]; try discriminate.
      * intros Hs. apply proxyAnswer_success in Hs as [response Hr].
        rewrite proxyAnswer_trace. eapply makeRequest_inl_called. exact Hr.
      * intros Hs. apply webhook_answer_success in Hs as [response Hr].
        rewrite webhook_answer_trace. eapply makeRequest_inl_called. exact Hr.
    + unfold r, Webhook.submit. rewrite Hv. discriminate.
Qed.

(** X13.  The chat adapters never read the response body.  With a valid
    direct configuration the Slack adapter reports success exactly when one
    of its three attempts is answered with an [ok] response, whatever its
    body, and reports the last failure's message otherwise.  So does the
    Discord adapter once the report's time stamp could be written as an ISO
    date; when it could not, the adapter answers with that error and makes
    no call. *)
Theorem chat_adapters_ignore_the_body (platform : Platform)
    (net : nat -> FetchOutcome) (data : BugReportData)
    (slackHook discordHook : string) :
  Js.includes slackHook "hooks.slack.com" = true ->
  Js.includes discordHook "discord.com/api/webhooks" = true ->
  let s := Slack.submit platform net data (Slack.DirectMode (Some slackHook)) in
  let d := Discord.submit platform net data
             (Discord.DirectMode (Some discordHook)) in
  (success (fst s) = true <-> exists i, (i < 3)%nat /\ fails (net i) = false) /\
  ((forall i, (i < 3)%nat -> fails (net i) = true) ->
   fst s = failure (failureText (net 2%nat))) /\
  snd s = snd (makeRequest net slackHook 3) /\
  match toISOString platform (timestamp data) with
  | inl _ =>
      (success (fst d) = true <->
       exists i, (i < 3)%nat /\ fails (net i) = false) /\
      ((forall i, (i < 3)%nat -> fails (net i) = true) ->
       fst d = failure (failureText (net 2%nat))) /\
      snd d = snd (makeRequest net discordHook 3)
  | inr error =>
      d = (failure (thrownMessage "Failed to send bug report to Discord" error),
           [])
  end.
Proof.
  intros Hs Hd s d.
  pose proof (slack_direct_submit platform net data slackHook Hs) as Hs'.
  fold s in Hs'.
  pose proof (makeRequest_inl_iff net slackHook 3) as Hsi.
  pose proof (makeRequest_inl_iff net discordHook 3) as Hdi.
  split_and!.
  - rewrite <- Hsi, Hs'.
    destruct (makeRequest net slackHook 3) as [[r | msg] trace]; simpl.
    + split; eauto.
    + split; [discriminate | intros [r Hr]; discriminate].
  - intros Hall. rewrite Hs'.
    rewrite (makeRequest_all_fail net _ 3) by (try lia; exact Hall).
    reflexivity.
  - rewrite Hs'.
    destruct (makeRequest net slackHook 3) as [[r | msg] trace]; reflexivity.
  - destruct (toISOString platform (timestamp data)) as [iso | error] eqn:Hiso.
    + pose proof (discord_direct_submit platform net data discordHook iso Hd Hiso)
        as Hd'.
      fold d in Hd'. split_and!.
      * rewrite <- Hdi, Hd'.
        destruct (makeRequest net discordHook 3) as [[r | msg] trace]; simpl.
        -- split; eauto.
        -- split; [discriminate | intros [r Hr]; discriminate].
      * intros Hall. rewrite Hd'.
        rewrite (makeRequest_all_fail net _ 3) by (try lia; exact Hall).
        reflexivity.
      * rewrite Hd'.
        destruct (makeRequest net discordHook 3) as [[r | msg] trace]; reflexivity.
    + unfold d, Discord.submit. simpl. rewrite Hd, Hiso. reflexivity.
Qed.

Lemma chat_adapters_witness :
  success (fst (Slack.submit plainPlatform flakyNet sampleReport
                  (Slack.DirectMode (Some "https://hooks.slack.com/services/T/B/x"))))
  = true.
Proof.
  destruct (chat_adapters_ignore_the_body plainPlatform flakyNet sampleReport
              "https://hooks.slack.com/services/T/B/x"
              "https://discord.com/api/webhooks/1/abc" eq_refl eq_refl)
    as [H _].
  apply H. exists 2%nat. split; [lia | reflexivity].
Defined.

(** X14.  The relay contract.  [submitViaProxy] first writes the report as
    JSON; when that throws it answers with the error's message and the
    relay is never called.  Otherwise it reports success exactly when one
    of its three attempts is answered [ok] with a JSON object whose
    [success] is truthy, and then passes on the relay's issue id and url;
    every other outcome is an error result; and an [ok] answer is final,
    whatever it says: the relay is not asked again. *)
Theorem proxy_relay_result (platform : Platform) (net : nat -> FetchOutcome)
    (data : BugReportData) (endpoint : string) :
  let r := submitViaProxy platform net data endpoint in
  match stringify platform (ReportBody data) with
  | inr error =>
      r = (failure (thrownMessage "Failed to submit via proxy" error), [])
  | inl _ =>
      (success (fst r) = true <->
       exists response body,
         fst (makeRequest net endpoint 3) = inl response /\
         resp_json response = JsonObject body /\ j_success body = true) /\
      (forall response body,
         fst (makeRequest net endpoint 3) = inl response ->
         resp_json response = JsonObject body ->
         j_success body = true ->
         issueId (fst r) = j_issueId body /\ issueUrl (fst r) = j_issueUrl body) /\
      (forall response,
         net 0%nat = Resolves response -> resp_ok response = true ->
         snd r = [EvFetch endpoint]) /\
      snd r = snd (makeRequest net endpoint 3) /\
      (1 <= countFetch (snd r) <= 3)%nat
  end /\
  (success (fst r) = false -> exists msg, fst r = failure msg).
Proof.
  intros r. unfold r, submitViaProxy.
  destruct (stringify platform (ReportBody data)) as [body0 | error];
    [| split; [reflexivity | intros _; eauto]].
  split; [split_and! |].
  - unfold proxyAnswer.
    destruct (makeRequest net endpoint 3) as [[response | msg] trace]; simpl.
    + destruct (resp_json response) as [body | |] eqn:Hj; simpl.
      * destruct (j_success body) eqn:Hs; simpl.
        -- split; [intros _; eauto | reflexivity].
        -- split; [discriminate |].
           intros (r' & b' & Hr & Hb & Hs'). congruence.
      * split; [discriminate |].
        intros (r' & b' & Hr & Hb & Hs'). congruence.
      * split; [discriminate |].
        intros (r' & b' & Hr & Hb & Hs'). congruence.
    + split; [discriminate |].
      intros (r' & b' & Hr & Hb & Hs'). discriminate.
  - intros response body Hr Hb Hs. unfold proxyAnswer.
    destruct (makeRequest net endpoint 3) as [[response' | msg] trace];
      simpl in Hr; [| discriminate].
    injection Hr as ->. rewrite Hb, Hs. simpl. auto.
  - intros response H0 Hok. rewrite proxyAnswer_trace.
    rewrite (makeRequest_first_time net endpoint 3 response) by (try lia; assumption).
    reflexivity.
  - apply proxyAnswer_trace.
  - rewrite proxyAnswer_trace.
    destruct (makeRequest_trace net endpoint 3) as (m & Hle & Hz & _ & ->). lia.
  - rewrite proxyAnswer_trace.
    destruct (makeRequest_trace net endpoint 3) as (m & Hle & Hz & _ & ->). lia.
  - unfold proxyAnswer.
    destruct (makeRequest net endpoint 3) as [[response | msg] trace]; simpl;
      [| eauto].
    destruct (resp_json response) as [body | |]; simpl; eauto.
    destruct (j_success body); simpl; [discriminate | eauto].
Qed.

(** ** Text helpers *)

Section TextProofs.
Import Text.

Lemma length_app_string (a b : string) :
  String.length (a +:+ b) = (String.length a + String.length b)%nat.
Proof. induction a as [| c a IH]; simpl; [reflexivity | rewrite IH; reflexivity]. Qed.

Lemma takeStr_length (n : nat) : forall s,
  String.length (takeStr n s) = Nat.min n (String.length s).
Proof.
  induction n as [| n IH]; intros [| c s]; simpl; try reflexivity.
  rewrite IH. reflexivity.
Qed.

Lemma escapeClass_ext (p q : ascii -> bool) (s : string) :
  (forall c, p c = q c) -> escapeClass p s = escapeClass q s.
Proof.
  intros H. induction s as [| c s IH]; simpl; [reflexivity |].
  rewrite H, IH. reflexivity.
Qed.

(** Two passes over disjoint classes, the second of which does not
    contain the backslash, are one pass over the union. *)
Lemma escapeClass_compose (p q : ascii -> bool) (s : string) :
  q "\"%char = false ->
  (forall c, p c = true -> q c = false) ->
  escapeClass q (escapeClass p s) = escapeClass (fun c => p c || q c) s.
Proof.
  intros Hb Hd. induction s as [| c s IH]; simpl; [reflexivity |].
  destruct (p c) eqn:Hp; simpl.
  - rewrite Hb, (Hd c Hp), IH. reflexivity.
  - destruct (q c); rewrite IH; reflexivity.
Qed.

Lemma escapeClass_length (p : ascii -> bool) (s : string) :
  String.length (escapeClass p s) = (String.length s + countClass p s)%nat.
Proof.
  induction s as [| c s IH]; simpl; [reflexivity |].
  destruct (p c); simpl; rewrite IH; lia.
Qed.

Lemma escapeClass_none (p : ascii -> bool) (s : string) :
  countClass p s = 0%nat -> escapeClass p s = s.
Proof.
  induction s as [| c s IH]; simpl; [reflexivity |].
  destruct (p c); [discriminate |]. simpl. intros H. rewrite IH by exact H.
  reflexivity.
Qed.

Lemma isChar_true a c : isChar a c = true -> c = a.
Proof. unfold isChar. intros H. apply Ascii.eqb_eq in H. exact H. Qed.

End TextProofs.

(** X15.  [truncateText] shortens to the limit only when the limit leaves
    room for the ellipsis: a text within the limit is returned as it is; a
    longer text with a limit of at least three becomes its first
    [maxLength - 3] characters followed by ["..."], exactly [maxLength]
    long; with a limit below three a longer text becomes ["..."], which is
    longer than the limit. *)
Theorem truncateText_length (text : string) (maxLength : Z) :
  (Z.of_nat (String.length text) <= maxLength ->
   Text.truncateText text maxLength = text) /\
  (maxLength < Z.of_nat (String.length text) ->
   3 <= maxLength ->
   Text.truncateText text maxLength =
     Text.takeStr (Z.to_nat (maxLength - 3)) text +:+ "..." /\
   Z.of_nat (String.length (Text.truncateText text maxLength)) = maxLength) /\
  (maxLength < Z.of_nat (String.length text) ->
   maxLength < 3 ->
   Text.truncateText text maxLength = "...").
Proof.
  unfold Text.truncateText, Text.substring0. split_and!.
  - intros H. apply Z.leb_le in H. rewrite H. reflexivity.
  - intros Hlong Hmax.
    assert (Hle : (Z.of_nat (String.length text) <=? maxLength) = false)
      by (apply Z.leb_gt; lia).
    rewrite Hle. rewrite Z.max_r by lia. split; [reflexivity |].
    rewrite length_app_string, takeStr_length. simpl. lia.
  - intros Hlong Hmax.
    assert (Hle : (Z.of_nat (String.length text) <=? maxLength) = false)
      by (apply Z.leb_gt; lia).
    rewrite Hle. rewrite Z.max_l by lia. simpl.
    destruct text; reflexivity.
Qed.

Lemma truncateText_witness :
  Text.truncateText "Cannot read properties of undefined" 10 = "Cannot ..." /\
  Text.truncateText "abc" 2 = "...".
Proof.
  destruct (truncateText_length "Cannot read properties of undefined" 10)
    as (_ & H & _).
  destruct (truncateText_length "abc" 2) as (_ & _ & H2).
  split.
  - destruct H as [H _]; [reflexivity | discriminate |]. rewrite H. reflexivity.
  - apply H2; reflexivity.
Defined.

(** X16.  The five replacements of [sanitizeForMarkdown] amount to one pass
    that puts a backslash before every backslash, asterisk, underscore,
    hash and square bracket of the input and changes nothing else: a
    backslash added by one replacement is never escaped again by a later
    one, the result is longer by exactly the number of such characters, and
    a text without them is returned unchanged. *)
Theorem sanitizeForMarkdown_single_pass (text : string) :
  Text.sanitizeForMarkdown text = Text.escapeClass Text.isMarkdownSpecial text /\
  String.length (Text.sanitizeForMarkdown text) =
    (String.length text + Text.countClass Text.isMarkdownSpecial text)%nat /\
  (Text.countClass Text.isMarkdownSpecial text = 0%nat ->
   Text.sanitizeForMarkdown text = text).
Proof.
  assert (H : Text.sanitizeForMarkdown text =
              Text.escapeClass Text.isMarkdownSpecial text).
  { unfold Text.sanitizeForMarkdown.
    rewrite (escapeClass_compose (Text.isChar "\") (Text.isChar "*"));
      [| reflexivity | intros c Hc; apply isChar_true in Hc; subst; reflexivity].
    rewrite (escapeClass_compose _ (Text.isChar "_"));
      [| reflexivity
       | intros c Hc; apply orb_true_iff in Hc as [Hc | Hc];
         apply isChar_true in Hc; subst; reflexivity].
    rewrite (escapeClass_compose _ (Text.isChar "#"));
      [| reflexivity
       | intros c Hc; repeat (apply orb_true_iff in Hc as [Hc | Hc]);
         apply isChar_true in Hc; subst; reflexivity].
    rewrite (escapeClass_compose _ (fun c => Text.isChar "[" c || Text.isChar "]" c));
      [| reflexivity
       | intros c Hc; repeat (apply orb_true_iff in Hc as [Hc | Hc]);
         apply isChar_true in Hc; subst; reflexivity].
    apply escapeClass_ext. intros c. unfold Text.isMarkdownSpecial.
    rewrite !orb_assoc. reflexivity. }
  split_and!; [exact H | |].
  - rewrite H. apply escapeClass_length.
  - intros Hz. rewrite H. apply escapeClass_none, Hz.
Qed.

(** ** Report validation *)

Section EmailProofs.
Import Validation.

Lemma splitAt_found (c : ascii) : forall s l r,
  SimpleUrl.splitAt c s = (l, Some r) ->
  s = l +:+ String c r /\ allChars (fun a => negb (Ascii.eqb a c)) l = true.
Proof.
  induction s as [| a s IH]; intros l r; simpl; [discriminate |].
  destruct (Ascii.eqb_spec a c) as [-> | Hne].
  - intros H. injection H as <- <-. auto.
  - destruct (SimpleUrl.splitAt c s) as [l' r'] eqn:Hs.
    intros H. injection H as <- ->.
    destruct (IH l' r eq_refl) as [-> Hl]. simpl.
    split; [reflexivity |].
    rewrite Hl. destruct (Ascii.eqb_spec a c); [contradiction | reflexivity].
Qed.

Lemma splitAt_first (c : ascii) : forall l r,
  allChars (fun a => negb (Ascii.eqb a c)) l = true ->
  SimpleUrl.splitAt c (l +:+ String c r) = (l, Some r).
Proof.
  induction l as [| a l IH]; intros r; simpl.
  - intros _. rewrite Ascii.eqb_refl. reflexivity.
  - intros H. apply andb_true_iff in H as [Ha Hl].
    apply negb_true_iff in Ha. rewrite Ha, (IH r Hl). reflexivity.
Qed.

Lemma allChars_app (p : ascii -> bool) (a b : string) :
  allChars p (a +:+ b) = allChars p a && allChars p b.
Proof.
  induction a as [| c a IH]; simpl; [reflexivity |].
  rewrite IH, andb_assoc. reflexivity.
Qed.

Lemma allChars_weaken (p q : ascii -> bool) (s : string) :
  (forall c, p c = true -> q c = true) ->
  allChars p s = true -> allChars q s = true.
Proof.
  intros H. induction s as [| c s IH]; simpl; [reflexivity |].
  intros Hs. apply andb_true_iff in Hs as [Hc Hs].
  rewrite (H c Hc), (IH Hs). reflexivity.
Qed.

Lemma innerDot_iff (s : string) : forall seen,
  innerDot seen s = true <->
  exists b c, s = b +:+ String "." c /\ c <> "" /\ (seen = true \/ b <> "").
Proof.
  induction s as [| a s IH]; intros seen; simpl.
  - split; [discriminate |]. intros (b & c & H & _). destruct b; discriminate.
  - rewrite orb_true_iff, IH. split.
    + intros [H | (b & c & -> & Hc & _)].
      * apply andb_true_iff in H as [H Hs].
        apply andb_true_iff in H as [-> Ha].
        apply Ascii.eqb_eq in Ha. subst a.
        exists "", s. split_and!; [reflexivity | | auto].
        intros ->. discriminate.
      * exists (String a b), c. split_and!; [reflexivity | exact Hc |].
        right. discriminate.
    + intros (b & c & H & Hc & Hb). destruct b as [| a' b]; simpl in H.
      * injection H as -> ->. destruct Hb as [-> | Hb]; [| congruence].
        left. simpl. destruct c; [congruence | reflexivity].
      * injection H as -> ->. right. exists b, c. auto.
Qed.

End EmailProofs.

(** X17.  The e-mail check accepts exactly the strings of the form
    [a@b.c] in which [a], [b] and [c] are non-empty and contain neither
    white space nor [@] (so exactly one [@], and a dot after it that is
    neither the first nor the last character of the domain). *)
Theorem isValidEmail_shape (email : string) :
  Validation.isValidEmail email = true <->
  exists a b c,
    email = a +:+ "@" +:+ b +:+ "." +:+ c /\
    a <> "" /\ b <> "" /\ c <> "" /\
    Validation.allChars Validation.emailChar a = true /\
    Validation.allChars Validation.emailChar b = true /\
    Validation.allChars Validation.emailChar c = true.
Proof.
  assert (Hat : forall s, Validation.allChars Validation.emailChar s = true ->
                          Validation.allChars (fun a => negb (Ascii.eqb a "@")) s = true).
  { intros s. apply allChars_weaken. intros ch. unfold Validation.emailChar.
    rewrite !negb_true_iff, orb_false_iff. intros [_ H]. exact H. }
  unfold Validation.isValidEmail. split.
  - destruct (SimpleUrl.splitAt "@" email) as [localPart [domain |]] eqn:Hs;
      [| discriminate].
    intros H.
    apply andb_true_iff in H as [H Hd].
    apply andb_true_iff in H as [H Hdom].
    apply andb_true_iff in H as [Hne Hloc].
    apply splitAt_found in Hs as [-> _].
    apply innerDot_iff in Hd as (b & c & -> & Hc & [Hf | Hb]); [discriminate |].
    rewrite allChars_app in Hdom. apply andb_true_iff in Hdom as [Hb' Hc'].
    simpl in Hc'.
    exists localPart, b, c. split_and!; try assumption; try reflexivity.
    apply negb_true_iff in Hne. intros ->. discriminate.
  - intros (a & b & c & -> & Ha & Hb & Hc & Hca & Hcb & Hcc).
    change (a +:+ "@" +:+ b +:+ "." +:+ c)
      with (a +:+ String "@" (b +:+ String "." c)).
    rewrite (splitAt_first "@" a _ (Hat a Hca)).
    rewrite Hca, allChars_app, Hcb. simpl. rewrite Hcc.
    assert (Hd : Validation.innerDot false (b +:+ String "." c) = true).
    { apply innerDot_iff. exists b, c. auto. }
    rewrite Hd. destruct a; [congruence | reflexivity].
Qed.

Lemma length_zero_iff_nil {A} (l : list A) : Nat.eqb (length l) 0 = true <-> l = [].
Proof. destruct l; simpl; split; congruence. Qed.

(** X18.  Validation is a gate in front of the dispatch: a form with any
    validation error is never handed to an adapter, and a mounted, idle
    handler answers it with the errors joined by [", "]; the report passes
    exactly when there is no error; a required title that is missing or
    blank is always the first error, and a non-empty e-mail address that
    fails the e-mail check is always reported. *)
Theorem invalid_form_is_never_dispatched {Report Config : Type}
    (integrations : gmap string (Report -> Config -> Dispatcher.Settled))
    (isValidUrl : string -> bool) (rules : option Validation.Rules)
    (uiFields : option (list Validation.Field))
    (mounted isSubmitting : bool) (data : Validation.ReportInput)
    (fullReportData : Report) (transformData : option (Report -> Report))
    (entries : option (list (string * option Config))) :
  let v := Validation.validateBugReport isValidUrl rules uiFields data in
  let run := validateAndSubmit integrations isValidUrl rules uiFields mounted
               isSubmitting data fullReportData transformData entries in
  (Dispatcher.isValid v = true <-> Dispatcher.errors v = []) /\
  (Dispatcher.errors v <> [] ->
   Dispatcher.started run = [] /\ Dispatcher.settled run = [] /\
   (mounted = true -> isSubmitting = false ->
    Dispatcher.outcome run =
      Dispatcher.Failure (Js.join ", " (Dispatcher.errors v)))) /\
  (forall r,
     rules = Some r -> Validation.requireTitle r = true ->
     Validation.blank (Validation.in_title data) = true ->
     head (Dispatcher.errors v) = Some "Title is required") /\
  (forall email,
     Validation.in_userEmail data = Some email -> email <> "" ->
     Validation.isValidEmail email = false ->
     In "Please enter a valid email address" (Dispatcher.errors v)).
Proof.
  intros v run. split_and!.
  - unfold v, Validation.validateBugReport. simpl. apply length_zero_iff_nil.
  - intros Hne.
    assert (Hv : Dispatcher.isValid v = false).
    { destruct (Dispatcher.isValid v) eqn:E; [| reflexivity].
      exfalso. apply Hne. unfold v, Validation.validateBugReport in *.
      simpl in *. apply length_zero_iff_nil. exact E. }
    unfold run, validateAndSubmit, Dispatcher.handleSubmit. fold v.
    destruct (negb mounted || isSubmitting) eqn:Hg.
    + split_and!; try reflexivity. intros -> ->. discriminate.
    + rewrite Hv. simpl. split_and!; reflexivity.
  - intros r -> Hr Hb. unfold v, Validation.validateBugReport. simpl.
    rewrite Hr, Hb. reflexivity.
  - intros email He Hne Hinv.
    assert (Hn : negb (String.eqb email "") = true).
    { apply negb_true_iff. apply String.eqb_neq. exact Hne. }
    unfold v, Validation.validateBugReport. cbn [Dispatcher.errors].
    rewrite He, Hinv, Hn. rewrite !in_app_iff.
    do 3 right. left. left. reflexivity.
Qed.



(** ** Installing and removing the interceptors *)

Section HooksProofs.
Import Hooks.

Lemma objSet_fresh (obj : list (string * Fn)) (key : string) (value : Fn) :
  key ∉ map fst obj -> objSet obj key value = obj ++ [(key, value)].
Proof.
  induction obj as [| [k v] obj IH]; simpl; [reflexivity |].
  intros Hk. apply not_elem_of_cons in Hk as [Hne Hk].
  destruct (String.eqb_spec k key); [congruence |].
  rewrite IH by exact Hk. reflexivity.
Qed.

Lemma restoreConsole_app (o1 o2 : list (string * Fn)) (c : gmap string Fn) :
  restoreConsole (o1 ++ o2) c = restoreConsole o2 (restoreConsole o1 c).
Proof. unfold restoreConsole. apply fold_left_app. Qed.

Lemma restoreConsole_insert_fresh (o : list (string * Fn)) :
  forall (c : gmap string Fn) (key : string) (value : Fn),
    key ∉ map fst o ->
    restoreConsole o (<[key := value]> c) = <[key := value]> (restoreConsole o c).
Proof.
  induction o as [| [k v] o IH]; intros c key value Hk; [reflexivity |].
  simpl in Hk. apply not_elem_of_cons in Hk as [Hne Hk].
  unfold restoreConsole in *. simpl.
  rewrite insert_insert_ne by congruence. apply IH. exact Hk.
Qed.

Lemma restoreConsole_lookup_fresh (o : list (string * Fn)) :
  forall (c : gmap string Fn) (key : string),
    key ∉ map fst o -> restoreConsole o c !! key = c !! key.
Proof.
  induction o as [| [k v] o IH]; intros c key Hk; [reflexivity |].
  simpl in Hk. apply not_elem_of_cons in Hk as [Hne Hk].
  unfold restoreConsole in *. simpl. rewrite IH by exact Hk.
  apply lookup_insert_ne. congruence.
Qed.

(** Wrapping a list of distinct methods and restoring what was saved
    gives back what restoring the earlier savings alone would give. *)
Lemma intercept_then_restore (ms : list string) :
  NoDup ms ->
  forall (originals : list (string * Fn)) (c : gmap string Fn),
    (forall m, m ∈ ms -> m ∉ map fst originals) ->
    restoreConsole (fst (fold_left interceptMethod ms (originals, c)))
                   (snd (fold_left interceptMethod ms (originals, c))) =
    restoreConsole originals c.
Proof.
  induction 1 as [| m ms Hm Hnd IH]; intros originals c Hfresh; [reflexivity |].
  simpl fold_left. unfold interceptMethod at 2 4. cbn [fst snd].
  assert (Hmo : m ∉ map fst originals) by (apply Hfresh; left).
  destruct (c !! m) as [f |] eqn:Hc.
  - rewrite IH.
    + rewrite objSet_fresh by exact Hmo.
      rewrite restoreConsole_app. unfold restoreConsole at 1. simpl.
      rewrite restoreConsole_insert_fresh by exact Hmo.
      rewrite insert_insert_eq. apply insert_id.
      rewrite restoreConsole_lookup_fresh by exact Hmo. exact Hc.
    + intros m' Hm'. rewrite objSet_fresh by exact Hmo.
      rewrite map_app. simpl. intros Hin.
      apply elem_of_app in Hin as [Hin | Hin].
      * revert Hin. apply Hfresh. right. exact Hm'.
      * apply list_elem_of_singleton in Hin. subst m'. contradiction.
  - apply IH. intros m' Hm'. apply Hfresh. right. exact Hm'.
Qed.

Lemma methods_NoDup : NoDup methods.
Proof. apply (bool_decide_unpack (NoDup methods)). vm_compute. reflexivity. Qed.

Lemma removeEventListener_add (ls : list (string * Fn)) (type : string) (f : Fn) :
  removeEventListener (addEventListener ls type f) type f =
  removeEventListener ls type f.
Proof.
  unfold addEventListener, removeEventListener.
  case_bool_decide; [reflexivity |].
  rewrite List.filter_app. simpl.
  rewrite bool_decide_true by reflexivity. simpl. apply app_nil_r.
Qed.

Lemma removeEventListener_add_other (ls : list (string * Fn))
    (t1 t2 : string) (f1 f2 : Fn) :
  (t1, f1) <> (t2, f2) ->
  removeEventListener (addEventListener ls t2 f2) t1 f1 =
  addEventListener (removeEventListener ls t1 f1) t2 f2.
Proof.
  intros Hne. unfold addEventListener, removeEventListener.
  assert (Hin : (t2, f2) ∈ ls <->
                (t2, f2) ∈ List.filter
                  (fun l => negb (bool_decide (l = (t1, f1)))) ls).
  { rewrite !list_elem_of_In, filter_In. split; [| tauto].
    intros H. split; [exact H |].
    rewrite bool_decide_false by congruence. reflexivity. }
  repeat case_bool_decide; try tauto; try reflexivity.
  rewrite List.filter_app. simpl.
  rewrite (bool_decide_false ((t2, f2) = (t1, f1))) by congruence.
  reflexivity.
Qed.

End HooksProofs.

(** X20.  Starting and stopping are idempotent and undo each other: on an
    idle session [startCapturing] installs the wrappers, a second
    [startCapturing] changes nothing (no double wrapping); the following
    [stopCapturing] gives back the very console methods and the very
    [XMLHttpRequest.prototype.open] that were there, removes the two error
    listeners, empties the saved originals, and a second [stopCapturing]
    changes nothing; [window.fetch] is left as the bound copy
    [fetch.bind(window)] of the function that was there. *)
Theorem start_then_stop_restores_hooks (now now' : Z) (s : Hooks.Session)
    (g : Hooks.Globals) :
  Hooks.isCapturing s = false ->
  Hooks.originalConsoleMethods s = [] ->
  let started := Hooks.startCapturing true now s g in
  let stopped := Hooks.stopCapturing true (fst started) (snd started) in
  Hooks.startCapturing true now' (fst started) (snd started) = started /\
  Hooks.isCapturing (fst started) = true /\
  Hooks.windowFetch (snd started) = Hooks.FetchWrapper /\
  Hooks.xhrOpen (snd started) = Hooks.XhrOpenWrapper /\
  Hooks.console (snd stopped) = Hooks.console g /\
  Hooks.xhrOpen (snd stopped) = Hooks.xhrOpen g /\
  Hooks.windowFetch (snd stopped) = Hooks.Bound (Hooks.windowFetch g) /\
  Hooks.listeners (snd stopped) =
    Hooks.removeEventListener
      (Hooks.removeEventListener (Hooks.listeners g) "error" Hooks.HandleError)
      "unhandledrejection" Hooks.HandleUnhandledRejection /\
  Hooks.isCapturing (fst stopped) = false /\
  Hooks.originalConsoleMethods (fst stopped) = [] /\
  Hooks.stopCapturing true (fst stopped) (snd stopped) = stopped /\
  Hooks.stopCapturing true s g = (s, g).
Proof.
  intros Hidle Horig started stopped.
  unfold stopped, started, Hooks.startCapturing, Hooks.stopCapturing.
  rewrite Hidle, Horig. cbn [orb negb].
  pose proof (intercept_then_restore Hooks.methods methods_NoDup [] (Hooks.console g))
    as Hconsole.
  unfold Hooks.interceptConsole.
  destruct (fold_left Hooks.interceptMethod Hooks.methods ([], Hooks.console g))
    as [originals console'].
  cbn [fst snd Hooks.isCapturing Hooks.originalFetch Hooks.originalXhrOpen
       Hooks.originalConsoleMethods Hooks.console Hooks.windowFetch
       Hooks.xhrOpen Hooks.listeners Hooks.startTime orb negb default
       from_option id] in *.
  split_and!; try reflexivity.
  - apply Hconsole. intros m _ Hin. simpl in Hin. inversion Hin.
  - rewrite removeEventListener_add_other by discriminate.
    rewrite !removeEventListener_add. reflexivity.
Qed.

Lemma start_then_stop_witness :
  Hooks.console
    (snd (Hooks.stopCapturing true
            (fst (Hooks.startCapturing true 5 Hooks.idle browserGlobals))
            (snd (Hooks.startCapturing true 5 Hooks.idle browserGlobals))))
  = Hooks.console browserGlobals.
Proof.
  destruct (start_then_stop_restores_hooks 5 6 Hooks.idle browserGlobals
              eq_refl eq_refl) as (_ & _ & _ & _ & H & _).
  exact H.
Defined.

(** ** Materialising a report *)

Lemma record_isCapturing (evs : list (ConsoleLogEntry + NetworkRequestEntry)) :
  forall c, isCapturing (fold_left record evs c) = isCapturing c.
Proof.
  induction evs as [| ev evs IH]; intros c; [reflexivity |].
  simpl fold_left. rewrite IH. destruct ev; reflexivity.
Qed.

(** What [captureReport] returns, with the screenshot's part named. *)
Lemma captureReport_parts (css : string -> option Js.Thrown) (self : Capture)
    (call : ConsoleCall) (page : Page) (hasDocument : bool)
    (doc : list Screenshot.Element)
    (raster : list Screenshot.Element -> Screenshot.RasterOutcome)
    (additionalData : option PartialReport) :
  let run := Screenshot.run css
               (bool_decide (is_Some (page_window page)) && hasDocument)
               doc None raster in
  let r := captureReport css self call page hasDocument doc raster additionalData in
  let a := default emptyPartial additionalData in
  snd (fst r) = Screenshot.document run /\
  snd r = logScreenshotFailure self call run /\
  screenshot (fst (fst r)) = default (Screenshot.returned run) (p_screenshot a) /\
  reportConsoleLogs (fst (fst r))
    = default (consoleLogs (snd r)) (p_consoleLogs a) /\
  reportNetworkRequests (fst (fst r))
    = default (networkRequests self) (p_networkRequests a) /\
  networkRequests (snd r) = networkRequests self /\
  options (snd r) = options self /\
  isCapturing (snd r) = isCapturing self.
Proof.
  intros run r a. subst r. unfold captureReport, captureScreenshot.
  fold run. cbn [fst snd reportConsoleLogs reportNetworkRequests screenshot].
  fold a. unfold logScreenshotFailure.
  destruct (Screenshot.caught run); [destruct (isCapturing self) eqn:Hc |];
    cbn; rewrite ?Hc; split_and!; reflexivity.
Qed.

(** X21.  A report gathers what the session holds.  After any interleaving
    of console calls and requests on a session with capacities of at least
    one, [captureReport()] in a browser takes the screenshot first.  When
    that reaches the [catch] of [captureScreenshot] while the session is
    capturing, the failure is itself a console call and becomes the newest
    log entry; otherwise the session is left as it was.  The report then
    carries the last [K] entries of each kind as the session holds them at
    that moment, the clock's reading, the page's address and viewport, the
    screenshot the call returned, and the document is as that call left it:
    restored and encoded as PNG when the raster capture resolves, hidden and
    without a screenshot when it rejects. *)
Theorem report_gathers_buffers_and_screenshot
    (css : string -> option Js.Thrown) (o : CaptureOptions) (capturing : bool)
    (evs : list (ConsoleLogEntry + NetworkRequestEntry)) (call : ConsoleCall)
    (page : Page) (href : string) (width height : Z)
    (doc : list Screenshot.Element)
    (raster : list Screenshot.Element -> Screenshot.RasterOutcome) :
  0 < maxConsoleLogs o ->
  0 < maxNetworkRequests o ->
  page_window page = Some (href, width, height) ->
  let c := fold_left record evs (sessionWith o capturing) in
  let r := captureReport css c call page true doc raster None in
  let report := fst (fst r) in
  let run := Screenshot.run css true doc None raster in
  let logged := match Screenshot.caught run with
                | Some _ => if capturing then [screenshotFailureLog call] else []
                | None => []
                end in
  reportConsoleLogs report
    = lastN (Z.to_nat (maxConsoleLogs o)) (logsOf evs ++ logged) /\
  reportNetworkRequests report
    = lastN (Z.to_nat (maxNetworkRequests o)) (requestsOf evs) /\
  consoleLogs (snd r) = reportConsoleLogs report /\
  networkRequests (snd r) = reportNetworkRequests report /\
  (logged = [] -> snd r = c) /\
  timestamp report = page_now page /\
  url report = href /\
  viewportWidth report = width /\
  viewportHeight report = height /\
  screenshot report = Screenshot.returned run /\
  snd (fst r) = Screenshot.document run /\
  (forall canvas dataUrl,
     css (selectorText None) = None ->
     raster (rasterInput doc None) = Screenshot.RasterResolves canvas ->
     Screenshot.toDataURL canvas "image/png" = inl dataUrl ->
     screenshot report = Some dataUrl /\ snd (fst r) = doc /\ logged = []) /\
  (forall error,
     css (selectorText None) = None ->
     raster (rasterInput doc None) = Screenshot.RasterRejects error ->
     screenshot report = None /\ snd (fst r) = rasterInput doc None /\
     logged = if capturing then [screenshotFailureLog call] else []).
Proof.
  intros Hc Hn Hw c r report run logged.
  destruct (record_buffers o evs (sessionWith o capturing) eq_refl Hc Hn)
    as (H1 & H2 & H3); [simpl; lia | simpl; lia |].
  fold c in H1, H2, H3. simpl in H1, H2.
  pose proof (record_isCapturing evs (sessionWith o capturing)) as Hcap.
  fold c in Hcap. simpl in Hcap.
  destruct (captureReport_parts css c call page true doc raster None)
    as (Hdoc & Hself & Hshot & Hlogs & Hreqs & Hnet & _).
  fold r in Hdoc, Hself, Hshot, Hlogs, Hreqs, Hnet.
  rewrite Hw in Hdoc, Hself, Hshot.
  rewrite bool_decide_true in Hdoc, Hself, Hshot by (eexists; reflexivity).
  cbn [andb default from_option id emptyPartial p_screenshot p_consoleLogs
       p_networkRequests] in Hdoc, Hself, Hshot, Hlogs, Hreqs.
  fold run in Hdoc, Hself, Hshot. fold report in Hshot, Hlogs, Hreqs.
  assert (Hsession : consoleLogs (snd r)
                     = lastN (Z.to_nat (maxConsoleLogs o)) (logsOf evs ++ logged)).
  { rewrite Hself. unfold logScreenshotFailure, logged. rewrite Hcap.
    destruct (Screenshot.caught run); [destruct capturing |];
      rewrite ?app_nil_r; try exact H1.
    simpl. rewrite H3, pushBounded_pos, H1 by assumption.
    apply lastN_app_lastN. }
  assert (Hquiet : logged = [] -> snd r = c).
  { rewrite Hself. unfold logScreenshotFailure, logged. rewrite Hcap.
    destruct (Screenshot.caught run); [destruct capturing |];
      try reflexivity. discriminate. }
  unfold run in logged. unfold logged.
  assert (Hrun := screenshot_run_cases css doc None raster). fold run in Hrun.
  split_and!.
  - rewrite Hlogs. exact Hsession.
  - rewrite Hreqs. exact H2.
  - rewrite Hlogs. reflexivity.
  - rewrite Hnet, Hreqs. reflexivity.
  - exact Hquiet.
  - unfold report, r, captureReport, captureScreenshot. reflexivity.
  - unfold report, r, captureReport, captureScreenshot. rewrite Hw. reflexivity.
  - unfold report, r, captureReport, captureScreenshot. rewrite Hw. reflexivity.
  - unfold report, r, captureReport, captureScreenshot. rewrite Hw. reflexivity.
  - exact Hshot.
  - exact Hdoc.
  - intros canvas dataUrl Hcss Hr Hd. rewrite Hshot, Hdoc. fold run.
    rewrite Hrun, Hcss, Hr.
    change (Screenshot.toDataURL canvas _)
      with (Screenshot.toDataURL canvas "image/png").
    rewrite Hd. auto.
  - intros error Hcss Hr. rewrite Hshot, Hdoc. fold run.
    rewrite Hrun, Hcss, Hr. auto.
Qed.

Lemma report_gathers_witness :
  reportConsoleLogs
    (fst (fst (captureReport sampleCss
                 (fold_left record
                    [inl (logOf "a"); inr (requestTo "/x"); inl (logOf "b");
                     inl (logOf "c")]
                    (sessionWith (withCapacities 2 1) true))
                 sampleCall browserPage true samplePage
                 (fun _ => Screenshot.RasterRejects (Js.ThrownError "tainted"))
                 None)))
  = [logOf "c"; screenshotFailureLog sampleCall].
Proof.
  destruct (report_gathers_buffers_and_screenshot sampleCss (withCapacities 2 1)
              true
              [inl (logOf "a"); inr (requestTo "/x"); inl (logOf "b");
               inl (logOf "c")]
              sampleCall browserPage "https://app.example.com/checkout" 1280 720
              samplePage
              (fun _ => Screenshot.RasterRejects (Js.ThrownError "tainted"))
              eq_refl eq_refl eq_refl) as [H _].
  exact H.
Defined.

(** X22.  What the caller passes to [captureReport] is spread last and so
    wins over every default, the two buffers and the screenshot included (a
    [screenshot] key that is present and [undefined] removes the captured
    image).  The screenshot is taken all the same, so the document and the
    session end up as [captureScreenshot()] leaves them whatever was passed:
    the session with the failure of the screenshot logged when there was one
    while it was capturing, and otherwise unchanged.  A buffer the caller
    did not pass is the session's as it is after that.  Where there is no
    [window] nothing is captured, logged or changed and the defaults are the
    empty address and a 0 x 0 viewport. *)
Theorem caller_fields_override_defaults (css : string -> option Js.Thrown)
    (self : Capture) (call : ConsoleCall) (page : Page)
    (hasDocument : bool) (doc : list Screenshot.Element)
    (raster : list Screenshot.Element -> Screenshot.RasterOutcome)
    (a : PartialReport) :
  let r := captureReport css self call page hasDocument doc raster (Some a) in
  let plain := captureReport css self call page hasDocument doc raster None in
  let run := Screenshot.run css
               (bool_decide (is_Some (page_window page)) && hasDocument)
               doc None raster in
  snd (fst r) = snd (fst plain) /\
  snd r = snd plain /\
  snd r = logScreenshotFailure self call run /\
  (Screenshot.caught run = None \/ isCapturing self = false -> snd r = self) /\
  (forall error,
     Screenshot.caught run = Some error -> isCapturing self = true ->
     snd r = addConsoleLog self (screenshotFailureLog call)) /\
  (forall logs,
     p_consoleLogs a = Some logs -> reportConsoleLogs (fst (fst r)) = logs) /\
  (p_consoleLogs a = None ->
     reportConsoleLogs (fst (fst r)) = getConsoleLogs (snd r)) /\
  (forall reqs,
     p_networkRequests a = Some reqs ->
     reportNetworkRequests (fst (fst r)) = reqs) /\
  (p_networkRequests a = None ->
     reportNetworkRequests (fst (fst r)) = getNetworkRequests self /\
     reportNetworkRequests (fst (fst r)) = getNetworkRequests (snd r)) /\
  (forall shot, p_screenshot a = Some shot -> screenshot (fst (fst r)) = shot) /\
  (p_screenshot a = None ->
     screenshot (fst (fst r)) = screenshot (fst (fst plain))) /\
  (forall t, p_timestamp a = Some t -> timestamp (fst (fst r)) = t) /\
  (forall u, p_url a = Some u -> url (fst (fst r)) = u) /\
  title (fst (fst r)) = p_title a /\
  description (fst (fst r)) = p_description a /\
  userEmail (fst (fst r)) = p_userEmail a /\
  title (fst (fst plain)) = None /\
  (page_window page = None ->
     snd (fst r) = doc /\ snd r = self /\
     screenshot (fst (fst plain)) = None /\
     url (fst (fst plain)) = "" /\
     viewportWidth (fst (fst plain)) = 0 /\
     viewportHeight (fst (fst plain)) = 0).
Proof.
  intros r plain run.
  destruct (captureReport_parts css self call page hasDocument doc raster (Some a))
    as (Hdoc & Hself & Hshot & Hlogs & Hreqs & Hnet & _).
  destruct (captureReport_parts css self call page hasDocument doc raster None)
    as (Hdoc0 & Hself0 & Hshot0 & _).
  fold r run in Hdoc, Hself, Hshot, Hlogs, Hreqs, Hnet.
  fold plain run in Hdoc0, Hself0, Hshot0.
  cbn [default from_option id emptyPartial p_screenshot] in *.
  split_and!.
  - rewrite Hdoc, Hdoc0. reflexivity.
  - rewrite Hself, Hself0. reflexivity.
  - exact Hself.
  - rewrite Hself. unfold logScreenshotFailure.
    intros [-> | ->]; [reflexivity |].
    destruct (Screenshot.caught run); reflexivity.
  - intros error He Hc. rewrite Hself. unfold logScreenshotFailure.
    rewrite He, Hc. reflexivity.
  - intros logs Hl. rewrite Hlogs, Hl. reflexivity.
  - intros Hl. rewrite Hlogs, Hl. reflexivity.
  - intros reqs Hq. rewrite Hreqs, Hq. reflexivity.
  - intros Hq. rewrite Hreqs, Hq. split; [reflexivity |].
    unfold getNetworkRequests. rewrite Hnet. reflexivity.
  - intros shot Hs. rewrite Hshot, Hs. reflexivity.
  - intros Hs. rewrite Hshot, Hshot0, Hs. reflexivity.
  - intros t Ht. unfold r, captureReport, captureScreenshot. cbn. rewrite Ht.
    reflexivity.
  - intros u Hu. unfold r, captureReport, captureScreenshot. cbn. rewrite Hu.
    reflexivity.
  - reflexivity.
  - reflexivity.
  - reflexivity.
  - reflexivity.
  - intros Hw.
    assert (Hrun : run = {| Screenshot.returned := None;
                            Screenshot.document := doc;
                            Screenshot.caught := None |}).
    { unfold run. rewrite Hw.
      rewrite bool_decide_false by (intros [x Hx]; discriminate).
      reflexivity. }
    rewrite Hdoc, Hself, Hshot0, Hrun.
    unfold plain, captureReport, captureScreenshot. rewrite Hw.
    split_and!; reflexivity.
Qed.

(** ** The browser name shown in the Slack message *)

Lemma includes_app (pre sub post : string) :
  Js.includes (pre +:+ sub +:+ post) sub = true.
Proof.
  induction pre as [| ch pre IH].
  - change ("" +:+ sub +:+ post) with (sub +:+ post).
    destruct sub as [| s0 sub]; [destruct post; reflexivity |].
    change (String s0 sub +:+ post) with (String s0 (sub +:+ post)).
    cbn [Js.includes].
    change (String s0 (sub +:+ post)) with (String s0 sub +:+ post).
    apply orb_true_iff. left.
    assert (H : forall a b, String.prefix a (a +:+ b) = true).
    { induction a as [| x a IHa]; intros b; [destruct b; reflexivity |].
      simpl. destruct (Ascii.ascii_dec x x); [apply IHa | congruence]. }
    apply (H (String s0 sub) post).
  - change (String ch pre +:+ sub +:+ post)
      with (String ch (pre +:+ sub +:+ post)).
    cbn [Js.includes]. rewrite IH. apply orb_true_r.
Qed.

(** X23.  [extractBrowser] tries the names in the order Chrome, Firefox,
    Safari, Edge and stops at the first one found: a user agent that names
    Chrome anywhere is reported as Chrome, whatever else it names; the
    answer is Edge exactly when Edge is named and none of the other three
    is; and it is Unknown exactly when none of the four is named. *)
Theorem extractBrowser_first_match_wins (userAgent : string) :
  (forall pre post, userAgent = pre +:+ "Chrome" +:+ post ->
     Slack.extractBrowser userAgent = "Chrome") /\
  (Slack.extractBrowser userAgent = "Edge" <->
     Js.includes userAgent "Edge" = true /\
     Js.includes userAgent "Chrome" = false /\
     Js.includes userAgent "Firefox" = false /\
     Js.includes userAgent "Safari" = false) /\
  (Slack.extractBrowser userAgent = "Unknown" <->
     Js.includes userAgent "Chrome" = false /\
     Js.includes userAgent "Firefox" = false /\
     Js.includes userAgent "Safari" = false /\
     Js.includes userAgent "Edge" = false) /\
  In (Slack.extractBrowser userAgent)
     ["Chrome"; "Firefox"; "Safari"; "Edge"; "Unknown"].
Proof.
  split_and!.
  - intros pre post ->. unfold Slack.extractBrowser.
    rewrite includes_app. reflexivity.
  - unfold Slack.extractBrowser.
    destruct (Js.includes userAgent "Chrome"), (Js.includes userAgent "Firefox"),
      (Js.includes userAgent "Safari"), (Js.includes userAgent "Edge");
      split; try discriminate; try (intros (? & ? & ? & ?); discriminate);
      auto.
  - unfold Slack.extractBrowser.
    destruct (Js.includes userAgent "Chrome"), (Js.includes userAgent "Firefox"),
      (Js.includes userAgent "Safari"), (Js.includes userAgent "Edge");
      split; try discriminate; try (intros (? & ? & ? & ?); discriminate);
      auto.
  - unfold Slack.extractBrowser.
    destruct (Js.includes userAgent "Chrome"), (Js.includes userAgent "Firefox"),
      (Js.includes userAgent "Safari"), (Js.includes userAgent "Edge");
      simpl; auto 10.
Qed.

(** ** The older request primitive beside [fetch] *)

Lemma pushBounded_length_ext {A} (max : Z) (buf : list A) (e1 e2 : A) :
  length (pushBounded max buf e1) = length (pushBounded max buf e2).
Proof.
  unfold pushBounded, Js.slice.
  assert (H : length (buf ++ [e1]) = length (buf ++ [e2]))
    by (rewrite !length_app; reflexivity).
  rewrite H. destruct (_ <? _); [| exact H].
  rewrite !length_drop, H. reflexivity.
Qed.

Lemma xhrLoadend_entries (parseURL : string -> option Url.URL)
    (clock : nat -> Z) (xhr : Xhr) : forall registered self k,
  xhrLoadend parseURL self clock k xhr registered =
    fold_left addNetworkRequest
      (imap (fun i l => xhrEntry parseURL (options self) (clock (k + i)%nat) xhr l)
            registered)
      self.
Proof.
  induction registered as [| l rest IH]; intros self k; [reflexivity |].
  cbn [xhrLoadend imap fold_left]. rewrite IH. unfold xhrListener.
  rewrite Nat.add_0_r. f_equal. apply imap_ext. intros i x _.
  cbn. rewrite Nat.add_succ_r. reflexivity.
Qed.

(** X24.  The two interceptors record alike.  For the same address and the
    same session, an exchange on a request object that was not opened before
    is recorded exactly when a [fetch] to that address is; both leave the
    console buffer alone and the options as [shouldExcludeUrl] leaves them;
    the two entries carry the same start time, the same sanitized address
    and the same duration, and the buffer ends up with the same length.  The
    older primitive never records request headers, even when they are asked
    for; it reports the error ['Network error'] exactly when the status is
    0, which is also how a [fetch] rejected with something that is not an
    [Error] is recorded.  A listener is added at every [open] that is not
    excluded and none is removed: when [loadend] fires, each listener on the
    object pushes an entry of its own, in the order of the calls of [open],
    all with the status the object has then. *)
Theorem both_interceptors_record_alike
    (parseURL : string -> option Url.URL) (self : Capture)
    (startTime endTime : Z) (method urlString : string) (xhr : Xhr)
    (init : option RequestInit) (outcome : FetchOutcome) :
  let viaXhr :=
    xhrExchange parseURL self startTime endTime method urlString xhr in
  let viaFetch :=
    fst (fetchWrapper parseURL self startTime endTime (InfoString urlString) init
           outcome) in
  let tested := afterTest self urlString in
  consoleLogs viaXhr = consoleLogs self /\
  options viaXhr = options viaFetch /\
  options viaXhr = snd (shouldExcludeUrl (options self) urlString) /\
  (fst (shouldExcludeUrl (options self) urlString) = true ->
     viaXhr = tested /\ viaFetch = tested /\
     networkRequests viaXhr = networkRequests self) /\
  length (networkRequests viaXhr) = length (networkRequests viaFetch) /\
  (fst (shouldExcludeUrl (options self) urlString) = false ->
     exists x f,
       viaXhr = addNetworkRequest tested x /\
       viaFetch = addNetworkRequest tested f /\
       net_timestamp x = net_timestamp f /\
       net_url x = net_url f /\
       net_url x = sanitizeUrl parseURL (options self) urlString /\
       net_duration x = net_duration f /\
       net_requestHeaders x = None /\
       net_status x = Some (xhr_status xhr) /\
       (net_error x = Some "Network error" <-> xhr_status xhr = 0) /\
       (net_error x = None <-> xhr_status xhr <> 0) /\
       (forall shown,
          outcome = Rejects (Js.ThrownValue shown) ->
          xhr_status xhr = 0 ->
          net_status x = net_status f /\ net_error x = net_error f)) /\
  (forall now method' url' registered,
     snd (xhrOpen self now method' url' registered) =
       if fst (shouldExcludeUrl (options self) url') then registered
       else registered ++ [{| lis_startTime := now; lis_method := method';
                              lis_url := url' |}]) /\
  (forall clock k registered,
     xhrLoadend parseURL self clock k xhr registered =
       fold_left addNetworkRequest
         (imap (fun i l => xhrEntry parseURL (options self) (clock (k + i)%nat)
                             xhr l)
               registered)
         self).
Proof.
  intros viaXhr viaFetch tested.
  unfold viaXhr, viaFetch, xhrExchange, xhrOpen, fetchWrapper.
  cbn [inputUrl]. fold tested.
  destruct (fst (shouldExcludeUrl (options self) urlString)) eqn:Hex.
  - cbn [fst snd xhrLoadend]. split_and!; try reflexivity; try discriminate.
    + intros _. auto.
    + intros now method' url' registered.
      destruct (fst (shouldExcludeUrl (options self) url')); reflexivity.
    + intros clock k registered. apply xhrLoadend_entries.
  - cbn [fst snd app xhrLoadend]. unfold xhrListener.
    split_and!; try reflexivity; try discriminate.
    + destruct outcome; reflexivity.
    + destruct outcome; cbn [fst addNetworkRequest set_networkRequests networkRequests];
        apply pushBounded_length_ext.
    + intros _.
      assert (Herr : forall z : Z,
                 ((if z =? 0 then Some "Network error" else None) =
                    Some "Network error" <-> z = 0) /\
                 ((if z =? 0 then Some "Network error" else @None string) =
                    None <-> z <> 0)).
      { intros z. destruct (Z.eqb_spec z 0); split; split;
          intros; try congruence; try reflexivity; try discriminate. }
      destruct (Herr (xhr_status xhr)) as [He1 He2].
      destruct outcome as [response | error]; cbn [fst];
        eexists; eexists; (split; [reflexivity |]); (split; [reflexivity |]);
        cbn [xhrEntry net_timestamp net_url net_duration net_requestHeaders
             net_status net_error lis_startTime lis_url lis_method];
        split_and!; try reflexivity; try exact He1; try exact He2;
        intros shown Hout Hst; try discriminate.
      inversion Hout; subst. rewrite Hst. split; reflexivity.
    + intros now method' url' registered.
      destruct (fst (shouldExcludeUrl (options self) url')); reflexivity.
    + intros clock k registered. apply xhrLoadend_entries.
Qed.

(** A request object used for two exchanges: the second [loadend] runs the
    listeners of both calls of [open], so the second exchange is recorded
    twice, once under the address and the start time of the first. *)
Example reused_request_object_is_recorded_twice :
  let s0 := newCapture defaultOptions in
  let o1 := xhrOpen s0 10 "GET" "https://x/a" [] in
  let s1 := xhrLoadend SimpleUrl.parse (fst o1) (fun _ => 15) 0 (answered 200)
              (snd o1) in
  let o2 := xhrOpen s1 20 "POST" "https://x/b" (snd o1) in
  let s2 := xhrLoadend SimpleUrl.parse (fst o2) (fun _ => 30) 0 (answered 500)
              (snd o2) in
  map (fun e => (net_method e, net_url e, net_status e, net_duration e))
      (networkRequests s2)
  = [("GET", "https://x/a", Some 200, Some 5);
     ("GET", "https://x/a", Some 500, Some 20);
     ("POST", "https://x/b", Some 500, Some 10)].
Proof. vm_compute. reflexivity. Qed.

(** ** Custom form fields *)



(** ** Attached files *)

Section FileProofs.
Import Files.

Variable toFixedMB : Z -> string.

Lemma validateFile_isValid (file : File) (validation : option Rules) :
  Dispatcher.isValid (validateFile toFixedMB file validation) = true <->
  Dispatcher.errors (validateFile toFixedMB file validation) = [].
Proof.
  unfold validateFile. destruct validation as [v |]; [| simpl; tauto].
  cbn [Dispatcher.isValid Dispatcher.errors].
  apply length_zero_iff_nil.
Qed.

Lemma limit_Some (n : option Z) (max : Z) :
  limit n = Some max <-> n = Some max /\ max <> 0.
Proof.
  unfold limit. destruct n as [z |]; [| split; [discriminate | intros [? _]; discriminate]].
  destruct (Z.eqb_spec z 0); split.
  - discriminate.
  - intros [Heq Hne]. inversion Heq. congruence.
  - intros Heq. inversion Heq. subst. auto.
  - intros [Heq _]. exact Heq.
Qed.

Lemma validateFile_valid_iff (file : File) (v : Rules) :
  Dispatcher.isValid (validateFile toFixedMB file (Some v)) = true <->
  (forall max, maxFileSize v = Some max -> max <> 0 -> size file <= max) /\
  (forall types, allowedFileTypes v = Some types -> types <> [] ->
                 existsb (typeAllowed file) types = true).
Proof.
  rewrite validateFile_isValid. unfold validateFile.
  cbn [Dispatcher.errors].
  destruct (limit (maxFileSize v)) as [max |] eqn:Hlim.
  - apply limit_Some in Hlim as [Hmax Hne]. rewrite Hmax.
    destruct (Z.ltb_spec max (size file)).
    + split; [discriminate |]. intros [Hs _].
      specialize (Hs max eq_refl Hne). lia.
    + cbn [app]. destruct (allowedFileTypes v) as [[| t ts] |].
      * split; [| reflexivity]. intros _. split.
        -- intros m Hm _. inversion Hm. lia.
        -- intros types Ht Hnn. inversion Ht. congruence.
      * destruct (existsb (typeAllowed file) (t :: ts)) eqn:Hex.
        -- split; [| reflexivity]. intros _. split.
           ++ intros m Hm _. inversion Hm. lia.
           ++ intros types Ht _. inversion Ht. subst. exact Hex.
        -- split; [discriminate |]. intros [_ Ht].
           specialize (Ht (t :: ts) eq_refl). rewrite Hex in Ht.
           discriminate Ht. discriminate.
      * split; [| reflexivity]. intros _. split.
        -- intros m Hm _. inversion Hm. lia.
        -- intros types Ht. discriminate.
  - assert (Hsize : forall max, maxFileSize v = Some max -> max <> 0 ->
                                size file <= max).
    { intros max Hmax Hne.
      assert (Hl : limit (maxFileSize v) = Some max)
        by (apply limit_Some; auto).
      congruence. }
    cbn [app]. destruct (allowedFileTypes v) as [[| t ts] |].
    * split; [| reflexivity]. intros _. split; [exact Hsize |].
      intros types Ht Hnn. inversion Ht. congruence.
    * destruct (existsb (typeAllowed file) (t :: ts)) eqn:Hex.
      -- split; [| reflexivity]. intros _. split; [exact Hsize |].
         intros types Ht _. inversion Ht. subst. exact Hex.
      -- split; [discriminate |]. intros [_ Ht].
         specialize (Ht (t :: ts) eq_refl). rewrite Hex in Ht.
         discriminate Ht. discriminate.
    * split; [| reflexivity]. intros _. split; [exact Hsize |].
      intros types Ht. discriminate.
Qed.

Lemma file_errors_nil (files : list File) (validation : option Rules) :
  flat_map (fun file =>
              let fileValidation := validateFile toFixedMB file validation in
              if negb (Dispatcher.isValid fileValidation)
              then Dispatcher.errors fileValidation
              else []) files = [] <->
  Forall (fun file =>
            Dispatcher.isValid (validateFile toFixedMB file validation) = true)
         files.
Proof.
  induction files as [| file files IH].
  - simpl. split; [constructor | reflexivity].
  - cbn [flat_map]. rewrite Forall_cons. rewrite <- IH.
    cbv zeta.
    destruct (Dispatcher.isValid (validateFile toFixedMB file validation)) eqn:Hv.
    + cbn [negb app]. tauto.
    + cbn [negb]. split.
      * intros Happ. apply app_eq_nil in Happ as [He _].
        apply validateFile_isValid in He. congruence.
      * intros [Hf _]. discriminate.
Qed.

End FileProofs.

(** X26.  A set of attached files is accepted exactly when it produces no
    error, which is exactly when the count is within [maxFiles] and every
    file is accepted on its own; a file is accepted exactly when its size is
    within [maxFileSize] and, where a non-empty list of allowed types is
    given, one of them matches.  A limit of 0 is no limit, and without
    [config.validation] every set of files is accepted. *)
Theorem files_accepted_iff_each_accepted (toFixedMB : Z -> string)
    (files : list Files.File) (validation : option Files.Rules) :
  let r := Files.validateMultipleFiles toFixedMB files validation in
  (Dispatcher.isValid r = true <-> Dispatcher.errors r = []) /\
  (Dispatcher.isValid r = true <->
     (forall v max,
        validation = Some v -> Files.maxFiles v = Some max -> max <> 0 ->
        Z.of_nat (length files) <= max) /\
     Forall (fun file =>
               Dispatcher.isValid (Files.validateFile toFixedMB file validation) = true)
            files) /\
  (validation = None -> Dispatcher.isValid r = true) /\
  (forall file v,
     validation = Some v ->
     (Dispatcher.isValid (Files.validateFile toFixedMB file validation) = true <->
        (forall max, Files.maxFileSize v = Some max -> max <> 0 ->
                     Files.size file <= max) /\
        (forall types, Files.allowedFileTypes v = Some types -> types <> [] ->
                       existsb (Files.typeAllowed file) types = true))).
Proof.
  intros r.
  assert (Hiff : Dispatcher.isValid r = true <-> Dispatcher.errors r = []).
  { unfold r, Files.validateMultipleFiles.
    cbn [Dispatcher.isValid Dispatcher.errors].
    apply length_zero_iff_nil. }
  assert (Hall : Dispatcher.isValid r = true <->
     (forall v max,
        validation = Some v -> Files.maxFiles v = Some max -> max <> 0 ->
        Z.of_nat (length files) <= max) /\
     Forall (fun file =>
               Dispatcher.isValid (Files.validateFile toFixedMB file validation) = true)
            files).
  { rewrite Hiff. unfold r, Files.validateMultipleFiles.
    cbn [Dispatcher.errors]. rewrite <- file_errors_nil.
    destruct (Files.limit (validation ≫= Files.maxFiles)) as [max |] eqn:Hlim.
    - apply limit_Some in Hlim as [Hmax Hne].
      destruct validation as [v |]; [| discriminate]. simpl in Hmax.
      destruct (Z.ltb_spec max (Z.of_nat (length files))).
      + split; [discriminate |]. intros [Hc _].
        specialize (Hc v max eq_refl Hmax Hne). lia.
      + cbn [app]. split; [| tauto]. intros Hnil. split; [| exact Hnil].
        intros v' m Hv Hm _. inversion Hv. subst. rewrite Hmax in Hm.
        inversion Hm. lia.
    - cbn [app]. split; [| tauto]. intros Hnil. split; [| exact Hnil].
      intros v max Hv Hmax Hne. subst validation. simpl in Hlim.
      assert (Hl : Files.limit (Files.maxFiles v) = Some max)
        by (apply limit_Some; auto).
      congruence. }
  split_and!; [exact Hiff | exact Hall | |].
  - intros ->. apply Hall. split; [discriminate |].
    apply Forall_forall. intros file _. reflexivity.
  - intros file v ->. apply validateFile_valid_iff.
Qed.

